(** * A shallow embedding of the record, value, schema, table and LOB
    decoders of mdf-rs (src/record.rs, src/types.rs, src/table.rs,
    src/raw_page.rs, src/lob.rs).

    Conventions of the model:
    - a byte slice is a [list Z] of bytes; integers are [Z];
    - the Rust [Option] results of the decoders stay [option];
    - a Rust panic (failed [assert!], [unwrap] on [None], slice index
      out of range, arithmetic overflow as in a debug build) is the
      [Panic] outcome of the [Panicky] monad below. *)

From Stdlib Require Import String ZArith List Bool Lia Sorting.Sorted.
Import ListNotations.
Open Scope Z_scope.
Open Scope list_scope.
Open Scope Z_scope.

(** ** Panics *)

Inductive Panicky (A : Type) : Type :=
| Ok (a : A)
| Panic.
Arguments Ok {A} a.
Arguments Panic {A}.

Definition pbind {A B} (m : Panicky A) (k : A -> Panicky B) : Panicky B :=
  match m with
  | Ok a => k a
  | Panic => Panic
  end.

Notation "x <- m ;; k" := (pbind m (fun x => k))
  (at level 61, m at next level, right associativity).
Notation "' p <- m ;; k" := (pbind m (fun x => match x with p => k end))
  (at level 61, p pattern, m at next level, right associativity).

(** [assert!(b)] *)
Definition rust_assert (b : bool) : Panicky unit :=
  if b then Ok tt else Panic.

(** [o.unwrap()] *)
Definition unwrap {A} (o : option A) : Panicky A :=
  match o with
  | Some a => Ok a
  | None => Panic
  end.

(** ** Byte slices *)

(** [&bs[a..b]] *)
Definition slice (bs : list Z) (a b : Z) : Panicky (list Z) :=
  if (0 <=? a) && (a <=? b) && (b <=? Z.of_nat (length bs))
  then Ok (firstn (Z.to_nat (b - a)) (skipn (Z.to_nat a) bs))
  else Panic.

(** [&bs[a..]] *)
Definition slice_from (bs : list Z) (a : Z) : Panicky (list Z) :=
  if (0 <=? a) && (a <=? Z.of_nat (length bs))
  then Ok (skipn (Z.to_nat a) bs)
  else Panic.

(** [bs[i]] *)
Definition index {A} (bs : list A) (i : Z) : Panicky A :=
  if 0 <=? i then unwrap (nth_error bs (Z.to_nat i)) else Panic.

(** Little-endian value of a list of bytes. *)
Fixpoint le_value (bs : list Z) : Z :=
  match bs with
  | [] => 0
  | b :: rest => b + 256 * le_value rest
  end.

(** [ReadBytesExt::read_uN::<LittleEndian>(&mut slice).unwrap()] on a
    slice: reads the first [n] bytes, panics when fewer remain. *)
Definition read_le (n : nat) (bs : list Z) : Panicky Z :=
  if (n <=? length bs)%nat then Ok (le_value (firstn n bs)) else Panic.

Definition read_u8 := read_le 1.
Definition read_u16 := read_le 2.
Definition read_u32 := read_le 4.
Definition read_u64 := read_le 8.

(** Two's complement reading of a [w]-bit unsigned value. *)
Definition to_signed (w x : Z) : Z :=
  if x <? 2 ^ (w - 1) then x else x - 2 ^ w.

(** Checked [u16] subtraction (an underflow panics in a debug build). *)
Definition u16_sub (a b : Z) : Panicky Z :=
  if a <? b then Panic else Ok (a - b).

(** Checked [u16] increment. *)
Definition u16_incr (a : Z) : Panicky Z :=
  if 65535 <? a + 1 then Panic else Ok (a + 1).

(** [BitSlice::<Lsb0, u8>::from_slice]: bit [8k+j] is bit [j] of byte [k]. *)
Definition bits_lsb0 (bs : list Z) : list bool :=
  flat_map (fun b => map (fun j => Z.testbit b (Z.of_nat j)) (seq 0 8)) bs.

(** ** Records (src/record.rs) *)

Inductive RecordType :=
| Primary | Forwarded | Forwarding | IndexRec | Blob
| GhostIndex | GhostData | GhostVersion.

(** [RecordType::parse]; [_ => unreachable!()] panics. *)
Definition RecordType_parse (num : Z) : Panicky RecordType :=
  match num with
  | 0 => Ok Primary
  | 1 => Ok Forwarded
  | 2 => Ok Forwarding
  | 3 => Ok IndexRec
  | 4 => Ok Blob
  | 5 => Ok GhostIndex
  | 6 => Ok GhostData
  | 7 => Ok GhostVersion
  | _ => Panic
  end.

(** [matches!(ty, Primary | Index | Blob)] *)
Definition record_type_supported (ty : RecordType) : bool :=
  match ty with
  | Primary | IndexRec | Blob => true
  | _ => false
  end.

(** [RecordTagA] flags. *)
Definition HAS_NULL_BITMAP := 1.
Definition HAS_VAR_LENGTH_COLUMNS := 2.
Definition HAS_VERSIONING_TAG := 4.
Definition HAS_VALID_TAG_B := 8.

(** [flags.contains(f)] *)
Definition contains (flags f : Z) : bool := Z.land flags f =? f.

Record VarLengthColumns := {
  vl_data : list Z;
  count : Z;
  base_offset : Z
}.

Record Record_ := {
  ty : RecordType;
  tag_a : Z;
  tag_b : Z;
  column_count : Z;
  fixed_data : list Z;
  null_bitmap : option (list bool);
  var_length_columns : option VarLengthColumns
}.

(** [VarLengthColumnOffset::parse]: (end, complex). *)
Definition VarLengthColumnOffset_parse (bytes : list Z) : Panicky (Z * bool) :=
  s <- slice bytes 0 2 ;;
  value <- read_u16 s ;;
  Ok (Z.land value 32767, negb (Z.land value 32768 =? 0)).

(** [usize] subtraction, which panics on underflow in a debug build. *)
Definition usize_sub (a b : Z) : Panicky Z :=
  if a <? b then Panic else Ok (a - b).

(** [VarLengthColumns::get] *)
Definition VarLengthColumns_get (v : VarLengthColumns) (idx : Z)
  : Panicky (bool * list Z) :=
  if count v <=? idx then Ok (false, [])
  else
    start <- (if idx =? 0 then Ok (2 * count v)
              else let prev_idx := idx - 1 in
                   s <- slice (vl_data v) (2 * prev_idx) (2 * (prev_idx + 1)) ;;
                   '(e, _) <- VarLengthColumnOffset_parse s ;;
                   usize_sub e (base_offset v)) ;;
    s <- slice (vl_data v) (2 * idx) (2 * (idx + 1)) ;;
    '(e, complex) <- VarLengthColumnOffset_parse s ;;
    end_offs <- usize_sub e (base_offset v) ;;
    d <- slice (vl_data v) start end_offs ;;
    Ok (complex, d).

(** [Record::is_column_null]: [self.null_bitmap.map(|v| v[idx]).unwrap_or(false)];
    indexing a [BitSlice] out of range panics. *)
Definition is_column_null (r : Record_) (idx : Z) : Panicky bool :=
  match null_bitmap r with
  | None => Ok false
  | Some v => index v idx
  end.

(** [Record::parse] *)
Definition Record_parse (data : list Z) (is_index : bool) (p_min_len : Z)
  : Panicky (option Record_) :=
  b0 <- index data 0 ;;
  let tag_a := Z.shiftr b0 4 in
  tag_b <- (if is_index then Ok 0
            else b1 <- index data 1 ;; Ok (Z.land b1 1)) ;;
  ty <- RecordType_parse (Z.shiftr (Z.land b0 15) 1) ;;
  _ <- rust_assert (record_type_supported ty) ;;
  fdl <- (if is_index
          then l <- u16_sub p_min_len 1 ;; Ok (Some l)
          else s <- slice data 2 4 ;;
               offs <- read_u16 s ;;
               if offs <? 4 then Ok None else Ok (Some (offs - 4))) ;;
  match fdl with
  | None => Ok None
  | Some fixed_data_length =>
    let offset := if is_index then p_min_len else 4 + fixed_data_length in
    if Z.of_nat (length data) <? offset then Ok None
    else
      s <- slice_from data offset ;;
      column_count <- read_u16 s ;;
      let offset := offset + 2 in
      '(null_bitmap, offset) <-
        (if contains tag_a HAS_NULL_BITMAP
         then let nbytes := (column_count + 7) / 8 in
              s <- slice data offset (offset + nbytes) ;;
              Ok (Some (bits_lsb0 s), offset + nbytes)
         else Ok (None, offset)) ;;
      vcount <-
        (if contains tag_a HAS_VAR_LENGTH_COLUMNS
         then s <- slice_from data offset ;; c <- read_u16 s ;; Ok (Some c)
         else Ok None) ;;
      fixed_data <- slice data 4 (fixed_data_length + 4) ;;
      vlc <- (match vcount with
              | None => Ok None
              | Some c => d <- slice_from data (offset + 2) ;;
                          Ok (Some {| vl_data := d; count := c;
                                      base_offset := offset + 2 |})
              end) ;;
      Ok (Some {| ty := ty; tag_a := tag_a; tag_b := tag_b;
                  column_count := column_count; fixed_data := fixed_data;
                  null_bitmap := null_bitmap; var_length_columns := vlc |})
  end.

(** ** Page and record pointers (src/raw_page.rs) *)

Record PagePointer := {
  page_id : Z;
  file_id : Z
}.

Record RecordPointer := {
  page_ptr : PagePointer;
  slot_id : Z
}.

(** [PagePointer::parse]: a zero [file_id] is the null pointer. *)
Definition PagePointer_parse (data : list Z) : Panicky (option PagePointer) :=
  s <- slice data 4 6 ;;
  fid <- read_u16 s ;;
  if fid =? 0 then Ok None
  else s <- slice data 0 4 ;;
       pid <- read_u32 s ;;
       Ok (Some {| page_id := pid; file_id := fid |}).

(** [RecordPointer::parse] *)
Definition RecordPointer_parse (data : list Z) : Panicky (option RecordPointer) :=
  s <- slice data 4 6 ;;
  fid <- read_u16 s ;;
  if fid =? 0 then Ok None
  else s <- slice data 0 6 ;;
       pp <- PagePointer_parse s ;;
       pp <- unwrap pp ;;
       s <- slice data 6 8 ;;
       sid <- read_u16 s ;;
       Ok (Some {| page_ptr := pp; slot_id := sid |}).

(** ** LOB pointers (src/lob.rs) *)

Record LobPointer := {
  timestamp : Z;
  ptr : RecordPointer
}.

(** [LobPointer::parse] *)
Definition LobPointer_parse (data : list Z) : Panicky LobPointer :=
  s <- slice data 0 4 ;;
  ts <- read_u32 s ;;
  s <- slice data 8 16 ;;
  p <- RecordPointer_parse s ;;
  p <- unwrap p ;;
  Ok {| timestamp := ts; ptr := p |}.

(** ** SQL types and values (src/types.rs) *)

Module SqlType.
Inductive t :=
| TinyInt | SmallInt | Int | BigInt
| Binary (n : Z) | Char (n : Z) | NChar (n : Z)
| VarBinary (max : option Z) | VarChar (max : option Z)
| Bit | SqlVariant | NVarChar | SysName | DateTime | SmallDateTime
| UniqueIdentifier | Image | NText | Float.
End SqlType.

Inductive ValueOrLob (T : Type) :=
| Value (v : T)
| Lob (l : LobPointer).
Arguments Value {T} v.
Arguments Lob {T} l.

(** Values.  A decoded Rust [String] is its list of code points; a
    [chrono::NaiveDateTime] is its number of milliseconds since
    1900-01-01 00:00:00; an [f64] is its IEEE-754 bit pattern. *)
Module SqlValue.
Inductive t :=
| TinyInt (v : Z) | SmallInt (v : Z) | Int (v : Z) | BigInt (v : Z)
| Bit (b : bool)
| Binary (v : list Z) | Char (v : list Z) | NChar (v : list Z)
| NText (v : list Z)
| VarBinary (v : ValueOrLob (list Z))
| VarChar (v : list Z)
| SysName (v : list Z)
| NVarChar (v : ValueOrLob (list Z))
| SqlVariant (v : list Z)
| UniqueIdentifier (v : Z)
| DateTime (ms : Z)
| SmallDateTime (ms : Z)
| Image (v : option LobPointer)
| Float (bits : Z).
End SqlValue.

(** [SqlType::is_var_length] *)
Definition is_var_length (t : SqlType.t) : bool :=
  match t with
  | SqlType.TinyInt | SqlType.SmallInt | SqlType.Int | SqlType.BigInt
  | SqlType.Binary _ | SqlType.Char _ | SqlType.NChar _ | SqlType.DateTime
  | SqlType.UniqueIdentifier | SqlType.Bit | SqlType.Float
  | SqlType.SmallDateTime => false
  | SqlType.VarBinary _ | SqlType.VarChar _ | SqlType.SysName
  | SqlType.NVarChar | SqlType.SqlVariant | SqlType.Image
  | SqlType.NText => true
  end.

(** [std::io::Cursor<&[u8]>] *)
Record Cursor := {
  cur_buf : list Z;
  cur_pos : Z
}.

(** [read_exact] of [n] bytes followed by [unwrap]. *)
Definition cursor_read (n : Z) (c : Cursor) : Panicky (list Z * Cursor) :=
  if cur_pos c + n <=? Z.of_nat (length (cur_buf c))
  then Ok (firstn (Z.to_nat n) (skipn (Z.to_nat (cur_pos c)) (cur_buf c)),
           {| cur_buf := cur_buf c; cur_pos := cur_pos c + n |})
  else Panic.

Definition cursor_read_le (n : Z) (c : Cursor) : Panicky (Z * Cursor) :=
  '(bs, c') <- cursor_read n c ;; Ok (le_value bs, c').

Definition cursor_new (bs : list Z) : Cursor := {| cur_buf := bs; cur_pos := 0 |}.

(** [BitParser] *)
Record BitParser := {
  current_byte : Z;
  read_bits : Z
}.

(** [BitParser::new] *)
Definition BitParser_new : BitParser := {| current_byte := 0; read_bits := 8 |}.

(** [BitParser::read_bit] *)
Definition read_bit (bp : BitParser) (c : Cursor)
  : Panicky (bool * BitParser * Cursor) :=
  '(cb, rb, c) <- (if read_bits bp =? 8
                   then '(b, c') <- cursor_read_le 1 c ;; Ok (b, 0, c')
                   else Ok (current_byte bp, read_bits bp, c)) ;;
  let ret := Z.land cb 1 =? 1 in
  Ok (ret, {| current_byte := Z.shiftr cb 1; read_bits := rb + 1 |}, c).

Definition ms_per_day := 86400000.

Section Decoders.

(** The two text decoders the crate takes from its dependencies:
    [encoding_rs::UTF_16LE.decode] (used by [parse_utf16_string]) and the
    success test of [std::str::from_utf8]. *)
Variable parse_utf16_string : list Z -> list Z.
Variable from_utf8_ok : list Z -> bool.

(** [SqlType::parse]: the fixed-length decoder, threading the bit parser
    and the cursor over the fixed data. *)
Definition SqlType_parse (t : SqlType.t) (bp : BitParser) (c : Cursor)
  : Panicky (SqlValue.t * BitParser * Cursor) :=
  match t with
  | SqlType.TinyInt =>
      '(v, c) <- cursor_read_le 1 c ;; Ok (SqlValue.TinyInt (to_signed 8 v), bp, c)
  | SqlType.SmallInt =>
      '(v, c) <- cursor_read_le 2 c ;; Ok (SqlValue.SmallInt (to_signed 16 v), bp, c)
  | SqlType.Int =>
      '(v, c) <- cursor_read_le 4 c ;; Ok (SqlValue.Int (to_signed 32 v), bp, c)
  | SqlType.BigInt =>
      '(v, c) <- cursor_read_le 8 c ;; Ok (SqlValue.BigInt (to_signed 64 v), bp, c)
  | SqlType.Bit =>
      '(b, bp, c) <- read_bit bp c ;; Ok (SqlValue.Bit b, bp, c)
  | SqlType.Float =>
      '(v, c) <- cursor_read_le 8 c ;; Ok (SqlValue.Float v, bp, c)
  | SqlType.UniqueIdentifier =>
      '(v, c) <- cursor_read_le 16 c ;; Ok (SqlValue.UniqueIdentifier v, bp, c)
  | SqlType.DateTime =>
      '(time, c) <- cursor_read_le 4 c ;;
      '(date, c) <- cursor_read_le 4 c ;;
      let time := to_signed 32 time in
      let date := to_signed 32 date in
      let dt := 0 in
      let dt := if (date <? 1000000) && (0 <? date) then dt + date * ms_per_day else dt in
      let dt := dt + Z.quot (time * 1000) 300 in
      Ok (SqlValue.DateTime dt, bp, c)
  | SqlType.SmallDateTime =>
      '(time, c) <- cursor_read_le 2 c ;;
      '(date, c) <- cursor_read_le 2 c ;;
      let dt := date * ms_per_day + time * 60000 in
      Ok (SqlValue.DateTime dt, bp, c)
  | SqlType.Binary size =>
      let pos := cur_pos c in
      s <- slice (cur_buf c) pos (pos + size) ;;
      Ok (SqlValue.Binary s, bp, {| cur_buf := cur_buf c; cur_pos := pos + size |})
  | SqlType.Char size =>
      let pos := cur_pos c in
      s <- slice (cur_buf c) pos (pos + size) ;;
      _ <- rust_assert (from_utf8_ok s) ;;
      Ok (SqlValue.Char s, bp, {| cur_buf := cur_buf c; cur_pos := pos + size |})
  | SqlType.NChar size =>
      let pos := cur_pos c in
      s <- slice (cur_buf c) pos (pos + size) ;;
      Ok (SqlValue.NChar (parse_utf16_string s), bp,
          {| cur_buf := cur_buf c; cur_pos := pos + size |})
  | _ => Panic
  end.

(** [SqlType::parse_var_length] *)
Definition parse_var_length (t : SqlType.t) (complex : bool) (data : list Z)
  : Panicky SqlValue.t :=
  match t with
  | SqlType.VarBinary _ =>
      if complex then l <- LobPointer_parse data ;; Ok (SqlValue.VarBinary (Lob l))
      else Ok (SqlValue.VarBinary (Value data))
  | SqlType.VarChar max_size =>
      _ <- rust_assert (negb complex) ;;
      _ <- (match max_size with
            | Some m => rust_assert (Z.of_nat (length data) <=? m)
            | None => Ok tt
            end) ;;
      Ok (SqlValue.VarChar data)
  | SqlType.Image =>
      v <- (match data with
            | [] => Ok None
            | _ => _ <- rust_assert complex ;;
                   _ <- rust_assert (Nat.eqb (length data) 16) ;;
                   l <- LobPointer_parse data ;; Ok (Some l)
            end) ;;
      Ok (SqlValue.Image v)
  | SqlType.NText =>
      v <- (match data with
            | [] => Ok None
            | _ => _ <- rust_assert complex ;;
                   _ <- rust_assert (Nat.eqb (length data) 16) ;;
                   l <- LobPointer_parse data ;; Ok (Some l)
            end) ;;
      Ok (SqlValue.Image v)
  | SqlType.SysName =>
      _ <- rust_assert (negb complex) ;;
      Ok (SqlValue.SysName (parse_utf16_string data))
  | SqlType.NVarChar =>
      if complex then l <- LobPointer_parse data ;; Ok (SqlValue.NVarChar (Lob l))
      else Ok (SqlValue.NVarChar (Value (parse_utf16_string data)))
  | SqlType.SqlVariant =>
      _ <- rust_assert (negb complex) ;;
      Ok (SqlValue.SqlVariant data)
  | _ => Panic
  end.

(** ** Schema and row binding (src/types.rs) *)

Record ColumnType := {
  idx : Z;
  data_type : SqlType.t;
  name : string;
  nullable : bool;
  computed : bool
}.

Record Schema := {
  columns : list ColumnType
}.

Record Row := {
  values : list (option SqlValue.t)
}.

(** [values[i] = v] on a [Vec]: panics out of range. *)
Fixpoint vec_set {A} (l : list A) (i : nat) (v : A) : Panicky (list A) :=
  match l, i with
  | [], _ => Panic
  | _ :: t, O => Ok (v :: t)
  | x :: t, S i' => t' <- vec_set t i' v ;; Ok (x :: t')
  end.

(** The local state of [Schema::parse]: the fixed-data cursor, the bit
    parser, [var_column_idx] (a [u16]) and [null_bit_idx]. *)
Record ParseState := {
  ps_cursor : Cursor;
  ps_bits : BitParser;
  var_column_idx : Z;
  null_bit_idx : Z
}.

(** One non-computed column [i] of the loop of [Schema::parse], up to
    (excluding) the final [null_bit_idx += 1]. *)
Definition parse_column (r : Record_) (c : ColumnType) (i : nat)
  (st : ParseState) (values : list (option SqlValue.t))
  : Panicky (ParseState * list (option SqlValue.t)) :=
  if column_count r <=? null_bit_idx st then Ok (st, values)
  else
    isnull <- is_column_null r (Z.land (null_bit_idx st) 65535) ;;
    if isnull then Ok (st, values)
    else if is_var_length (data_type c) then
      match var_length_columns r with
      | Some cols =>
          '(complex, data) <- VarLengthColumns_get cols (var_column_idx st) ;;
          v <- parse_var_length (data_type c) complex data ;;
          values <- vec_set values i (Some v) ;;
          vi <- u16_incr (var_column_idx st) ;;
          Ok ({| ps_cursor := ps_cursor st; ps_bits := ps_bits st;
                 var_column_idx := vi; null_bit_idx := null_bit_idx st |}, values)
      | None =>
          v <- parse_var_length (data_type c) false [] ;;
          values <- vec_set values i (Some v) ;;
          Ok (st, values)
      end
    else
      '(v, bp, cur) <- SqlType_parse (data_type c) (ps_bits st) (ps_cursor st) ;;
      values <- vec_set values i (Some v) ;;
      Ok ({| ps_cursor := cur; ps_bits := bp;
             var_column_idx := var_column_idx st; null_bit_idx := null_bit_idx st |},
          values).

(** The [for (i, column) in self.columns.iter().enumerate()] loop. *)
Fixpoint parse_columns (r : Record_) (cols : list ColumnType) (i : nat)
  (st : ParseState) (values : list (option SqlValue.t))
  : Panicky (list (option SqlValue.t)) :=
  match cols with
  | [] => Ok values
  | c :: rest =>
      if computed c then parse_columns r rest (S i) st values
      else
        '(st, values) <- parse_column r c i st values ;;
        parse_columns r rest (S i)
          {| ps_cursor := ps_cursor st; ps_bits := ps_bits st;
             var_column_idx := var_column_idx st;
             null_bit_idx := null_bit_idx st + 1 |} values
  end.

(** [Schema::parse] *)
Definition Schema_parse (s : Schema) (r : Record_) : Panicky Row :=
  let values := repeat None (length (columns s)) in
  let st := {| ps_cursor := cursor_new (fixed_data r); ps_bits := BitParser_new;
               var_column_idx := 0; null_bit_idx := 0 |} in
  vs <- parse_columns r (columns s) 0 st values ;;
  Ok {| values := vs |}.

End Decoders.

(** ** Catalog rows (src/system_tables.rs) *)

(** [ColParStatus] flags ([from_bits_truncate] keeps only these bits). *)
Module ColParStatus.
Definition NULLABLE := 1.
Definition ANSI_PADDED := 2.
Definition IDENTIYT := 4.
Definition ROW_GUID_COL := 8.
Definition COMPUTED := 16.
Definition FILESTREAM := 32.
Definition XML_DOCUMENT := 2048.
Definition REPLICATED := 131072.
Definition NON_SQL_SUBSCRIBED := 262144.
Definition MERGE_PUBLISHED := 524288.
Definition DTS_REPLICATED := 2097152.
Definition SPARSE := 16777216.
Definition COLUMN_SET := 33554432.
End ColParStatus.

Module SysColPar.
Record t := {
  id : Z;
  number : Z;
  col_id : Z;
  name : option string;
  xtype : Z;
  utype : Z;
  length : Z;
  prec : Z;
  scale : Z;
  collation_id : Z;
  status : Z;
  max_in_row : Z;
  xml_ns : Z;
  dflt : Z;
  chk : Z;
  idt_val : option (ValueOrLob (list Z))
}.
End SysColPar.

Module SysScalarType.
Record t := {
  id : Z;
  sch_id : Z;
  name : string;
  xtype : Z;
  length : Z;
  prec : Z;
  scale : Z;
  collation_id : Z;
  status : Z;
  created : Z;
  modified : Z;
  dflt : Z;
  chk : Z
}.
End SysScalarType.

(** [i16 as usize] (sign extension). *)
Definition usize_of_i16 (x : Z) : Z := if x <? 0 then x + 2 ^ 64 else x.

(** [SqlType::from_col]; an unknown type name panics. *)
Definition SqlType_from_col (col : SysColPar.t) (t : SysScalarType.t)
  : Panicky SqlType.t :=
  let n := SysScalarType.name t in
  let len := usize_of_i16 (SysColPar.length col) in
  if String.eqb n "tinyint"%string then Ok SqlType.TinyInt
  else if String.eqb n "smallint"%string then Ok SqlType.SmallInt
  else if String.eqb n "int"%string then Ok SqlType.Int
  else if String.eqb n "bigint"%string then Ok SqlType.BigInt
  else if String.eqb n "binary"%string then Ok (SqlType.Binary len)
  else if String.eqb n "char"%string then Ok (SqlType.Char len)
  else if String.eqb n "nchar"%string then Ok (SqlType.NChar len)
  else if String.eqb n "varbinary"%string then Ok (SqlType.VarBinary (Some len))
  else if String.eqb n "varchar"%string then Ok (SqlType.VarChar (Some len))
  else if String.eqb n "bit"%string then Ok SqlType.Bit
  else if String.eqb n "nvarchar"%string then Ok SqlType.NVarChar
  else if String.eqb n "sysname"%string then Ok SqlType.SysName
  else if String.eqb n "uniqueidentifier"%string then Ok SqlType.UniqueIdentifier
  else if String.eqb n "datetime"%string then Ok SqlType.DateTime
  else if String.eqb n "sql_variant"%string then Ok SqlType.SqlVariant
  else if String.eqb n "image"%string then Ok SqlType.Image
  else if String.eqb n "ntext"%string then Ok SqlType.NText
  else if String.eqb n "float"%string then Ok SqlType.Float
  else if String.eqb n "smalldatetime"%string then Ok SqlType.SmallDateTime
  else Panic.

(** The closure mapped over the catalog pairs in [Schema::from_col_par]. *)
Definition column_of_col_par (col : SysColPar.t) (t : SysScalarType.t)
  : Panicky ColumnType :=
  let st := SysColPar.status col in
  _ <- rust_assert (negb (contains st ColParStatus.SPARSE)) ;;
  _ <- rust_assert (negb (contains st ColParStatus.FILESTREAM)) ;;
  _ <- rust_assert (negb (contains st ColParStatus.XML_DOCUMENT)) ;;
  dt <- SqlType_from_col col t ;;
  nm <- unwrap (SysColPar.name col) ;;
  Ok {| idx := SysColPar.col_id col; data_type := dt; name := nm;
        nullable := negb (contains st ColParStatus.NULLABLE);
        computed := contains st ColParStatus.COMPUTED |}.

Fixpoint mapM {A B} (f : A -> Panicky B) (l : list A) : Panicky (list B) :=
  match l with
  | [] => Ok []
  | x :: t => y <- f x ;; ys <- mapM f t ;; Ok (y :: ys)
  end.

(** [columns.sort_by(|a, b| a.idx.partial_cmp(&b.idx).unwrap())]: a stable
    sort on [idx], written as a stable insertion sort (any two stable
    sorts on the same key give the same list). *)
Fixpoint insert_by_idx (c : ColumnType) (l : list ColumnType) : list ColumnType :=
  match l with
  | [] => [c]
  | d :: t => if idx c <=? idx d then c :: d :: t else d :: insert_by_idx c t
  end.

Fixpoint sort_by_idx (l : list ColumnType) : list ColumnType :=
  match l with
  | [] => []
  | c :: t => insert_by_idx c (sort_by_idx t)
  end.

(** [Schema::from_col_par] *)
Definition Schema_from_col_par (column_info : list (SysColPar.t * SysScalarType.t))
  : Panicky Schema :=
  cols <- mapM (fun '(col, t) => column_of_col_par col t) column_info ;;
  Ok {| columns := sort_by_idx cols |}.

(** ** Pages (src/raw_page.rs) *)

Inductive PageType :=
| UnAlloc | Data | Index | TextMix | TextTree | Sort | GAM | SGAM | IAM | PFS
| Boot | FileHeader | DiffMap | MLMap | CheckDBTemp | AlterIndexTemp | PreAlloc
| Unknown (n : Z).

(** [PageType::parse] *)
Definition PageType_parse (t : Z) : PageType :=
  match t with
  | 0 => UnAlloc | 1 => Data | 2 => Index | 3 => TextMix | 4 => TextTree
  | 7 => Sort | 8 => GAM | 9 => SGAM | 10 => IAM | 11 => PFS | 13 => Boot
  | 15 => FileHeader | 16 => DiffMap | 17 => MLMap | 18 => CheckDBTemp
  | 19 => AlterIndexTemp | 20 => PreAlloc
  | unk => Unknown unk
  end.

Definition is_data_page (t : PageType) : bool :=
  match t with Data => true | _ => false end.

Definition is_index_page (t : PageType) : bool :=
  match t with Index => true | _ => false end.

Module PageHeader.
Record t := {
  ptr : PagePointer;
  slot_count : Z;
  level : Z;
  p_min_len : Z;
  ty : PageType;
  object_id : Z;
  index_id : Z;
  prev_page_ptr : option PagePointer;
  next_page_ptr : option PagePointer
}.
End PageHeader.

(** A [RawPage] without its [page_provider] back-reference (the
    provider is a section variable wherever it is used). *)
Record RawPage := {
  header : PageHeader.t;
  data : list Z
}.

Definition PAGE_SIZE := 8192.

(** [PageHeader::parse_ptr] *)
Definition PageHeader_parse_ptr (data : list Z) : Panicky (option PagePointer) :=
  s <- slice_from data 32 ;; PagePointer_parse s.

(** [PageHeader::parse] *)
Definition PageHeader_parse (data : list Z) : Panicky PageHeader.t :=
  ptr <- PageHeader_parse_ptr data ;; ptr <- unwrap ptr ;;
  t <- index data 1 ;;
  level <- index data 3 ;;
  s <- slice data 6 8 ;; index_id <- read_u16 s ;;
  s <- slice data 14 16 ;; p_min_len <- read_u16 s ;;
  s <- slice data 22 24 ;; slot_count <- read_u16 s ;;
  s <- slice data 24 28 ;; object_id <- read_u32 s ;;
  s <- slice data 8 14 ;; prev_page_ptr <- PagePointer_parse s ;;
  s <- slice data 16 22 ;; next_page_ptr <- PagePointer_parse s ;;
  Ok {| PageHeader.ptr := ptr; PageHeader.slot_count := slot_count;
        PageHeader.level := level; PageHeader.p_min_len := p_min_len;
        PageHeader.ty := PageType_parse t; PageHeader.object_id := object_id;
        PageHeader.index_id := index_id; PageHeader.prev_page_ptr := prev_page_ptr;
        PageHeader.next_page_ptr := next_page_ptr |}.

(** [RawPage::parse]: the header, then [&data[..8192]]. *)
Definition RawPage_parse (d : list Z) : Panicky RawPage :=
  h <- PageHeader_parse d ;;
  body <- slice d 0 8192 ;;
  Ok {| header := h; data := body |}.

(** [RawPage::record] *)
Definition RawPage_record (p : RawPage) (i : Z) : Panicky (option Record_) :=
  if PageHeader.slot_count (header p) <=? i then Ok None
  else
    let slot_array_position := PAGE_SIZE - 2 * i - 2 in
    s <- slice_from (data p) slot_array_position ;;
    offset <- read_u16 s ;;
    rd <- slice_from (data p) offset ;;
    Record_parse rd (is_index_page (PageHeader.ty (header p)))
      (PageHeader.p_min_len (header p)).

(** [RecordIterator::next] with [local = true], pulled to the end; each
    yielded record is paired with the slot it was read from.  The
    iterator stops at [slot_count] or at the first slot whose record
    does not parse. *)
Fixpoint local_loop (p : RawPage) (fuel : nat) (i : Z)
  : Panicky (list (Z * Record_)) :=
  match fuel with
  | O => Ok []
  | S f =>
      if PageHeader.slot_count (header p) <=? i then Ok []
      else
        r <- RawPage_record p i ;;
        match r with
        | None => Ok []
        | Some r => rest <- local_loop p f (i + 1) ;; Ok ((i, r) :: rest)
        end
  end.

Definition local_records_idx (p : RawPage) : Panicky (list (Z * Record_)) :=
  local_loop p (Z.to_nat (PageHeader.slot_count (header p))) 0.

(** [RawPage::local_records] *)
Definition local_records (p : RawPage) : Panicky (list Record_) :=
  rs <- local_records_idx p ;; Ok (map snd rs).

Section RecordIterator.

Variable get : PagePointer -> option RawPage.

(** The tail of [RecordIterator::next] at page [p], slot [i]:
    [let record = self.current_page.record(self.idx); self.idx += 1; record]. *)
Definition RecordIterator_read (p : RawPage) (i : Z)
  : Panicky (option (Record_ * RawPage * Z)) :=
  r <- RawPage_record p i ;;
  i' <- u16_incr i ;;
  Ok (match r with Some r => Some (r, p, i') | None => None end).

(** [RecordIterator::next]: the yielded record with the iterator's new
    (current_page, idx), or [None] when it yields [None]. *)
Definition RecordIterator_next (local : bool) (p : RawPage) (i : Z)
  : Panicky (option (Record_ * RawPage * Z)) :=
  if PageHeader.slot_count (header p) <=? i then
    match PageHeader.next_page_ptr (header p) with
    | Some ptr =>
        if local then Ok None
        else match get ptr with
             | Some next_page => RecordIterator_read next_page 0
             | None => Ok None
             end
    | None => Ok None
    end
  else RecordIterator_read p i.

(** Pulling the iterator until it yields [None], for at most [fuel]
    calls of [next]; the outer [None] means [fuel] calls did not reach
    the end. *)
Fixpoint RecordIterator_collect (local : bool) (fuel : nat) (p : RawPage) (i : Z)
  : option (Panicky (list Record_)) :=
  match fuel with
  | O => None
  | S f =>
      match RecordIterator_next local p i with
      | Panic => Some Panic
      | Ok None => Some (Ok [])
      | Ok (Some (r, p', i')) =>
          match RecordIterator_collect local f p' i' with
          | None => None
          | Some Panic => Some Panic
          | Some (Ok rs) => Some (Ok (r :: rs))
          end
      end
  end.


End RecordIterator.

(** ** Tables (src/table.rs) *)

Record Table := {
  table_name : string;
  schema : Schema;
  partition_pointer : list PagePointer
}.

(** [a..b] over integers. *)
Definition zrange (a b : Z) : list Z :=
  map (fun k => a + Z.of_nat k) (seq 0 (Z.to_nat (b - a))).

(** [flat_map] of a fallible producer, pulled to the end. *)
Fixpoint concat_mapM {A B} (f : A -> Panicky (list B)) (l : list A)
  : Panicky (list B) :=
  match l with
  | [] => Ok []
  | x :: t => ys <- f x ;; zs <- concat_mapM f t ;; Ok (ys ++ zs)
  end.

Section TableScan.

Variable parse_utf16_string : list Z -> list Z.
Variable from_utf8_ok : list Z -> bool.

(** The [PageProvider] of the table. *)
Variable file_ids : list Z.
Variable num_pages : Z -> Z.
Variable get : PagePointer -> option RawPage.

(** The [filter_map] closure of [Table::scan_db]. *)
Definition select_page (p_min_len : Z) (j i : Z) : option RawPage :=
  match get {| page_id := i; file_id := j |} with
  | Some page =>
      if (PageHeader.p_min_len (header page) =? p_min_len)
         && is_data_page (PageHeader.ty (header page))
      then Some page else None
  | None => None
  end.

(** The records visited by [Table::scan_db], in iteration order. *)
Definition scan_db_records (p_min_len : Z) : Panicky (list Record_) :=
  concat_mapM
    (fun j => concat_mapM
       (fun i => match select_page p_min_len j i with
                 | Some page => local_records page
                 | None => Ok []
                 end)
       (zrange 0 (num_pages j)))
    file_ids.

(** [Table::scan_db], its iterator pulled to the end. *)
Definition scan_db (t : Table) : Panicky (list Row) :=
  first_page <- index (partition_pointer t) 0 ;;
  first_page <- unwrap (get first_page) ;;
  let p_min_len := PageHeader.p_min_len (header first_page) in
  recs <- scan_db_records p_min_len ;;
  mapM (Schema_parse parse_utf16_string from_utf8_ok (schema t)) recs.

(** The same traversal, recording for each record its
    (file_id, page_id, slot). *)
Definition scan_page_sources (p_min_len j i : Z) : Panicky (list (Z * Z * Z * Record_)) :=
  match select_page p_min_len j i with
  | Some page =>
      rs <- local_records_idx page ;;
      Ok (map (fun '(s, r) => (j, i, s, r)) rs)
  | None => Ok []
  end.

Definition scan_db_sources (p_min_len : Z) : Panicky (list (Z * Z * Z * Record_)) :=
  concat_mapM
    (fun j => concat_mapM (scan_page_sources p_min_len j) (zrange 0 (num_pages j)))
    file_ids.

(** [Table::scan_db_from], its iterator pulled to the end. *)
Definition scan_db_from (t : Table) (start : PagePointer) : Panicky (list Row) :=
  first_page <- index (partition_pointer t) 0 ;;
  first_page <- unwrap (get first_page) ;;
  let p_min_len := PageHeader.p_min_len (header first_page) in
  let j := file_id start in
  recs <- concat_mapM
            (fun i => match select_page p_min_len j i with
                      | Some page => local_records page
                      | None => Ok []
                      end)
            (zrange (page_id start) (num_pages j)) ;;
  mapM (Schema_parse parse_utf16_string from_utf8_ok (schema t)) recs.

(** The traversal of [scan_db_from], recording (file_id, page_id, slot). *)
Definition scan_db_from_sources (p_min_len : Z) (start : PagePointer)
  : Panicky (list (Z * Z * Z * Record_)) :=
  concat_mapM (scan_page_sources p_min_len (file_id start))
    (zrange (page_id start) (num_pages (file_id start))).

End TableScan.

Definition pmap {A B} (h : A -> B) (m : Panicky A) : Panicky B := x <- m ;; Ok (h x).

Definition src_record (x : Z * Z * Z * Record_) : Record_ :=
  let '(_, _, _, r) := x in r.

(** Lexicographic order on (file_id, page_id, slot). *)
Definition src_lt (a b : Z * Z * Z * Record_) : Prop :=
  let '(j, i, s, _) := a in
  let '(j', i', s', _) := b in
  j < j' \/ (j = j' /\ (i < i' \/ (i = i' /\ s < s'))).

(** ** LOB trees (src/lob.rs) *)

Module LobType.
Inductive t := SmallRoot | LargeRootYukon | Data | Internal | Null.
Definition eqb (a b : t) : bool :=
  match a, b with
  | SmallRoot, SmallRoot | LargeRootYukon, LargeRootYukon | Data, Data
  | Internal, Internal | Null, Null => true
  | _, _ => false
  end.
End LobType.

(** [LobType::parse]; an unknown code is logged and gives [None]. *)
Definition LobType_parse (r : Record_) : Panicky (option LobType.t) :=
  s <- slice (fixed_data r) 8 10 ;;
  t <- read_u16 s ;;
  Ok (match t with
      | 0 => Some LobType.SmallRoot
      | 2 => Some LobType.Internal
      | 3 => Some LobType.Data
      | 5 => Some LobType.LargeRootYukon
      | 8 => Some LobType.Null
      | _ => None
      end).

Module LobSmallRoot.
Record t := { blob_id : Z; ty : LobType.t; length : Z; data : list Z }.
End LobSmallRoot.

Module LobLargeRootYukon.
Record t := { blob_id : Z; ty : LobType.t; max_links : Z; cur_links : Z;
              level : Z; record : Record_ }.
End LobLargeRootYukon.

Module LobData.
Record t := { blob_id : Z; ty : LobType.t; data : list Z }.
End LobData.

Module LobInternal.
Record t := { blob_id : Z; ty : LobType.t; max_links : Z; cur_links : Z;
              level : Z; record : Record_ }.
End LobInternal.

Module LobEntry.
Inductive t :=
| SmallRoot (x : LobSmallRoot.t)
| LargeRootYukon (x : LobLargeRootYukon.t)
| Data (x : LobData.t)
| Internal (x : LobInternal.t).
End LobEntry.

(** [let ty = LobType::parse(&record)?; assert_eq!(ty, expected);] *)
Definition lob_type_checked (r : Record_) (expected : LobType.t)
  : Panicky (option LobType.t) :=
  t <- LobType_parse r ;;
  match t with
  | None => Ok None
  | Some t => _ <- rust_assert (LobType.eqb t expected) ;; Ok (Some t)
  end.

Definition read_u16_at (bs : list Z) (a : Z) : Panicky Z :=
  s <- slice bs a (a + 2) ;; read_u16 s.

(** [LobSmallRoot::parse] *)
Definition LobSmallRoot_parse (r : Record_) : Panicky (option LobSmallRoot.t) :=
  s <- slice (fixed_data r) 0 8 ;; blob_id <- read_u64 s ;;
  t <- lob_type_checked r LobType.SmallRoot ;;
  match t with
  | None => Ok None
  | Some t =>
      length <- read_u16_at (fixed_data r) 10 ;;
      d <- slice (fixed_data r) 16 (16 + length) ;;
      Ok (Some {| LobSmallRoot.blob_id := blob_id; LobSmallRoot.ty := t;
                  LobSmallRoot.length := length; LobSmallRoot.data := d |})
  end.

(** [LobLargeRootYukon::parse] *)
Definition LobLargeRootYukon_parse (r : Record_) : Panicky (option LobLargeRootYukon.t) :=
  s <- slice (fixed_data r) 0 8 ;; blob_id <- read_u64 s ;;
  t <- lob_type_checked r LobType.LargeRootYukon ;;
  match t with
  | None => Ok None
  | Some t =>
      max_links <- read_u16_at (fixed_data r) 10 ;;
      cur_links <- read_u16_at (fixed_data r) 12 ;;
      level <- read_u16_at (fixed_data r) 14 ;;
      Ok (Some {| LobLargeRootYukon.blob_id := blob_id; LobLargeRootYukon.ty := t;
                  LobLargeRootYukon.max_links := max_links;
                  LobLargeRootYukon.cur_links := cur_links;
                  LobLargeRootYukon.level := level; LobLargeRootYukon.record := r |})
  end.

(** [LobData::parse] *)
Definition LobData_parse (r : Record_) : Panicky (option LobData.t) :=
  s <- slice (fixed_data r) 0 8 ;; blob_id <- read_u64 s ;;
  t <- lob_type_checked r LobType.Data ;;
  match t with
  | None => Ok None
  | Some t =>
      d <- slice_from (fixed_data r) 10 ;;
      Ok (Some {| LobData.blob_id := blob_id; LobData.ty := t; LobData.data := d |})
  end.

(** [LobInternal::parse] *)
Definition LobInternal_parse (r : Record_) : Panicky (option LobInternal.t) :=
  s <- slice (fixed_data r) 0 8 ;; blob_id <- read_u64 s ;;
  t <- lob_type_checked r LobType.Internal ;;
  match t with
  | None => Ok None
  | Some t =>
      max_links <- read_u16_at (fixed_data r) 10 ;;
      cur_links <- read_u16_at (fixed_data r) 12 ;;
      level <- read_u16_at (fixed_data r) 14 ;;
      Ok (Some {| LobInternal.blob_id := blob_id; LobInternal.ty := t;
                  LobInternal.max_links := max_links;
                  LobInternal.cur_links := cur_links;
                  LobInternal.level := level; LobInternal.record := r |})
  end.

Definition omap {A B} (f : A -> B) (m : Panicky (option A)) : Panicky (option B) :=
  x <- m ;; Ok (option_map f x).

(** [LobEntry::parse] *)
Definition LobEntry_parse (r : Record_) : Panicky (option LobEntry.t) :=
  t <- LobType_parse r ;;
  match t with
  | None => Ok None
  | Some LobType.SmallRoot => omap LobEntry.SmallRoot (LobSmallRoot_parse r)
  | Some LobType.LargeRootYukon => omap LobEntry.LargeRootYukon (LobLargeRootYukon_parse r)
  | Some LobType.Data => omap LobEntry.Data (LobData_parse r)
  | Some LobType.Internal => omap LobEntry.Internal (LobInternal_parse r)
  | Some LobType.Null => Ok None
  end.

Record SizedRecordPointer := { srp_size : Z; srp_ptr : RecordPointer }.
Record RecordPointerWithOffset := { rpo_offset : Z; rpo_ptr : RecordPointer }.

(** [SizedRecordPointer::parse] *)
Definition SizedRecordPointer_parse (d : list Z) : Panicky SizedRecordPointer :=
  s <- slice d 0 4 ;; size <- read_u32 s ;;
  s <- slice_from d 4 ;; p <- RecordPointer_parse s ;; p <- unwrap p ;;
  Ok {| srp_size := size; srp_ptr := p |}.

(** [RecordPointerWithOffset::parse] *)
Definition RecordPointerWithOffset_parse (d : list Z) : Panicky RecordPointerWithOffset :=
  s <- slice d 0 8 ;; offset <- read_u64 s ;;
  s <- slice_from d 8 ;; p <- RecordPointer_parse s ;; p <- unwrap p ;;
  Ok {| rpo_offset := offset; rpo_ptr := p |}.

(** [LobLargeRootYukon::read_idx] *)
Definition LobLargeRootYukon_read_idx (n : LobLargeRootYukon.t) (i : Z)
  : Panicky (option RecordPointer) :=
  if LobLargeRootYukon.cur_links n <=? i then Ok None
  else
    s <- slice (fixed_data (LobLargeRootYukon.record n)) (20 + 12 * i) (20 + 12 * (i + 1)) ;;
    p <- SizedRecordPointer_parse s ;;
    Ok (Some (srp_ptr p)).

(** [LobInternal::read_idx] *)
Definition LobInternal_read_idx (n : LobInternal.t) (i : Z)
  : Panicky (option RecordPointer) :=
  if LobInternal.cur_links n <=? i then Ok None
  else
    s <- slice (fixed_data (LobInternal.record n)) (16 * (i + 1)) (16 * (i + 2)) ;;
    p <- RecordPointerWithOffset_parse s ;;
    Ok (Some (rpo_ptr p)).

Definition LobDataBlocks := list (Z * list Z).

(** The bytes [LobDataBlocks::write_to_file] writes into the created file
    when no I/O error occurs: one [write_all] per block, in order (the
    [last_offs] comparison only selects a log message). *)
Definition LobDataBlocks_write_contents (b : LobDataBlocks) : list Z :=
  fold_left (fun acc '(_, d) => acc ++ d) b [].

(** The loop [for (_, data) in &self.data_blocks { len += data.len() }]
    of [LobDataBlocks::length], over a [usize] (overflow panics). *)
Fixpoint lob_length_acc (len : Z) (b : LobDataBlocks) : Panicky Z :=
  match b with
  | [] => Ok len
  | (_, d) :: t =>
      let len' := len + Z.of_nat (length d) in
      if 2 ^ 64 <=? len' then Panic else lob_length_acc len' t
  end.

(** [LobDataBlocks::length]: [len as u32] keeps the low 32 bits. *)
Definition LobDataBlocks_length (b : LobDataBlocks) : Panicky Z :=
  len <- lob_length_acc 0 b ;; Ok (len mod 2 ^ 32).

Section LobRead.

(** [PageProvider::get_record] of the page provider. *)
Variable get_record : RecordPointer -> Panicky (option Record_).

(** [Some(LobEntry::parse(page_provider.get_record(ptr)?)?)]: both [?]
    return [None] from the enclosing [read]. *)
Definition resolve_child (p : RecordPointer) : Panicky (option LobEntry.t) :=
  r <- get_record p ;;
  match r with
  | None => Ok None
  | Some r => LobEntry_parse r
  end.

(** [LobLargeRootYukon::read] *)
Definition LobLargeRootYukon_read (n : LobLargeRootYukon.t) (i : Z)
  : Panicky (option (Z * option LobEntry.t)) :=
  if LobLargeRootYukon.cur_links n <=? i then Ok None
  else
    s <- slice (fixed_data (LobLargeRootYukon.record n)) (20 + 12 * i) (20 + 12 * (i + 1)) ;;
    p <- SizedRecordPointer_parse s ;;
    e <- resolve_child (srp_ptr p) ;;
    match e with
    | None => Ok None
    | Some e => Ok (Some (srp_size p, Some e))
    end.

(** [LobInternal::read] *)
Definition LobInternal_read (n : LobInternal.t) (i : Z)
  : Panicky (option (Z * option LobEntry.t)) :=
  if LobInternal.cur_links n <=? i then Ok None
  else
    s <- slice (fixed_data (LobInternal.record n)) (16 * (i + 1)) (16 * (i + 2)) ;;
    p <- RecordPointerWithOffset_parse s ;;
    e <- resolve_child (rpo_ptr p) ;;
    match e with
    | None => Ok None
    | Some e => Ok (Some (rpo_offset p, Some e))
    end.

(** [LobEntrySubEntryIterator::next] before its [self.idx += 1]. *)
Definition entry_read (e : LobEntry.t) (i : Z) : Panicky (option (Z * option LobEntry.t)) :=
  match e with
  | LobEntry.LargeRootYukon root => LobLargeRootYukon_read root i
  | LobEntry.Internal internal => LobInternal_read internal i
  | _ => Panic
  end.

Definition entry_cur_links (e : LobEntry.t) : Z :=
  match e with
  | LobEntry.LargeRootYukon root => LobLargeRootYukon.cur_links root
  | LobEntry.Internal internal => LobInternal.cur_links internal
  | _ => 0
  end.

(** The inner [for (offs, entry) in entry.sub_entries(page_provider)] loop
    of [LobPointer::read], threading [data_blocks] and [new_entries].
    The outer [None] is the [return None] of [let entry = entry?;].
    The iterator yields [None] once [idx >= cur_links], so
    [cur_links + 1] rounds always reach the end of the loop. *)
Fixpoint walk_children (e : LobEntry.t) (fuel : nat) (i : Z)
  (blocks : LobDataBlocks) (new_entries : list LobEntry.t)
  : Panicky (option (LobDataBlocks * list LobEntry.t)) :=
  match fuel with
  | O => Ok (Some (blocks, new_entries))
  | S f =>
      item <- entry_read e i ;;
      i' <- u16_incr i ;;
      match item with
      | None => Ok (Some (blocks, new_entries))
      | Some (offs, child) =>
          match child with
          | None => Ok None
          | Some (LobEntry.SmallRoot x) =>
              walk_children e f i' (blocks ++ [(offs, LobSmallRoot.data x)]) new_entries
          | Some (LobEntry.Data x) =>
              walk_children e f i' (blocks ++ [(offs, LobData.data x)]) new_entries
          | Some c => walk_children e f i' blocks (new_entries ++ [c])
          end
      end
  end.

(** One round of the [while] loop: [for entry in entries]. *)
Fixpoint walk_entries (entries : list LobEntry.t) (blocks : LobDataBlocks)
  (new_entries : list LobEntry.t)
  : Panicky (option (LobDataBlocks * list LobEntry.t)) :=
  match entries with
  | [] => Ok (Some (blocks, new_entries))
  | e :: rest =>
      match e with
      | LobEntry.SmallRoot x =>
          let d := LobSmallRoot.data x in
          walk_entries rest (blocks ++ [(Z.of_nat (List.length d), d)]) new_entries
      | LobEntry.Data x =>
          let d := LobData.data x in
          walk_entries rest (blocks ++ [(Z.of_nat (List.length d), d)]) new_entries
      | _ =>
          r <- walk_children e (S (Z.to_nat (entry_cur_links e))) 0 blocks new_entries ;;
          match r with
          | None => Ok None
          | Some (b, n) => walk_entries rest b n
          end
      end
  end.

(** [while !entries.is_empty() { ... }], for at most [fuel] rounds; the
    outer [None] means the loop has not finished within [fuel] rounds. *)
Fixpoint lob_loop (fuel : nat) (entries : list LobEntry.t) (blocks : LobDataBlocks)
  : option (Panicky (option LobDataBlocks)) :=
  match entries with
  | [] => Some (Ok (Some blocks))
  | _ =>
      match fuel with
      | O => None
      | S f =>
          match walk_entries entries blocks [] with
          | Panic => Some Panic
          | Ok None => Some (Ok None)
          | Ok (Some (b, n)) => lob_loop f n b
          end
      end
  end.

(** [LobPointer::read] *)
Definition LobPointer_read (fuel : nat) (lp : LobPointer)
  : option (Panicky (option LobDataBlocks)) :=
  match get_record (ptr lp) with
  | Panic => Some Panic
  | Ok None => Some (Ok None)
  | Ok (Some r) =>
      match LobEntry_parse r with
      | Panic => Some Panic
      | Ok None => Some (Ok None)
      | Ok (Some e) => lob_loop fuel [e] []
      end
  end.

End LobRead.

(** ** Concrete inputs used by the examples below *)

(** A UTF-16LE decoder without surrogate handling, and an ASCII-only
    UTF-8 test: concrete stand-ins for the two library decoders. *)
Fixpoint utf16_units (bs : list Z) : list Z :=
  match bs with
  | lo :: hi :: rest => (lo + 256 * hi) :: utf16_units rest
  | [lo] => [65533]
  | [] => []
  end.

Definition ascii_ok (bs : list Z) : bool := forallb (fun b => b <? 128) bs.

(** The bytes of a record of type [Blob] with the given fixed data,
    no null bitmap, no variable-length block and zero columns. *)
Definition blob_record_bytes (fd : list Z) : list Z :=
  let l := 4 + Z.of_nat (length fd) in
  [8; 0; l mod 256; l / 256] ++ fd ++ [0; 0].

(** A [LargeRootYukon] node with two children: the first one a [Data]
    leaf on page (1, 2), the second one on page (1, 3). *)
Definition ex_root_fd : list Z :=
  [0;0;0;0;0;0;0;0; 5;0; 2;0; 2;0; 0;0; 0;0;0;0;
   3;0;0;0; 2;0;0;0; 1;0; 0;0;
   5;0;0;0; 3;0;0;0; 1;0; 0;0].

Definition ex_data_fd : list Z := [0;0;0;0;0;0;0;0; 3;0; 7;8;9].

(** A page provider in which page (1, 3) is missing. *)
Definition ex_get_record (rp : RecordPointer) : Panicky (option Record_) :=
  let pid := page_id (page_ptr rp) in
  if pid =? 1 then Record_parse (blob_record_bytes ex_root_fd) false 0
  else if pid =? 2 then Record_parse (blob_record_bytes ex_data_fd) false 0
  else Ok None.

Definition ex_lob_pointer : LobPointer :=
  {| timestamp := 0;
     ptr := {| page_ptr := {| page_id := 1; file_id := 1 |}; slot_id := 0 |} |}.

Definition ex_missing_child : RecordPointer :=
  {| page_ptr := {| page_id := 3; file_id := 1 |}; slot_id := 0 |}.

(** A primary record with nine columns, no null bitmap and the two bytes
    [0b10101010; 0b00000001] of fixed data. *)
Definition ex_bits_record_bytes : list Z := [0; 0; 6; 0; 170; 1; 9; 0].

(** The record [Record::parse] decodes from [ex_bits_record_bytes]. *)
Definition ex_bits_record : Record_ :=
  {| ty := Primary; tag_a := 0; tag_b := 0; column_count := 9;
     fixed_data := [170; 1]; null_bitmap := None; var_length_columns := None |}.

Definition bit_column (n : Z) : ColumnType :=
  {| idx := n; data_type := SqlType.Bit; name := "b"%string; nullable := false;
     computed := false |}.

Definition ex_bits_schema : Schema :=
  {| columns := map bit_column [1; 2; 3; 4; 5; 6; 7; 8; 9] |}.

(** A [sys.syscolpars] row of type [int] with the given status, and the
    column [Schema::from_col_par] builds from it. *)
Definition ex_col_par (st : Z) : SysColPar.t :=
  {| SysColPar.id := 7; SysColPar.number := 0; SysColPar.col_id := 1;
     SysColPar.name := Some "c"%string; SysColPar.xtype := 56; SysColPar.utype := 56;
     SysColPar.length := 4; SysColPar.prec := 10; SysColPar.scale := 0;
     SysColPar.collation_id := 0; SysColPar.status := st; SysColPar.max_in_row := 4;
     SysColPar.xml_ns := 0; SysColPar.dflt := 0; SysColPar.chk := 0;
     SysColPar.idt_val := None |}.

Definition ex_int_type : SysScalarType.t :=
  {| SysScalarType.id := 56; SysScalarType.sch_id := 4; SysScalarType.name := "int"%string;
     SysScalarType.xtype := 56; SysScalarType.length := 4; SysScalarType.prec := 10;
     SysScalarType.scale := 0; SysScalarType.collation_id := 0; SysScalarType.status := 0;
     SysScalarType.created := 0; SysScalarType.modified := 0; SysScalarType.dflt := 0;
     SysScalarType.chk := 0 |}.

Definition ex_int_column : ColumnType :=
  {| idx := 1; data_type := SqlType.Int; name := "c"%string; nullable := false;
     computed := false |}.

(** A 16-byte complex [NText] slice: timestamp 1, record (1, 42, 0). *)
Definition ex_lob_bytes : list Z := [1;0;0;0; 0;0;0;0; 42;0;0;0; 1;0; 0;0].

Definition ex_lob_value : SqlValue.t :=
  SqlValue.Image (Some {| timestamp := 1;
    ptr := {| page_ptr := {| page_id := 42; file_id := 1 |}; slot_id := 0 |} |}).

(** The record [Record::parse] decodes from [[16; 0; 4; 0; 1; 0; 0]]: one
    column, a one-byte null bitmap, no fixed data. *)
Definition ex_null_record : Record_ :=
  {| ty := Primary; tag_a := 1; tag_b := 0; column_count := 1; fixed_data := [];
     null_bitmap := Some (bits_lsb0 [0]); var_length_columns := None |}.

(** A [LargeRootYukon] node whose fixed data stops right after the
    20-byte header although [cur_links = 1]. *)
Definition ex_short_root_fd : list Z :=
  [0;0;0;0;0;0;0;0; 5;0; 1;0; 1;0; 0;0; 0;0;0;0].

Definition ex_short_root : LobLargeRootYukon.t :=
  {| LobLargeRootYukon.blob_id := 0; LobLargeRootYukon.ty := LobType.LargeRootYukon;
     LobLargeRootYukon.max_links := 1; LobLargeRootYukon.cur_links := 1;
     LobLargeRootYukon.level := 0;
     LobLargeRootYukon.record :=
       {| ty := Blob; tag_a := 0; tag_b := 0; column_count := 0;
          fixed_data := ex_short_root_fd; null_bitmap := None;
          var_length_columns := None |} |}.

(** The root node decoded from [ex_root_fd]. *)
Definition ex_root : LobLargeRootYukon.t :=
  {| LobLargeRootYukon.blob_id := 0; LobLargeRootYukon.ty := LobType.LargeRootYukon;
     LobLargeRootYukon.max_links := 2; LobLargeRootYukon.cur_links := 2;
     LobLargeRootYukon.level := 0;
     LobLargeRootYukon.record :=
       {| ty := Blob; tag_a := 0; tag_b := 0; column_count := 0;
          fixed_data := ex_root_fd; null_bitmap := None;
          var_length_columns := None |} |}.

(** Offsets of records laid out one after the other from [pos]. *)
Fixpoint rec_offsets (pos : Z) (recs : list (list Z)) : list Z :=
  match recs with
  | [] => []
  | r :: t => pos :: rec_offsets (pos + Z.of_nat (length r)) t
  end.

(** An 8 KiB page of the given type and [p_min_len] holding the given
    records after a 96-byte header, with its slot array at the end of
    the page (slot 0 in the last two bytes). *)
Definition mk_page (pid fid pml : Z) (t : PageType) (recs : list (list Z)) : RawPage :=
  let body := repeat 0 96 ++ concat recs in
  let slots := concat (rev (map (fun o => [o mod 256; o / 256]) (rec_offsets 96 recs))) in
  {| header := {| PageHeader.ptr := {| page_id := pid; file_id := fid |};
                  PageHeader.slot_count := Z.of_nat (length recs);
                  PageHeader.level := 0; PageHeader.p_min_len := pml; PageHeader.ty := t;
                  PageHeader.object_id := 0; PageHeader.index_id := 0;
                  PageHeader.prev_page_ptr := None; PageHeader.next_page_ptr := None |};
     data := body ++ repeat 0 (Z.to_nat PAGE_SIZE - length body - length slots) ++ slots |}.

Definition ex_bits_record_bytes' : list Z := [0; 0; 6; 0; 85; 0; 9; 0].

(** A database of two files: file 1 has a [Data] page with two records
    and [p_min_len] 6, a [Data] page with another [p_min_len] and an
    [IAM] page; file 2 has one matching [Data] page. *)
Definition ex_file_ids : list Z := [1; 2].

Definition ex_num_pages (j : Z) : Z := if j =? 1 then 3 else if j =? 2 then 1 else 0.

Definition ex_get (pp : PagePointer) : option RawPage :=
  let j := file_id pp in
  let i := page_id pp in
  if j =? 1 then
    if i =? 0 then Some (mk_page 0 1 6 Data [ex_bits_record_bytes; ex_bits_record_bytes'])
    else if i =? 1 then Some (mk_page 1 1 10 Data [ex_bits_record_bytes])
    else if i =? 2 then Some (mk_page 2 1 6 IAM [ex_bits_record_bytes])
    else None
  else if j =? 2 then
    if i =? 0 then Some (mk_page 0 2 6 Data [ex_bits_record_bytes']) else None
  else None.

Definition ex_table : Table :=
  {| table_name := "t"%string; schema := ex_bits_schema;
     partition_pointer := [{| page_id := 0; file_id := 1 |}] |}.

Definition bit_row (bs : list bool) : Row :=
  {| values := map (fun b => Some (SqlValue.Bit b)) bs |}.

(** The rows [scan_db] yields on [ex_table]. *)
Definition ex_scan_rows : list Row :=
  [bit_row [false; true; false; true; false; true; false; true; true];
   bit_row [true; false; true; false; true; false; true; false; false];
   bit_row [true; false; true; false; true; false; true; false; false]].

(** The page [p] with its [next_page_ptr] set to [n]. *)
Definition with_next (p : RawPage) (n : option PagePointer) : RawPage :=
  let h := header p in
  {| header := {| PageHeader.ptr := PageHeader.ptr h;
                  PageHeader.slot_count := PageHeader.slot_count h;
                  PageHeader.level := PageHeader.level h;
                  PageHeader.p_min_len := PageHeader.p_min_len h;
                  PageHeader.ty := PageHeader.ty h;
                  PageHeader.object_id := PageHeader.object_id h;
                  PageHeader.index_id := PageHeader.index_id h;
                  PageHeader.prev_page_ptr := PageHeader.prev_page_ptr h;
                  PageHeader.next_page_ptr := n |};
     data := data p |}.

(** A page chain of file 1: page 0 (one record) links to page 1, which
    holds no record and links to page 2 (one record). *)
Definition ex_chain_get (pp : PagePointer) : option RawPage :=
  if file_id pp =? 1 then
    if page_id pp =? 0 then
      Some (with_next (mk_page 0 1 6 Data [ex_bits_record_bytes]) (Some {| page_id := 1; file_id := 1 |}))
    else if page_id pp =? 1 then
      Some (with_next (mk_page 1 1 6 Data []) (Some {| page_id := 2; file_id := 1 |}))
    else if page_id pp =? 2 then Some (mk_page 2 1 6 Data [ex_bits_record_bytes'])
    else None
  else None.


(** A LOB [Data] record holding the bytes [7; 8; 9]. *)
Definition ex_data_record : Record_ :=
  {| ty := Blob; tag_a := 0; tag_b := 0; column_count := 0;
     fixed_data := ex_data_fd; null_bitmap := None; var_length_columns := None |}.

(** A LOB [SmallRoot] record of blob 1 holding the bytes [7; 8] (and one
    byte of slack). *)
Definition ex_small_root_record : Record_ :=
  {| ty := Blob; tag_a := 0; tag_b := 0; column_count := 0;
     fixed_data := [1;0;0;0;0;0;0;0; 0;0; 2;0; 0;0;0;0; 7;8;9];
     null_bitmap := None; var_length_columns := None |}.

(** An 8 KiB data page buffer whose own pointer is page 7 of file 1. *)
Definition ex_page_bytes : list Z :=
  [0; 1; 0; 0; 0; 0; 0; 0] ++ repeat 0 24 ++ [7; 0; 0; 0; 1; 0] ++ repeat 0 (Z.to_nat 8154).

(** A record with a null bitmap and one variable-length column: type
    Primary, tag_a = 3, fixed data [170; 1], 9 columns, a 2-byte bitmap,
    one variable-length column ending at offset 16 with bytes [65; 66]. *)
Definition ex_full_record_bytes : list Z :=
  [48; 0; 6; 0; 170; 1; 9; 0; 0; 0; 1; 0; 16; 0; 65; 66].

Definition ex_full_record : Record_ :=
  {| ty := Primary; tag_a := 3; tag_b := 0; column_count := 9;
     fixed_data := [170; 1]; null_bitmap := Some (repeat false 16);
     var_length_columns := Some {| vl_data := [16; 0; 65; 66]; count := 1; base_offset := 12 |} |}.

(** An index record: type Index, fixed data [1; 2; 3] read with
    [p_min_len = 4], column count 513. *)
Definition ex_index_record_bytes : list Z := [6; 0; 0; 0; 1; 2; 3; 4; 5].
Definition ex_index_record : Record_ :=
  {| ty := IndexRec; tag_a := 0; tag_b := 0; column_count := 513;
     fixed_data := [1; 2; 3]; null_bitmap := None; var_length_columns := None |}.

(** The little-endian value of the [n] bytes of [bs] at offset [a]. *)
Definition le_at (bs : list Z) (a n : nat) : Z := le_value (firstn n (skipn a bs)).

(** Little-endian encoding of [x] on [n] bytes. *)
Fixpoint le_bytes (n : nat) (x : Z) : list Z :=
  match n with
  | O => []
  | S n' => x mod 256 :: le_bytes n' (x / 256)
  end.

(** The 6-byte on-disk form of a [PagePointer]: page_id (u32), file_id (u16). *)
Definition page_pointer_bytes (pp : PagePointer) : list Z :=
  le_bytes 4 (page_id pp) ++ le_bytes 2 (file_id pp).

(** The 8-byte on-disk form of a [RecordPointer]. *)
Definition record_pointer_bytes (rp : RecordPointer) : list Z :=
  page_pointer_bytes (page_ptr rp) ++ le_bytes 2 (slot_id rp).

Definition u16_range (x : Z) : Prop := 0 <= x < 2 ^ 16.
Definition u32_range (x : Z) : Prop := 0 <= x < 2 ^ 32.

(** The fixed width of a fixed-length type in [SqlType::parse], as the
    number of bytes it reads from the cursor (0 for the bit-packed [Bit]
    and for the variable-length types). *)
Definition fixed_width (t : SqlType.t) : Z :=
  match t with
  | SqlType.TinyInt => 1
  | SqlType.SmallInt => 2
  | SqlType.Int => 4
  | SqlType.BigInt => 8
  | SqlType.Float => 8
  | SqlType.UniqueIdentifier => 16
  | SqlType.DateTime => 8
  | SqlType.SmallDateTime => 4
  | SqlType.Binary n | SqlType.Char n | SqlType.NChar n => n
  | _ => 0
  end.

(** A cursor positioned right after [pre]. *)
Definition cursor_at (pre rest : list Z) : Cursor :=
  {| cur_buf := pre ++ rest; cur_pos := Z.of_nat (length pre) |}.

(** The end-offset array of the variable-length columns [cols] whose
    bytes start at the absolute record offset [pos]: one little-endian
    u16 per column, its absolute end offset, with bit 15 set for a
    complex column. *)
Fixpoint vl_offsets (pos : Z) (cols : list (bool * list Z)) : list Z :=
  match cols with
  | [] => []
  | (cx, d) :: t =>
      let e := pos + Z.of_nat (length d) in
      le_bytes 2 (e + (if cx then 32768 else 0)) ++ vl_offsets e t
  end.

(** The [VarLengthColumns] of a record holding [cols], its offset array
    starting at the absolute record offset [base]: the offset array,
    then the bytes of the columns one after the other. *)
Definition vl_encode (base : Z) (cols : list (bool * list Z)) : VarLengthColumns :=
  let n := Z.of_nat (length cols) in
  {| vl_data := vl_offsets (base + 2 * n) cols ++ concat (map snd cols);
     count := n; base_offset := base |}.

(** The number of bytes of the first [k] columns. *)
Definition cum_len (k : nat) (cols : list (bool * list Z)) : Z :=
  Z.of_nat (length (concat (map snd (firstn k cols)))).


(** Two variable-length columns behind an offset array at offset 12: a
    plain one [65; 66] and a complex one [1; 2; 3]. *)
Definition ex_vl_cols : list (bool * list Z) := [(false, [65; 66]); (true, [1; 2; 3])].

(** A [sys.syscolpars] row of type [int] with column id [cid] and no
    status flag. *)
Definition ex_col_par_id (cid : Z) : SysColPar.t :=
  {| SysColPar.id := 7; SysColPar.number := 0; SysColPar.col_id := cid;
     SysColPar.name := Some "c"%string; SysColPar.xtype := 56; SysColPar.utype := 56;
     SysColPar.length := 4; SysColPar.prec := 10; SysColPar.scale := 0;
     SysColPar.collation_id := 0; SysColPar.status := 0; SysColPar.max_in_row := 4;
     SysColPar.xml_ns := 0; SysColPar.dflt := 0; SysColPar.chk := 0;
     SysColPar.idt_val := None |}.

Definition int_column (cid : Z) : ColumnType :=
  {| idx := cid; data_type := SqlType.Int; name := "c"%string; nullable := true;
     computed := false |}.

(** Two bit columns around a computed one. *)
Definition ex_computed_schema : Schema :=
  {| columns := [bit_column 1;
                 {| idx := 2; data_type := SqlType.Int; name := "v"%string;
                    nullable := true; computed := true |};
                 bit_column 3] |}.

(** A record without columns. *)
Definition ex_empty_record : Record_ :=
  {| ty := Primary; tag_a := 0; tag_b := 0; column_count := 0; fixed_data := [];
     null_bitmap := None; var_length_columns := None |}.

Definition ex_data3_fd : list Z := [0;0;0;0;0;0;0;0; 3;0; 10;11].

(** The page provider of [ex_get_record] with page (1, 3) present: a
    [Data] leaf holding [10; 11]. *)
Definition ex_get_record_full (rp : RecordPointer) : Panicky (option Record_) :=
  let pid := page_id (page_ptr rp) in
  if pid =? 3 then Record_parse (blob_record_bytes ex_data3_fd) false 0
  else ex_get_record rp.

(** The two children of [ex_root] under [ex_get_record_full]. *)
Definition ex_root_children : list (Z * LobData.t) :=
  [(3, {| LobData.blob_id := 0; LobData.ty := LobType.Data; LobData.data := [7; 8; 9] |});
   (5, {| LobData.blob_id := 0; LobData.ty := LobType.Data; LobData.data := [10; 11] |})].

(** ** Proof tools *)

Ltac inv_ok :=
  repeat match goal with
  | H : pbind ?m _ = _ |- _ => destruct m eqn:?; cbn [pbind] in H; try discriminate
  | H : Ok _ = Ok _ |- _ => injection H; clear H; intros; subst
  end.

Lemma vec_set_length {A} (l : list A) i v l' :
  vec_set l i v = Ok l' -> length l' = length l.
Proof.
  revert i l'; induction l as [|x t IH]; intros [|i] l' H; cbn in H; try discriminate.
  - injection H as <-; reflexivity.
  - inv_ok. cbn. f_equal. eapply IH; eauto.
Qed.

Lemma parse_column_length u f r c i st vs st' vs' :
  parse_column u f r c i st vs = Ok (st', vs') -> length vs' = length vs.
Proof.
  unfold parse_column; intros H.
  destruct (column_count r <=? null_bit_idx st); [congruence|].
  inv_ok. destruct a; [congruence|].
  destruct (is_var_length (data_type c)).
  - destruct (var_length_columns r); inv_ok.
    + destruct a; inv_ok. eapply vec_set_length; eauto.
    + eapply vec_set_length; eauto.
  - inv_ok. destruct a as [[v bp] cur]. inv_ok. eapply vec_set_length; eauto.
Qed.

Lemma parse_columns_length u f r cols i st vs vs' :
  parse_columns u f r cols i st vs = Ok vs' -> length vs' = length vs.
Proof.
  revert i st vs; induction cols as [|c rest IH]; intros i st vs H; cbn in H.
  - congruence.
  - destruct (computed c); [eapply IH; eauto|].
    inv_ok. destruct a as [st1 vs1].
    rewrite (IH _ _ _ H). eapply parse_column_length; eauto.
Qed.

Lemma land_1_testbit (z : Z) : (Z.land z 1 =? 1) = Z.testbit z 0.
Proof.
  rewrite Z.bit0_odd.
  change (Z.land z 1) with (Z.land z (Z.ones 1)). rewrite Z.land_ones by lia.
  change (2 ^ 1) with 2. rewrite Zmod_odd. destruct (Z.odd z); reflexivity.
Qed.

Ltac inv_all :=
  repeat match goal with
  | H : pbind ?m _ = _ |- _ => destruct m eqn:?; cbn [pbind] in H; try discriminate
  | H : Ok _ = Ok _ |- _ => injection H; clear H; intros; subst
  | H : Panic = Ok _ |- _ => discriminate H
  | H : None = Some _ |- _ => discriminate H
  | H : Some _ = None |- _ => discriminate H
  | H : Some _ = Some _ |- _ => injection H; clear H; intros; subst
  | H : (if ?b then _ else _) = _ |- _ => destruct b eqn:?; try discriminate
  | H : context [match ?x with _ => _ end] |- _ => destruct x eqn:?; try discriminate
  end.

Lemma slice_length bs a b s :
  slice bs a b = Ok s -> Z.of_nat (length s) = b - a.
Proof.
  unfold slice; intros H.
  destruct (0 <=? a) eqn:E1, (a <=? b) eqn:E2, (b <=? Z.of_nat (length bs)) eqn:E3;
    cbn in H; try discriminate.
  injection H as <-. apply Z.leb_le in E1, E2, E3.
  rewrite length_firstn, length_skipn. lia.
Qed.

Lemma index_spec {A} (l : list A) i d :
  0 <= i ->
  index l i = if i <? Z.of_nat (length l) then Ok (nth (Z.to_nat i) l d) else Panic.
Proof.
  intros Hi. unfold index. rewrite (proj2 (Z.leb_le 0 i) Hi).
  destruct (i <? Z.of_nat (length l)) eqn:E.
  - apply Z.ltb_lt in E. rewrite (nth_error_nth' l d) by lia. reflexivity.
  - apply Z.ltb_ge in E. rewrite (proj2 (nth_error_None l _)) by lia. reflexivity.
Qed.

Lemma bits_lsb0_length bs : length (bits_lsb0 bs) = (8 * length bs)%nat.
Proof.
  induction bs as [|b t IH]; cbn [bits_lsb0 flat_map]; [reflexivity|].
  fold (bits_lsb0 t). rewrite length_app, IH, length_map, length_seq. cbn [length]. lia.
Qed.

Lemma slice_ok bs a b :
  0 <= a <= b -> b <= Z.of_nat (length bs) ->
  slice bs a b = Ok (firstn (Z.to_nat (b - a)) (skipn (Z.to_nat a) bs)).
Proof.
  intros [H1 H2] H3. unfold slice.
  rewrite (proj2 (Z.leb_le _ _) H1), (proj2 (Z.leb_le _ _) H2), (proj2 (Z.leb_le _ _) H3).
  reflexivity.
Qed.

Lemma slice_oob bs a b :
  Z.of_nat (length bs) < b -> slice bs a b = Panic.
Proof.
  intros H. unfold slice.
  rewrite (proj2 (Z.leb_gt _ _) H), andb_false_r. reflexivity.
Qed.

Lemma length_firstn_skipn {A} n a (l : list A) :
  (a + n <= length l)%nat -> length (firstn n (skipn a l)) = n.
Proof. intros H. rewrite length_firstn, length_skipn. lia. Qed.

Lemma SizedRecordPointer_parse_spec e :
  length e = 12%nat ->
  SizedRecordPointer_parse e =
    let fid := le_value (firstn 2 (skipn 8 e)) in
    if fid =? 0 then Panic
    else Ok {| srp_size := le_value (firstn 4 e);
               srp_ptr := {| page_ptr := {| page_id := le_value (firstn 4 (skipn 4 e));
                                            file_id := fid |};
                             slot_id := le_value (firstn 2 (skipn 10 e)) |} |}.
Proof.
  intros H. do 12 (destruct e as [|? e]; [discriminate|]). destruct e; [|discriminate].
  unfold SizedRecordPointer_parse, RecordPointer_parse, PagePointer_parse.
  Opaque le_value. simpl. Transparent le_value.
  destruct (_ =? 0); reflexivity.
Qed.

Lemma RecordPointerWithOffset_parse_spec e :
  length e = 16%nat ->
  RecordPointerWithOffset_parse e =
    let fid := le_value (firstn 2 (skipn 12 e)) in
    if fid =? 0 then Panic
    else Ok {| rpo_offset := le_value (firstn 8 e);
               rpo_ptr := {| page_ptr := {| page_id := le_value (firstn 4 (skipn 8 e));
                                            file_id := fid |};
                             slot_id := le_value (firstn 2 (skipn 14 e)) |} |}.
Proof.
  intros H. do 16 (destruct e as [|? e]; [discriminate|]). destruct e; [|discriminate].
  unfold RecordPointerWithOffset_parse, RecordPointer_parse, PagePointer_parse.
  Opaque le_value. simpl. Transparent le_value.
  destruct (_ =? 0); reflexivity.
Qed.

Lemma cursor_read_spec n c bs rest :
  0 <= cur_pos c ->
  skipn (Z.to_nat (cur_pos c)) (cur_buf c) = bs ++ rest ->
  Z.of_nat (length bs) = n -> 0 < n ->
  cursor_read n c = Ok (bs, {| cur_buf := cur_buf c; cur_pos := cur_pos c + n |}).
Proof.
  intros Hp Hs Hn Hn0. unfold cursor_read.
  assert (Hl : length (skipn (Z.to_nat (cur_pos c)) (cur_buf c)) = length (bs ++ rest))
    by now rewrite Hs.
  rewrite length_skipn, length_app in Hl.
  pose proof (Z2Nat.id _ Hp) as Hpn.
  rewrite (proj2 (Z.leb_le _ _)) by lia.
  rewrite Hs, <- Hn, Nat2Z.id, firstn_app, Nat.sub_diag, firstn_O, app_nil_r, firstn_all.
  reflexivity.
Qed.

Lemma skipn_add_pos {A} (l : list A) p n :
  0 <= p -> 0 <= n -> skipn (Z.to_nat (p + n)) l = skipn (Z.to_nat n) (skipn (Z.to_nat p) l).
Proof. intros. rewrite skipn_skipn, Z2Nat.inj_add by lia. f_equal. lia. Qed.

Lemma mapM_in {A B} (f : A -> Panicky B) l l' y :
  mapM f l = Ok l' -> In y l' -> exists x, In x l /\ f x = Ok y.
Proof.
  revert l'; induction l as [|x t IH]; intros l' H Hy; cbn in H; inv_ok.
  - destruct Hy.
  - destruct Hy as [<-|Hy].
    + exists x; split; [left; reflexivity | assumption].
    + destruct (IH _ eq_refl Hy) as [x' [? ?]].
      exists x'; split; [right|]; assumption.
Qed.

Lemma insert_by_idx_in c l y : In y (insert_by_idx c l) <-> c = y \/ In y l.
Proof.
  induction l as [|d t IH]; cbn; [tauto|].
  destruct (idx c <=? idx d); cbn; [tauto|]. rewrite IH; tauto.
Qed.

Lemma sort_by_idx_in l y : In y (sort_by_idx l) <-> In y l.
Proof.
  induction l as [|c t IH]; cbn; [tauto|].
  rewrite insert_by_idx_in, IH. intuition.
Qed.

(** * Claims *)

Lemma concat_mapM_pmap {A B C} (f : A -> Panicky (list C)) (g : A -> Panicky (list B))
  (h : B -> C) l :
  (forall x, f x = pmap (map h) (g x)) ->
  concat_mapM f l = pmap (map h) (concat_mapM g l).
Proof.
  intros Hf. induction l as [|x t IH]; cbn; [reflexivity|].
  rewrite Hf, IH. unfold pmap.
  destruct (g x); cbn; [|reflexivity].
  destruct (concat_mapM g t); cbn; [|reflexivity].
  rewrite map_app. reflexivity.
Qed.

Lemma scan_db_records_sources fids np get pml :
  scan_db_records fids np get pml = pmap (map src_record) (scan_db_sources fids np get pml).
Proof.
  unfold scan_db_records, scan_db_sources.
  apply concat_mapM_pmap; intros j.
  apply concat_mapM_pmap; intros i.
  unfold scan_page_sources.
  destruct (select_page get pml j i) as [page|]; [|reflexivity].
  unfold local_records, pmap.
  destruct (local_records_idx page); cbn; [|reflexivity].
  rewrite map_map. f_equal. apply map_ext. intros [s r]. reflexivity.
Qed.

Lemma concat_mapM_in {A B} (f : A -> Panicky (list B)) l ys :
  concat_mapM f l = Ok ys ->
  (forall x, In x l -> exists zs, f x = Ok zs /\ forall y, In y zs -> In y ys) /\
  (forall y, In y ys -> exists x zs, In x l /\ f x = Ok zs /\ In y zs).
Proof.
  revert ys; induction l as [|x t IH]; intros ys H; cbn in H.
  - injection H as <-. split; intros ? [].
  - destruct (f x) as [zs|] eqn:Hx; [|discriminate]. cbn in H.
    destruct (concat_mapM f t) as [ws|] eqn:Ht; [|discriminate]. cbn in H.
    injection H as <-. destruct (IH ws eq_refl) as [IH1 IH2]. split.
    + intros x' [<-|Hx'].
      * exists zs. split; [assumption|]. intros y Hy. apply in_or_app. left. assumption.
      * destruct (IH1 x' Hx') as [zs' [Hz Hy]]. exists zs'. split; [assumption|].
        intros y Hy'. apply in_or_app. right. auto.
    + intros y Hy. apply in_app_or in Hy as [Hy|Hy].
      * exists x, zs. split; [left; reflexivity|]. split; assumption.
      * destruct (IH2 y Hy) as [x' [zs' [H1 [H2 H3]]]].
        exists x', zs'. split; [right; assumption|]. split; assumption.
Qed.

Lemma StronglySorted_app {A} (R : A -> A -> Prop) a b :
  StronglySorted R a -> StronglySorted R b ->
  (forall x y, In x a -> In y b -> R x y) -> StronglySorted R (a ++ b).
Proof.
  induction a as [|x t IH]; intros Ha Hb Hab; cbn; [assumption|].
  apply StronglySorted_inv in Ha as [Ht Hx]. constructor.
  - apply IH; auto. intros; apply Hab; [right|]; auto.
  - apply Forall_app; split; [assumption|].
    apply Forall_forall; intros y Hy; apply Hab; [left; reflexivity|assumption].
Qed.

Lemma StronglySorted_map {A B} (R : A -> A -> Prop) (R' : B -> B -> Prop) (h : A -> B) l :
  (forall a b, R a b -> R' (h a) (h b)) ->
  StronglySorted R l -> StronglySorted R' (map h l).
Proof.
  intros HR; induction 1 as [|x t Ht IH Hx]; cbn; constructor; [assumption|].
  apply Forall_map. eapply Forall_impl; [|exact Hx]. auto.
Qed.

Lemma concat_mapM_sorted {A B} (Rl : A -> A -> Prop) (R : B -> B -> Prop)
  (f : A -> Panicky (list B)) l ys :
  StronglySorted Rl l ->
  (forall x zs, In x l -> f x = Ok zs -> StronglySorted R zs) ->
  (forall x x' zs zs' y y', Rl x x' -> f x = Ok zs -> f x' = Ok zs' ->
     In y zs -> In y' zs' -> R y y') ->
  concat_mapM f l = Ok ys -> StronglySorted R ys.
Proof.
  revert ys; induction l as [|x t IH]; intros ys Hl Hin Hcross H; cbn in H.
  - injection H as <-; constructor.
  - destruct (f x) as [zs|] eqn:Hx; [|discriminate]. cbn in H.
    destruct (concat_mapM f t) as [ws|] eqn:Ht; [|discriminate]. cbn in H.
    injection H as <-.
    apply StronglySorted_inv in Hl as [Hlt Hlx].
    apply StronglySorted_app.
    + eapply Hin; [left; reflexivity | exact Hx].
    + apply IH; auto. intros; eapply Hin; [right|]; eauto.
    + intros y y' Hy Hy'.
      destruct (proj2 (concat_mapM_in f t ws Ht) y' Hy') as [x' [zs' [H1 [H2 H3]]]].
      eapply Hcross; [| exact Hx | exact H2 | exact Hy | exact H3].
      rewrite Forall_forall in Hlx. apply Hlx; assumption.
Qed.

Lemma zrange_sorted a b : StronglySorted Z.lt (zrange a b).
Proof.
  unfold zrange. generalize 0%nat as s. generalize (Z.to_nat (b - a)) as n.
  induction n as [|n IH]; intros s; cbn; constructor; [apply IH|].
  apply Forall_forall; intros y Hy.
  apply in_map_iff in Hy as [k [<- Hk]]. apply in_seq in Hk. lia.
Qed.

Lemma zrange_in a b x : In x (zrange a b) <-> a <= x < b.
Proof.
  unfold zrange. rewrite in_map_iff. split.
  - intros [k [<- Hk]]. apply in_seq in Hk. lia.
  - intros H. exists (Z.to_nat (x - a)). split; [lia|]. apply in_seq. lia.
Qed.

Lemma local_loop_spec p fuel i l :
  local_loop p fuel i = Ok l ->
  (forall s r, In (s, r) l -> i <= s /\ RawPage_record p s = Ok (Some r)) /\
  StronglySorted (fun a b => fst a < fst b) l.
Proof.
  revert i l; induction fuel as [|f IH]; intros i l H; cbn in H.
  - injection H as <-. split; [intros ? ? []|constructor].
  - destruct (PageHeader.slot_count (header p) <=? i).
    { injection H as <-. split; [intros ? ? []|constructor]. }
    destruct (RawPage_record p i) as [[r|]|] eqn:Hr; cbn in H; try discriminate.
    + destruct (local_loop p f (i + 1)) as [rest|] eqn:Hrest; cbn in H; [|discriminate].
      injection H as <-. destruct (IH _ _ Hrest) as [H1 H2]. split.
      * intros s r' [E|Hin].
        -- injection E as <- <-. split; [lia|assumption].
        -- destruct (H1 _ _ Hin). split; [lia|assumption].
      * constructor; [assumption|]. apply Forall_forall.
        intros [s r'] Hin. destruct (H1 _ _ Hin). cbn. lia.
    + injection H as <-. split; [intros ? ? []|constructor].
Qed.

Lemma is_data_page_spec t : is_data_page t = true <-> t = Data.
Proof. destruct t; cbn; split; congruence. Qed.

Lemma scan_page_sources_in get pml j i zs y :
  scan_page_sources get pml j i = Ok zs -> In y zs ->
  exists s r page l,
    y = (j, i, s, r) /\ get {| page_id := i; file_id := j |} = Some page /\
    PageHeader.ty (header page) = Data /\ PageHeader.p_min_len (header page) = pml /\
    local_records_idx page = Ok l /\ In (s, r) l.
Proof.
  unfold scan_page_sources, select_page. intros H Hy.
  destruct (get _) as [page|] eqn:Hg; [|injection H as <-; destruct Hy].
  destruct (_ && _) eqn:Hc; [|injection H as <-; destruct Hy].
  apply andb_prop in Hc as [Hp Ht]. apply Z.eqb_eq in Hp. apply is_data_page_spec in Ht.
  destruct (local_records_idx page) as [l|] eqn:Hl; cbn in H; [|discriminate].
  injection H as <-. apply in_map_iff in Hy as [[s r] [<- Hin]].
  exists s, r, page, l. repeat split; assumption.
Qed.

Lemma scan_page_sources_complete get pml j i page l s r :
  get {| page_id := i; file_id := j |} = Some page ->
  PageHeader.ty (header page) = Data -> PageHeader.p_min_len (header page) = pml ->
  local_records_idx page = Ok l -> In (s, r) l ->
  exists zs, scan_page_sources get pml j i = Ok zs /\ In (j, i, s, r) zs.
Proof.
  intros Hg Ht Hp Hl Hin. unfold scan_page_sources, select_page.
  rewrite Hg, Ht, Hp, Z.eqb_refl. cbn. rewrite Hl. cbn.
  eexists. split; [reflexivity|].
  apply (in_map (fun '(s, r) => (j, i, s, r)) l (s, r) Hin).
Qed.

Lemma scan_page_sources_sorted get pml j i zs :
  scan_page_sources get pml j i = Ok zs -> StronglySorted src_lt zs.
Proof.
  unfold scan_page_sources. intros H.
  destruct (select_page get pml j i) as [page|]; [|injection H as <-; constructor].
  destruct (local_records_idx page) as [l|] eqn:Hl; cbn in H; [|discriminate].
  injection H as <-. unfold local_records_idx in Hl.
  destruct (local_loop_spec _ _ _ _ Hl) as [_ Hs].
  eapply StronglySorted_map; [|exact Hs].
  intros [s r] [s' r'] Hlt. cbn in *. right. split; [reflexivity|]. right. split; [reflexivity|lia].
Qed.

Lemma scan_file_sources_in get np pml j zs y :
  concat_mapM (scan_page_sources get pml j) (zrange 0 (np j)) = Ok zs -> In y zs ->
  exists i s r, y = (j, i, s, r) /\ 0 <= i < np j.
Proof.
  intros H Hy. destruct (proj2 (concat_mapM_in _ _ _ H) y Hy) as [i [zs' [Hi [Hp Hy']]]].
  destruct (scan_page_sources_in _ _ _ _ _ _ Hp Hy') as [s [r [_ [_ [-> _]]]]].
  apply zrange_in in Hi. exists i, s, r. split; [reflexivity|lia].
Qed.

Lemma scan_file_sources_sorted get np pml j zs :
  concat_mapM (scan_page_sources get pml j) (zrange 0 (np j)) = Ok zs ->
  StronglySorted src_lt zs.
Proof.
  intros Hf. eapply concat_mapM_sorted; [apply zrange_sorted | | | exact Hf].
  - intros i zs' _ Hp. eapply scan_page_sources_sorted; eauto.
  - intros i i' zs1 zs2 y y' Hlt H1 H2 Hy Hy'.
    destruct (scan_page_sources_in _ _ _ _ _ _ H1 Hy) as [s [r [_ [_ [-> _]]]]].
    destruct (scan_page_sources_in _ _ _ _ _ _ H2 Hy') as [s' [r' [_ [_ [-> _]]]]].
    cbn. right. split; [reflexivity|]. left. exact Hlt.
Qed.

Lemma concat_mapM_blocks {A B} (f : A -> Panicky (list B)) l ys :
  concat_mapM f l = Ok ys ->
  exists blocks, ys = concat blocks /\ Forall2 (fun x b => f x = Ok b) l blocks.
Proof.
  revert ys; induction l as [|x t IH]; intros ys H; cbn in H.
  - injection H as <-. exists []. split; [reflexivity|constructor].
  - destruct (f x) as [zs|] eqn:Hx; [|discriminate]. cbn in H.
    destruct (concat_mapM f t) as [ws|] eqn:Ht; [|discriminate]. cbn in H.
    injection H as <-. destruct (IH ws eq_refl) as [bs [-> Hb]].
    exists (zs :: bs). split; [reflexivity|]. constructor; assumption.
Qed.

(** C8: for every schema and record, the [Row] produced by
    [Schema::parse] has exactly one value per schema column, whatever the
    record's [column_count], null bitmap and variable-length block. *)
Theorem Schema_parse_row_length u f s r row :
  Schema_parse u f s r = Ok row -> length (values row) = length (columns s).
Proof.
  unfold Schema_parse; intros H; inv_ok. cbn.
  rewrite (parse_columns_length _ _ _ _ _ _ _ _ Heqp), repeat_length. reflexivity.
Qed.

(** Witness of C8: the nine-bit example row has nine values. *)
Lemma Schema_parse_row_length_witness :
  Record_parse ex_bits_record_bytes false 0 = Ok (Some ex_bits_record) /\
  exists row, Schema_parse utf16_units ascii_ok ex_bits_schema ex_bits_record = Ok row /\
    length (values row) = length (columns ex_bits_schema).
Proof.
  split; [vm_compute; reflexivity|].
  eexists; split; [vm_compute; reflexivity|].
  apply (Schema_parse_row_length utf16_units ascii_ok ex_bits_schema ex_bits_record).
  vm_compute; reflexivity.
Defined.

(** C9: every column built by [Schema::from_col_par] comes from one
    accepted catalog pair, with its [col_id], and is [nullable] exactly
    when the pair's status does NOT have the [NULLABLE] bit (bit 0). *)
Theorem from_col_par_nullable_negated info s c :
  Schema_from_col_par info = Ok s -> In c (columns s) ->
  exists col t, In (col, t) info /\ column_of_col_par col t = Ok c /\
    idx c = SysColPar.col_id col /\
    nullable c = negb (Z.testbit (SysColPar.status col) 0).
Proof.
  unfold Schema_from_col_par; intros H Hc; inv_ok. cbn in Hc.
  rewrite sort_by_idx_in in Hc.
  destruct (mapM_in _ _ _ _ Heqp Hc) as [[col t] [Hin Hcol]].
  exists col, t; split; [exact Hin|]; split; [exact Hcol|].
  unfold column_of_col_par in Hcol.
  destruct (contains _ ColParStatus.SPARSE); cbn in Hcol; [discriminate|].
  destruct (contains _ ColParStatus.FILESTREAM); cbn in Hcol; [discriminate|].
  destruct (contains _ ColParStatus.XML_DOCUMENT); cbn in Hcol; [discriminate|].
  inv_ok. cbn. split; [reflexivity|].
  unfold contains, ColParStatus.NULLABLE. rewrite land_1_testbit. reflexivity.
Qed.

(** Witness of C9: a column whose status has the [NULLABLE] bit. *)
Lemma from_col_par_nullable_negated_witness :
  Schema_from_col_par [(ex_col_par 1, ex_int_type)] = Ok {| columns := [ex_int_column] |} /\
  exists col t, In (col, t) [(ex_col_par 1, ex_int_type)] /\
    column_of_col_par col t = Ok ex_int_column /\
    idx ex_int_column = SysColPar.col_id col /\
    nullable ex_int_column = negb (Z.testbit (SysColPar.status col) 0).
Proof.
  split; [vm_compute; reflexivity|].
  apply (from_col_par_nullable_negated [(ex_col_par 1, ex_int_type)]
           {| columns := [ex_int_column] |});
    [vm_compute; reflexivity | left; reflexivity].
Defined.

(** C10: decoding an [NText] column through [parse_var_length] never
    yields the [NText] variant: an empty slice gives [Image(None)], and a
    non-empty one, which must be complex and exactly 16 bytes long,
    gives [Image(Some(LobPointer))]. *)
Theorem NText_parse_var_length_is_Image :
  (forall u c, parse_var_length u SqlType.NText c [] = Ok (SqlValue.Image None)) /\
  (forall u c d v, parse_var_length u SqlType.NText c d = Ok v ->
     (d = [] /\ v = SqlValue.Image None) \/
     (d <> [] /\ c = true /\ length d = 16%nat /\
      exists p, LobPointer_parse d = Ok p /\ v = SqlValue.Image (Some p))).
Proof.
  split; [reflexivity|].
  intros u c d v H. cbn [parse_var_length] in H.
  destruct d as [|b d'].
  - left. cbn in H. injection H as <-. auto.
  - right. destruct c; cbn [pbind rust_assert negb] in H; [|discriminate H].
    destruct (Nat.eqb (length (b :: d')) 16) eqn:E; cbn [pbind] in H; [|discriminate H].
    apply Nat.eqb_eq in E. inv_ok.
    split; [congruence|]. split; [reflexivity|]. split; [exact E|].
    eexists; split; reflexivity.
Qed.

(** Witness of C10. *)
Lemma NText_parse_var_length_is_Image_witness :
  parse_var_length utf16_units SqlType.NText true ex_lob_bytes = Ok ex_lob_value /\
  ((ex_lob_bytes = [] /\ ex_lob_value = SqlValue.Image None) \/
   (ex_lob_bytes <> [] /\ true = true /\ length ex_lob_bytes = 16%nat /\
    exists p, LobPointer_parse ex_lob_bytes = Ok p /\ ex_lob_value = SqlValue.Image (Some p))).
Proof.
  split; [vm_compute; reflexivity|].
  apply (proj2 NText_parse_var_length_is_Image utf16_units true ex_lob_bytes).
  vm_compute; reflexivity.
Defined.

(** C2 (as stated, refuted): a [Forwarded] record (type field 1) is not
    answered with [None]: [Record::parse] panics on its [assert!]. *)
Lemma Record_parse_unsupported_counterexample :
  Record_parse [2; 0; 8; 0; 0; 0; 0; 0; 0; 0] false 0 = Panic /\
  Record_parse [2; 0; 8; 0; 0; 0; 0; 0; 0; 0] false 0 <> Ok None.
Proof. split; [vm_compute; reflexivity | vm_compute; discriminate]. Qed.

(** C2 (amended): for every input whose record-type field (bits 1..3 of
    byte 0) is [Forwarded], [Forwarding], [GhostIndex], [GhostData] or
    [GhostVersion], [Record::parse] panics: it neither decodes the record
    nor returns [None]. *)
Theorem Record_parse_unsupported_panics b0 rest is_index p_min_len :
  In (Z.shiftr (Z.land b0 15) 1) [1; 2; 5; 6; 7] ->
  Record_parse (b0 :: rest) is_index p_min_len = Panic.
Proof.
  intros Hin. unfold Record_parse.
  cbn [index unwrap nth_error Z.to_nat Z.leb Z.compare pbind].
  destruct is_index.
  - cbn [pbind].
    destruct Hin as [<-|[<-|[<-|[<-|[<-|[]]]]]]; reflexivity.
  - destruct rest as [|b1 rest]; [reflexivity|].
    cbn [index unwrap nth_error Z.to_nat Z.leb Z.compare pbind Pos.to_nat Pos.iter_op].
    destruct Hin as [<-|[<-|[<-|[<-|[<-|[]]]]]]; reflexivity.
Qed.

(** Witness of the amended C2 theorem. *)
Lemma Record_parse_unsupported_panics_witness :
  In (Z.shiftr (Z.land 2 15) 1) [1; 2; 5; 6; 7] /\
  Record_parse [2; 0; 8; 0; 0; 0; 0; 0; 0; 0] false 0 = Panic.
Proof.
  split; [vm_compute; left; reflexivity|].
  apply (Record_parse_unsupported_panics 2 [0; 8; 0; 0; 0; 0; 0; 0; 0] false 0).
  vm_compute; left; reflexivity.
Defined.

(** C3 (as stated, refuted): with a null bitmap present, an index at the
    bitmap's bit length (8 here) is not answered with [false]: the
    [BitSlice] index panics. *)
Lemma is_column_null_beyond_bitmap_counterexample :
  Record_parse [16; 0; 4; 0; 1; 0; 0] false 0 = Ok (Some ex_null_record) /\
  null_bitmap ex_null_record <> None /\
  is_column_null ex_null_record 8 = Panic.
Proof.
  split; [vm_compute; reflexivity|]. split; [discriminate|]. vm_compute; reflexivity.
Qed.

(** C3 (amended): for every record produced by [Record::parse] and every
    index [i], [is_column_null(i)] is [false] when the record has no null
    bitmap; with a bitmap, it is bit [i] of the bitmap for [i] below the
    bitmap's bit length [8 * ceil(column_count / 8)] and panics at or
    beyond it. *)
Theorem is_column_null_parsed data is_index p_min_len r i :
  Record_parse data is_index p_min_len = Ok (Some r) -> 0 <= i ->
  is_column_null r i =
    match null_bitmap r with
    | None => Ok false
    | Some bits =>
        if i <? 8 * ((column_count r + 7) / 8)
        then Ok (nth (Z.to_nat i) bits false) else Panic
    end.
Proof.
  intros H Hi. unfold Record_parse in H. inv_all;
    cbn [is_column_null null_bitmap column_count]; try reflexivity.
  all: rewrite (index_spec _ _ false Hi), bits_lsb0_length.
  all: match goal with
       | E : slice _ _ _ = Ok ?s |- context [bits_lsb0 ?s] =>
           apply slice_length in E; rewrite Nat2Z.inj_mul, E, Z.add_simpl_l
       end.
  all: reflexivity.
Qed.

(** Witness of the amended C3 theorem. *)
Lemma is_column_null_parsed_witness :
  Record_parse [16; 0; 4; 0; 1; 0; 0] false 0 = Ok (Some ex_null_record) /\
  is_column_null ex_null_record 3 =
    match null_bitmap ex_null_record with
    | None => Ok false
    | Some bits =>
        if 3 <? 8 * ((column_count ex_null_record + 7) / 8)
        then Ok (nth (Z.to_nat 3) bits false) else Panic
    end.
Proof.
  split; [vm_compute; reflexivity|].
  apply (is_column_null_parsed [16; 0; 4; 0; 1; 0; 0] false 0); [vm_compute; reflexivity | lia].
Defined.

(** C4 (as stated, refuted): a parsed [LargeRootYukon] node with
    [cur_links = 1] whose entry table is missing from the fixed data:
    [read_idx(0)] is neither [Some] nor [None], it panics. *)
Lemma read_idx_within_cur_links_counterexample :
  Record_parse (blob_record_bytes ex_short_root_fd) false 0 =
    Ok (Some (LobLargeRootYukon.record ex_short_root)) /\
  LobEntry_parse (LobLargeRootYukon.record ex_short_root) =
    Ok (Some (LobEntry.LargeRootYukon ex_short_root)) /\
  0 < LobLargeRootYukon.cur_links ex_short_root /\
  LobLargeRootYukon_read_idx ex_short_root 0 = Panic.
Proof.
  split; [vm_compute; reflexivity|]. split; [vm_compute; reflexivity|].
  split; [reflexivity|]. vm_compute; reflexivity.
Qed.

(** C4 (amended): for every [LargeRootYukon] or [Internal] node and every
    index [i], [read_idx(i)] is [None] when [i >= cur_links].  When
    [i < cur_links] it reads entry [i] (12 bytes at [20 + 12 i] for
    [LargeRootYukon], 16 bytes at [16 (i + 1)] for [Internal]): it returns
    [Some] of the record pointer stored there when the entry lies inside
    the node's fixed data and its [file_id] is non-zero, and panics
    otherwise. *)
Theorem read_idx_spec :
  (forall n i, 0 <= i ->
     LobLargeRootYukon_read_idx n i =
       if LobLargeRootYukon.cur_links n <=? i then Ok None
       else
         let fd := fixed_data (LobLargeRootYukon.record n) in
         if 20 + 12 * (i + 1) <=? Z.of_nat (length fd) then
           let e := firstn 12 (skipn (Z.to_nat (20 + 12 * i)) fd) in
           let fid := le_value (firstn 2 (skipn 8 e)) in
           if fid =? 0 then Panic
           else Ok (Some {| page_ptr := {| page_id := le_value (firstn 4 (skipn 4 e));
                                           file_id := fid |};
                            slot_id := le_value (firstn 2 (skipn 10 e)) |})
         else Panic) /\
  (forall n i, 0 <= i ->
     LobInternal_read_idx n i =
       if LobInternal.cur_links n <=? i then Ok None
       else
         let fd := fixed_data (LobInternal.record n) in
         if 16 * (i + 2) <=? Z.of_nat (length fd) then
           let e := firstn 16 (skipn (Z.to_nat (16 * (i + 1))) fd) in
           let fid := le_value (firstn 2 (skipn 12 e)) in
           if fid =? 0 then Panic
           else Ok (Some {| page_ptr := {| page_id := le_value (firstn 4 (skipn 8 e));
                                           file_id := fid |};
                            slot_id := le_value (firstn 2 (skipn 14 e)) |})
         else Panic).
Proof.
  split; intros n i Hi.
  - unfold LobLargeRootYukon_read_idx.
    destruct (LobLargeRootYukon.cur_links n <=? i); [reflexivity|]. cbv zeta.
    set (fd := fixed_data (LobLargeRootYukon.record n)).
    destruct (20 + 12 * (i + 1) <=? Z.of_nat (length fd)) eqn:E.
    + apply Z.leb_le in E. rewrite slice_ok by lia. cbn [pbind].
      replace (Z.to_nat (20 + 12 * (i + 1) - (20 + 12 * i))) with 12%nat by lia.
      rewrite SizedRecordPointer_parse_spec by (apply length_firstn_skipn; lia).
      cbv zeta. destruct (_ =? 0); reflexivity.
    + apply Z.leb_gt in E. rewrite slice_oob by lia. reflexivity.
  - unfold LobInternal_read_idx.
    destruct (LobInternal.cur_links n <=? i); [reflexivity|]. cbv zeta.
    set (fd := fixed_data (LobInternal.record n)).
    destruct (16 * (i + 2) <=? Z.of_nat (length fd)) eqn:E.
    + apply Z.leb_le in E. replace (16 * (i + 1 + 1)) with (16 * (i + 2)) by ring.
      rewrite slice_ok by lia. cbn [pbind].
      replace (Z.to_nat (16 * (i + 2) - 16 * (i + 1))) with 16%nat by lia.
      rewrite RecordPointerWithOffset_parse_spec by (apply length_firstn_skipn; lia).
      cbv zeta. destruct (_ =? 0); reflexivity.
    + apply Z.leb_gt in E. replace (16 * (i + 1 + 1)) with (16 * (i + 2)) by ring.
      rewrite slice_oob by lia. reflexivity.
Qed.

Lemma read_idx_spec_witness :
  LobLargeRootYukon_read_idx ex_root 1 =
    Ok (Some {| page_ptr := {| page_id := 3; file_id := 1 |}; slot_id := 0 |}) /\
  LobLargeRootYukon_read_idx ex_root 1 =
    (if LobLargeRootYukon.cur_links ex_root <=? 1 then Ok None
     else
       let fd := fixed_data (LobLargeRootYukon.record ex_root) in
       if 20 + 12 * (1 + 1) <=? Z.of_nat (length fd) then
         let e := firstn 12 (skipn (Z.to_nat (20 + 12 * 1)) fd) in
         let fid := le_value (firstn 2 (skipn 8 e)) in
         if fid =? 0 then Panic
         else Ok (Some {| page_ptr := {| page_id := le_value (firstn 4 (skipn 4 e));
                                         file_id := fid |};
                          slot_id := le_value (firstn 2 (skipn 10 e)) |})
       else Panic).
Proof.
  split; [vm_compute; reflexivity|].
  apply (proj1 read_idx_spec ex_root 1). lia.
Defined.

(** C6: [DateTime] reads [time] then [date] as little-endian [i32] from
    the cursor (8 bytes) and yields the instant [date] days (only when
    [0 < date < 1000000]) plus [time * 1000 / 300] ms after
    1900-01-01 00:00:00 (instants are milliseconds since that epoch);
    (time = 25920000, date = 44927) gives the midnight after day 44927. *)
Theorem DateTime_decoding :
  (forall u f bp c t0 t1 t2 t3 d0 d1 d2 d3 rest,
     0 <= cur_pos c ->
     skipn (Z.to_nat (cur_pos c)) (cur_buf c) = [t0; t1; t2; t3; d0; d1; d2; d3] ++ rest ->
     let time := to_signed 32 (le_value [t0; t1; t2; t3]) in
     let date := to_signed 32 (le_value [d0; d1; d2; d3]) in
     SqlType_parse u f SqlType.DateTime bp c =
       Ok (SqlValue.DateTime
             ((if (date <? 1000000) && (0 <? date) then date * ms_per_day else 0)
              + Z.quot (time * 1000) 300),
           bp, {| cur_buf := cur_buf c; cur_pos := cur_pos c + 8 |})) /\
  (forall u f,
     to_signed 32 (le_value [0; 130; 139; 1]) = 25920000 /\
     to_signed 32 (le_value [127; 175; 0; 0]) = 44927 /\
     SqlType_parse u f SqlType.DateTime BitParser_new
       (cursor_new [0; 130; 139; 1; 127; 175; 0; 0]) =
       Ok (SqlValue.DateTime ((44927 + 1) * ms_per_day), BitParser_new,
           {| cur_buf := [0; 130; 139; 1; 127; 175; 0; 0]; cur_pos := 8 |})).
Proof.
  split.
  - intros u f bp c t0 t1 t2 t3 d0 d1 d2 d3 rest Hp Hs time date.
    unfold SqlType_parse, cursor_read_le.
    rewrite (cursor_read_spec 4 c [t0; t1; t2; t3] ([d0; d1; d2; d3] ++ rest))
      by (try rewrite Hs; reflexivity || lia).
    cbn [pbind].
    rewrite (cursor_read_spec 4 {| cur_buf := cur_buf c; cur_pos := cur_pos c + 4 |}
               [d0; d1; d2; d3] rest); cbn [cur_buf cur_pos].
    + cbn [pbind]. replace (cur_pos c + 4 + 4) with (cur_pos c + 8) by ring.
      fold time date. destruct (_ && _); reflexivity.
    + lia.
    + rewrite skipn_add_pos, Hs by lia. reflexivity.
    + reflexivity.
    + lia.
  - intros u f. vm_compute. repeat split.
Qed.

Lemma DateTime_decoding_witness :
  SqlType_parse utf16_units ascii_ok SqlType.DateTime BitParser_new
    (cursor_new [0; 130; 139; 1; 127; 175; 0; 0; 42]) =
    Ok (SqlValue.DateTime
          ((if (to_signed 32 (le_value [127; 175; 0; 0]) <? 1000000)
               && (0 <? to_signed 32 (le_value [127; 175; 0; 0]))
            then to_signed 32 (le_value [127; 175; 0; 0]) * ms_per_day else 0)
           + Z.quot (to_signed 32 (le_value [0; 130; 139; 1]) * 1000) 300),
        BitParser_new, {| cur_buf := [0; 130; 139; 1; 127; 175; 0; 0; 42]; cur_pos := 0 + 8 |}).
Proof.
  apply (proj1 DateTime_decoding utf16_units ascii_ok BitParser_new
           (cursor_new [0; 130; 139; 1; 127; 175; 0; 0; 42]) 0 130 139 1 127 175 0 0 [42]).
  - vm_compute. discriminate.
  - reflexivity.
Defined.

(** C7: [read_bit] hands out the bits of the current byte LSB first and
    fetches the next byte from the cursor only when all 8 bits are
    spent; nine [Bit] columns over the fixed data
    [0b10101010; 0b00000001] decode to
    [false,true,false,true,false,true,false,true,true]. *)
Theorem Bit_decoding_lsb_first :
  (forall bp c, read_bits bp <> 8 ->
     read_bit bp c =
       Ok (Z.testbit (current_byte bp) 0,
           {| current_byte := Z.shiftr (current_byte bp) 1; read_bits := read_bits bp + 1 |},
           c)) /\
  (forall bp c b rest, read_bits bp = 8 -> 0 <= cur_pos c ->
     skipn (Z.to_nat (cur_pos c)) (cur_buf c) = b :: rest ->
     read_bit bp c =
       Ok (Z.testbit b 0, {| current_byte := Z.shiftr b 1; read_bits := 1 |},
           {| cur_buf := cur_buf c; cur_pos := cur_pos c + 1 |})) /\
  Record_parse ex_bits_record_bytes false 0 = Ok (Some ex_bits_record) /\
  fixed_data ex_bits_record = [170; 1] /\
  (forall u f,
     Schema_parse u f ex_bits_schema ex_bits_record =
       Ok {| values := map (fun b => Some (SqlValue.Bit b))
                        [false; true; false; true; false; true; false; true; true] |}).
Proof.
  split; [|split; [|split; [|split]]].
  - intros bp c H. unfold read_bit.
    rewrite (proj2 (Z.eqb_neq _ _) H). cbn [pbind].
    rewrite land_1_testbit. reflexivity.
  - intros bp c b rest H Hp Hs. unfold read_bit.
    rewrite (proj2 (Z.eqb_eq _ _) H). unfold cursor_read_le.
    rewrite (cursor_read_spec 1 c [b] rest) by (reflexivity || lia || exact Hs).
    cbn [pbind le_value]. rewrite Z.mul_0_r, Z.add_0_r, land_1_testbit. reflexivity.
  - vm_compute. reflexivity.
  - reflexivity.
  - intros u f. vm_compute. reflexivity.
Qed.

Lemma Bit_decoding_lsb_first_witness :
  read_bit BitParser_new (cursor_new [170; 1]) =
    Ok (Z.testbit 170 0, {| current_byte := Z.shiftr 170 1; read_bits := 1 |},
        {| cur_buf := [170; 1]; cur_pos := 0 + 1 |}) /\
  read_bit {| current_byte := 85; read_bits := 1 |} (cursor_new [1]) =
    Ok (Z.testbit 85 0, {| current_byte := Z.shiftr 85 1; read_bits := 1 + 1 |},
        cursor_new [1]).
Proof.
  split.
  - apply (proj1 (proj2 Bit_decoding_lsb_first) BitParser_new (cursor_new [170; 1]) 170 [1]);
      reflexivity || lia.
  - apply (proj1 Bit_decoding_lsb_first {| current_byte := 85; read_bits := 1 |} (cursor_new [1])).
    discriminate.
Defined.

(** C1 (code behaviour): when a child pointer of a [LargeRootYukon] node
    cannot be resolved, [LobLargeRootYukon::read] returns [None] through
    its [?], which merely ends the child iterator: [LobPointer::read]
    still returns [Some] of the extents collected from the other children
    instead of [None].  Here the root has two children, the first one a
    [Data] leaf with bytes [7; 8; 9], the second one on a missing page. *)
Theorem LobPointer_read_missing_child_partial :
  ex_get_record ex_missing_child = Ok None /\
  LobLargeRootYukon_read_idx ex_root 1 = Ok (Some ex_missing_child) /\
  ex_get_record (ptr ex_lob_pointer) = Ok (Some (LobLargeRootYukon.record ex_root)) /\
  LobPointer_read ex_get_record 10 ex_lob_pointer = Some (Ok (Some [(3, [7; 8; 9])])).
Proof.
  split; [reflexivity|]. split; [vm_compute; reflexivity|].
  split; vm_compute; reflexivity.
Qed.

(** C5: if the partition's first page [fp] can be fetched, the rows of
    [scan_db] are, in order, [Schema::parse] applied to a list of local
    records tagged with (file_id, page_id, slot); a tagged record is in
    this list exactly when its file is in [file_ids()], its page is below
    [num_pages], has type [Data] and the [p_min_len] of [fp], and the
    record is among that page's [local_records]; the list is the
    concatenation, in [file_ids()] order, of one block per file, each
    block ascending in (page_id, slot); so when [file_ids()] is strictly
    ascending the list is strictly ascending in (file_id, page_id, slot). *)
Theorem scan_db_selected_local_records u f fids np get t rows pp0 fp :
  nth_error (partition_pointer t) 0 = Some pp0 ->
  get pp0 = Some fp ->
  scan_db u f fids np get t = Ok rows ->
  let pml := PageHeader.p_min_len (header fp) in
  exists srcs,
    scan_db_sources fids np get pml = Ok srcs /\
    mapM (Schema_parse u f (schema t)) (map src_record srcs) = Ok rows /\
    (forall j i s r,
       In (j, i, s, r) srcs <->
       In j fids /\ 0 <= i < np j /\
       exists page l,
         get {| page_id := i; file_id := j |} = Some page /\
         PageHeader.ty (header page) = Data /\
         PageHeader.p_min_len (header page) = pml /\
         local_records_idx page = Ok l /\ In (s, r) l /\
         RawPage_record page s = Ok (Some r)) /\
    (exists blocks,
       srcs = concat blocks /\
       Forall2 (fun j b => (forall y, In y b -> exists i s r, y = (j, i, s, r)) /\
                           StronglySorted src_lt b) fids blocks) /\
    (StronglySorted Z.lt fids -> StronglySorted src_lt srcs).
Proof.
  intros Hpp Hfp H pml.
  unfold scan_db in H.
  change (index (partition_pointer t) 0) with (unwrap (nth_error (partition_pointer t) 0)) in H.
  rewrite Hpp in H. cbn [unwrap pbind] in H. rewrite Hfp in H. cbn [unwrap pbind] in H.
  fold pml in H. rewrite scan_db_records_sources in H. unfold pmap in H.
  destruct (scan_db_sources fids np get pml) as [srcs|] eqn:Hs; cbn [pbind] in H;
    [|discriminate].
  exists srcs. split; [reflexivity|]. split; [exact H|].
  unfold scan_db_sources in Hs. split; [|split; [|intros Hsorted]].
  - intros j i s r. split.
    + intros Hin.
      destruct (proj2 (concat_mapM_in _ _ _ Hs) _ Hin) as [j' [zs [Hj [Hf Hy]]]].
      destruct (proj2 (concat_mapM_in _ _ _ Hf) _ Hy) as [i' [zs' [Hi [Hp Hy']]]].
      destruct (scan_page_sources_in _ _ _ _ _ _ Hp Hy')
        as [s' [r' [page [l [E [Hg [Ht [Hm [Hl Hsr]]]]]]]]].
      injection E as -> -> -> ->. apply zrange_in in Hi.
      split; [assumption|]. split; [lia|].
      exists page, l. repeat split; try assumption.
      unfold local_records_idx in Hl. apply (local_loop_spec _ _ _ _ Hl) in Hsr. apply Hsr.
    + intros [Hj [Hi [page [l [Hg [Ht [Hm [Hl [Hsr _]]]]]]]]].
      destruct (proj1 (concat_mapM_in _ _ _ Hs) j Hj) as [zs [Hf Hsub]].
      destruct (proj1 (concat_mapM_in _ _ _ Hf) i (proj2 (zrange_in _ _ _) Hi))
        as [zs' [Hp Hsub']].
      destruct (scan_page_sources_complete get pml j i page l s r Hg Ht Hm Hl Hsr)
        as [zs'' [Hp' Hin]].
      rewrite Hp in Hp'. injection Hp' as <-. auto.
  - destruct (concat_mapM_blocks _ _ _ Hs) as [blocks [-> Hb]].
    exists blocks. split; [reflexivity|].
    eapply Forall2_impl; [|exact Hb]. intros j b Hf. split.
    + intros y Hy. destruct (scan_file_sources_in _ _ _ _ _ _ Hf Hy) as [i [s [r [-> _]]]].
      exists i, s, r. reflexivity.
    + eapply scan_file_sources_sorted; exact Hf.
  - eapply concat_mapM_sorted; [exact Hsorted | | | exact Hs].
    + intros j zs _ Hf. eapply scan_file_sources_sorted; exact Hf.
    + intros j j' zs1 zs2 y y' Hlt H1 H2 Hy Hy'.
      destruct (scan_file_sources_in _ _ _ _ _ _ H1 Hy) as [i [s [r [-> _]]]].
      destruct (scan_file_sources_in _ _ _ _ _ _ H2 Hy') as [i' [s' [r' [-> _]]]].
      cbn. left. exact Hlt.
Qed.

(** Witness of C5 on [ex_table]: only the two [Data] pages with
    [p_min_len] 6 contribute, in (file_id, page_id, slot) order. *)
Lemma scan_db_selected_local_records_witness :
  scan_db utf16_units ascii_ok ex_file_ids ex_num_pages ex_get ex_table = Ok ex_scan_rows /\
  exists srcs,
    scan_db_sources ex_file_ids ex_num_pages ex_get 6 = Ok srcs /\
    StronglySorted src_lt srcs /\
    map (fun '(j, i, s, _) => (j, i, s)) srcs = [(1, 0, 0); (1, 0, 1); (2, 0, 0)].
Proof.
  assert (Hscan : scan_db utf16_units ascii_ok ex_file_ids ex_num_pages ex_get ex_table =
                  Ok ex_scan_rows) by (vm_compute; reflexivity).
  split; [exact Hscan|].
  destruct (scan_db_selected_local_records utf16_units ascii_ok ex_file_ids ex_num_pages
              ex_get ex_table ex_scan_rows {| page_id := 0; file_id := 1 |}
              (mk_page 0 1 6 Data [ex_bits_record_bytes; ex_bits_record_bytes'])
              eq_refl eq_refl Hscan)
    as [srcs [Hs [_ [_ [_ Hsorted]]]]].
  exists srcs. split; [exact Hs|]. split.
  - apply Hsorted. repeat constructor.
  - vm_compute in Hs. injection Hs as <-. reflexivity.
Defined.

(** * Further properties of the decoders *)

Ltac is_nat_lit v := lazymatch v with O => idtac | S ?n => is_nat_lit n end.

(** Evaluates [Z.to_nat] on literal offsets. *)
Ltac zn :=
  repeat match goal with
  | |- context [Z.to_nat ?c] =>
      let v := eval vm_compute in (Z.to_nat c) in is_nat_lit v; change (Z.to_nat c) with v
  end.

Lemma slice_from_ok bs a :
  0 <= a <= Z.of_nat (length bs) -> slice_from bs a = Ok (skipn (Z.to_nat a) bs).
Proof.
  intros [H1 H2]. unfold slice_from.
  rewrite (proj2 (Z.leb_le _ _) H1), (proj2 (Z.leb_le _ _) H2). reflexivity.
Qed.

Lemma slice_from_oob bs a :
  Z.of_nat (length bs) < a -> slice_from bs a = Panic.
Proof.
  intros H. unfold slice_from. rewrite (proj2 (Z.leb_gt _ _) H), andb_false_r. reflexivity.
Qed.

Lemma read_le_ok n bs :
  (n <= length bs)%nat -> read_le n bs = Ok (le_value (firstn n bs)).
Proof. intros H. unfold read_le. rewrite (proj2 (Nat.leb_le _ _) H). reflexivity. Qed.

Lemma read_le_short n bs :
  (length bs < n)%nat -> read_le n bs = Panic.
Proof. intros H. unfold read_le. rewrite (proj2 (Nat.leb_gt _ _) H). reflexivity. Qed.

Lemma slice_read {B} bs a b n (k : Z -> Panicky B) :
  0 <= a -> b = a + Z.of_nat n -> b <= Z.of_nat (length bs) ->
  pbind (slice bs a b) (fun s => pbind (read_le n s) k) =
  k (le_value (firstn n (skipn (Z.to_nat a) bs))).
Proof.
  intros Ha Hb Hl. rewrite slice_ok by lia. cbn [pbind].
  replace (Z.to_nat (b - a)) with n by lia.
  rewrite read_le_ok by (rewrite length_firstn, length_skipn; lia).
  rewrite firstn_firstn, Nat.min_id. reflexivity.
Qed.

Lemma length_le_bytes n x : length (le_bytes n x) = n.
Proof. revert x; induction n; intros x; cbn; auto. Qed.

Lemma le_value_le_bytes n x :
  0 <= x < 256 ^ Z.of_nat n -> le_value (le_bytes n x) = x.
Proof.
  revert x; induction n as [|n IH]; intros x Hx; cbn [le_bytes le_value].
  - cbn in Hx. lia.
  - rewrite Nat2Z.inj_succ, Z.pow_succ_r in Hx by lia.
    rewrite IH.
    + pose proof (Z.div_mod x 256). lia.
    + split; [apply Z.div_pos; lia|]. apply Z.div_lt_upper_bound; lia.
Qed.

Lemma le_value_firstn_le_bytes n x rest :
  0 <= x < 256 ^ Z.of_nat n -> le_value (firstn n (le_bytes n x ++ rest)) = x.
Proof.
  intros Hx. rewrite firstn_app, length_le_bytes, Nat.sub_diag, firstn_O, app_nil_r,
    firstn_all2 by (rewrite length_le_bytes; lia).
  apply le_value_le_bytes; assumption.
Qed.

Lemma PagePointer_parse_spec d :
  (6 <= length d)%nat ->
  PagePointer_parse d =
    let fid := le_value (firstn 2 (skipn 4 d)) in
    if fid =? 0 then Ok None
    else Ok (Some {| page_id := le_value (firstn 4 d); file_id := fid |}).
Proof.
  intros H. unfold PagePointer_parse, read_u16, read_u32.
  rewrite slice_read by lia. cbv zeta. zn. destruct (_ =? 0); [reflexivity|].
  rewrite slice_read by lia. zn. reflexivity.
Qed.

Lemma PagePointer_parse_short d :
  (length d < 6)%nat -> PagePointer_parse d = Panic.
Proof. intros H. unfold PagePointer_parse. rewrite slice_oob by lia. reflexivity. Qed.

Lemma RecordPointer_parse_spec d :
  (8 <= length d)%nat ->
  RecordPointer_parse d =
    let fid := le_value (firstn 2 (skipn 4 d)) in
    if fid =? 0 then Ok None
    else Ok (Some {| page_ptr := {| page_id := le_value (firstn 4 d); file_id := fid |};
                     slot_id := le_value (firstn 2 (skipn 6 d)) |}).
Proof.
  intros H. unfold RecordPointer_parse, read_u16.
  rewrite slice_read by lia. cbv zeta. zn. destruct (_ =? 0) eqn:E; [reflexivity|].
  rewrite slice_ok by lia. cbn [pbind]. zn.
  rewrite PagePointer_parse_spec by (rewrite length_firstn, length_skipn; lia).
  cbv zeta. rewrite skipn_O, skipn_firstn_comm, !firstn_firstn. cbn [Nat.min Nat.sub].
  rewrite E. cbn [pbind unwrap].
  rewrite slice_read by lia. zn. reflexivity.
Qed.


Lemma skipn_le_bytes n x rest : skipn n (le_bytes n x ++ rest) = rest.
Proof. revert x; induction n; intros x; cbn; auto. Qed.

Lemma skipn_le_bytes_plus n m x rest : skipn (n + m) (le_bytes n x ++ rest) = skipn m rest.
Proof. revert x; induction n; intros x; cbn; auto. Qed.

Lemma firstn_le_bytes n x rest : firstn n (le_bytes n x ++ rest) = le_bytes n x.
Proof. revert x; induction n; intros x; cbn; f_equal; auto. Qed.

Lemma le_bytes_value_u16 x rest :
  u16_range x -> le_value (firstn 2 (le_bytes 2 x ++ rest)) = x.
Proof. intros H. rewrite firstn_le_bytes. apply le_value_le_bytes. cbn. unfold u16_range in H. lia. Qed.

Lemma le_bytes_value_u32 x rest :
  u32_range x -> le_value (firstn 4 (le_bytes 4 x ++ rest)) = x.
Proof. intros H. rewrite firstn_le_bytes. apply le_value_le_bytes. cbn. unfold u32_range in H. lia. Qed.

Lemma RecordPointer_parse_short d :
  (length d < 8)%nat -> RecordPointer_parse d = Panic \/ RecordPointer_parse d = Ok None.
Proof.
  intros H. unfold RecordPointer_parse, read_u16.
  destruct (Nat.lt_ge_cases (length d) 6).
  - rewrite slice_oob by lia. left; reflexivity.
  - rewrite slice_read by lia. destruct (_ =? 0); [right; reflexivity|left].
    rewrite slice_ok by lia. cbn [pbind]. zn.
    rewrite PagePointer_parse_spec by (rewrite length_firstn, length_skipn; lia).
    cbv zeta. destruct (_ =? 0); cbn [pbind unwrap]; [reflexivity|].
    rewrite slice_oob by lia. reflexivity.
Qed.

(** X1 ([PagePointer::parse]): decoding the 6-byte encoding of a page
    pointer (u32 page id, u16 file id, little endian) followed by any bytes
    gives back the pointer, except that file id 0 decodes to [None]; fewer
    than 6 bytes panic. *)
Theorem PagePointer_parse_roundtrip (pp : PagePointer) (rest d : list Z) :
  u32_range (page_id pp) -> u16_range (file_id pp) ->
  PagePointer_parse (page_pointer_bytes pp ++ rest) =
    (if file_id pp =? 0 then Ok None else Ok (Some pp)) /\
  ((length d < 6)%nat -> PagePointer_parse d = Panic).
Proof.
  intros Hp Hf. split; [|apply PagePointer_parse_short].
  unfold page_pointer_bytes. rewrite <- app_assoc.
  rewrite PagePointer_parse_spec by (rewrite !length_app, !length_le_bytes; lia).
  cbv zeta. rewrite skipn_le_bytes, le_bytes_value_u16, le_bytes_value_u32 by assumption.
  destruct (file_id pp =? 0); [reflexivity|]. destruct pp; reflexivity.
Qed.

Lemma PagePointer_parse_roundtrip_witness :
  (u32_range 70000 /\ u16_range 3) /\
  PagePointer_parse (page_pointer_bytes {| page_id := 70000; file_id := 3 |} ++ [9]) =
    Ok (Some {| page_id := 70000; file_id := 3 |}) /\
  PagePointer_parse [1; 2] = Panic.
Proof.
  assert (Hr : u32_range 70000 /\ u16_range 3)
    by (unfold u32_range, u16_range; split; lia).
  split; [exact Hr|].
  destruct Hr as [H1 H2].
  destruct (PagePointer_parse_roundtrip {| page_id := 70000; file_id := 3 |} [9] [1; 2] H1 H2)
    as [E1 E2].
  split; [exact E1 | apply E2; cbn; lia].
Defined.

(** X2 ([RecordPointer::parse]): decoding the 8-byte encoding of a record
    pointer (page pointer, then u16 slot id) followed by any bytes gives
    back the pointer, and a file id of 0 decodes to [None]. *)
Theorem RecordPointer_parse_roundtrip (rp : RecordPointer) (rest : list Z) :
  u32_range (page_id (page_ptr rp)) -> u16_range (file_id (page_ptr rp)) ->
  u16_range (slot_id rp) ->
  RecordPointer_parse (record_pointer_bytes rp ++ rest) =
    if file_id (page_ptr rp) =? 0 then Ok None else Ok (Some rp).
Proof.
  intros Hp Hf Hs. destruct rp as [[pid fid] sid]; cbn [page_ptr slot_id page_id file_id] in *.
  unfold record_pointer_bytes, page_pointer_bytes; cbn [page_ptr slot_id page_id file_id].
  rewrite <- !app_assoc.
  rewrite RecordPointer_parse_spec by (rewrite !length_app, !length_le_bytes; lia).
  cbv zeta. rewrite !skipn_le_bytes, le_bytes_value_u16, le_bytes_value_u32 by assumption.
  destruct (fid =? 0); [reflexivity|].
  rewrite (skipn_le_bytes_plus 4 2), skipn_le_bytes.
  rewrite le_bytes_value_u16 by assumption. reflexivity.
Qed.

Lemma RecordPointer_parse_roundtrip_witness :
  (u32_range 5 /\ u16_range 1 /\ u16_range 300) /\
  RecordPointer_parse
    (record_pointer_bytes {| page_ptr := {| page_id := 5; file_id := 1 |}; slot_id := 300 |}) =
    Ok (Some {| page_ptr := {| page_id := 5; file_id := 1 |}; slot_id := 300 |}).
Proof.
  assert (Hr : u32_range 5 /\ u16_range 1 /\ u16_range 300)
    by (unfold u32_range, u16_range; repeat split; lia).
  split; [exact Hr|]. destruct Hr as [H1 [H2 H3]].
  pose proof (RecordPointer_parse_roundtrip
    {| page_ptr := {| page_id := 5; file_id := 1 |}; slot_id := 300 |} [] H1 H2 H3) as E.
  rewrite app_nil_r in E. exact E.
Defined.

(** X3 ([LobPointer::parse]): a 16-byte LOB pointer made of a u32
    timestamp, four ignored bytes and an encoded record pointer decodes to
    that timestamp and record pointer; it panics when the record pointer's
    file id is 0. *)
Theorem LobPointer_parse_roundtrip (ts : Z) (pad : list Z) (rp : RecordPointer) (rest : list Z) :
  length pad = 4%nat -> u32_range ts ->
  u32_range (page_id (page_ptr rp)) -> u16_range (file_id (page_ptr rp)) ->
  u16_range (slot_id rp) ->
  LobPointer_parse (le_bytes 4 ts ++ pad ++ record_pointer_bytes rp ++ rest) =
    if file_id (page_ptr rp) =? 0 then Panic else Ok {| timestamp := ts; ptr := rp |}.
Proof.
  intros Hpad Ht Hp Hf Hs. unfold LobPointer_parse, read_u32.
  assert (Hl : length (record_pointer_bytes rp) = 8%nat)
    by (unfold record_pointer_bytes, page_pointer_bytes; rewrite !length_app, !length_le_bytes; reflexivity).
  rewrite slice_read by (rewrite ?length_app, ?length_le_bytes, ?Hpad, ?Hl; lia). zn.
  rewrite skipn_O, le_bytes_value_u32 by assumption.
  rewrite slice_ok by (rewrite ?length_app, ?length_le_bytes, ?Hpad, ?Hl; lia). cbn [pbind]. zn.
  rewrite (skipn_le_bytes_plus 4 4).
  rewrite skipn_app, Hpad, skipn_all2 by lia. rewrite Nat.sub_diag, skipn_O. cbn [app].
  rewrite firstn_app, Hl, Nat.sub_diag, firstn_O, app_nil_r, firstn_all2 by lia.
  pose proof (RecordPointer_parse_roundtrip rp [] Hp Hf Hs) as E.
  rewrite app_nil_r in E. rewrite E.
  destruct (file_id (page_ptr rp) =? 0); reflexivity.
Qed.

Lemma LobPointer_parse_roundtrip_witness :
  (length [7; 7; 7; 7] = 4%nat /\ u32_range 99 /\ u32_range 5 /\ u16_range 1 /\ u16_range 2) /\
  LobPointer_parse (le_bytes 4 99 ++ [7; 7; 7; 7] ++
      record_pointer_bytes {| page_ptr := {| page_id := 5; file_id := 1 |}; slot_id := 2 |} ++ []) =
    Ok {| timestamp := 99; ptr := {| page_ptr := {| page_id := 5; file_id := 1 |}; slot_id := 2 |} |}.
Proof.
  assert (Hr : length [7; 7; 7; 7] = 4%nat /\ u32_range 99 /\ u32_range 5 /\ u16_range 1 /\ u16_range 2)
    by (unfold u32_range, u16_range; repeat split; lia).
  split; [exact Hr|]. destruct Hr as [H0 [H1 [H2 [H3 H4]]]].
  exact (LobPointer_parse_roundtrip 99 [7; 7; 7; 7]
    {| page_ptr := {| page_id := 5; file_id := 1 |}; slot_id := 2 |} [] H0 H1 H2 H3 H4).
Defined.

Lemma select_page_records_sources get pml j i :
  match select_page get pml j i with
  | Some page => local_records page
  | None => Ok []
  end = pmap (map src_record) (scan_page_sources get pml j i).
Proof.
  unfold scan_page_sources.
  destruct (select_page get pml j i) as [page|]; [|reflexivity].
  unfold local_records, pmap.
  destruct (local_records_idx page); cbn; [|reflexivity].
  rewrite map_map. f_equal. apply map_ext. intros [s r]. reflexivity.
Qed.

Lemma scan_range_sources_sorted get pml j a b zs :
  concat_mapM (scan_page_sources get pml j) (zrange a b) = Ok zs ->
  StronglySorted src_lt zs.
Proof.
  intros Hf. eapply concat_mapM_sorted; [apply zrange_sorted | | | exact Hf].
  - intros i zs' _ Hp. eapply scan_page_sources_sorted; eauto.
  - intros i i' zs1 zs2 y y' Hlt H1 H2 Hy Hy'.
    destruct (scan_page_sources_in _ _ _ _ _ _ H1 Hy) as [s [r [_ [_ [-> _]]]]].
    destruct (scan_page_sources_in _ _ _ _ _ _ H2 Hy') as [s' [r' [_ [_ [-> _]]]]].
    cbn. right. split; [reflexivity|]. left. exact Hlt.
Qed.

(** X4 ([Table::scan_db_from]): if the partition's first page [fp] can be
    fetched, the rows of [scan_db_from start] are [Schema::parse] applied
    to a list of local records tagged with (file_id, page_id, slot); a
    tagged record is in it exactly when its file is [start]'s file, its
    page lies in [start.page_id .. num_pages], has type [Data] and the
    [p_min_len] of [fp], and the record is among that page's local
    records; the list is strictly ascending in (page_id, slot). *)
Theorem scan_db_from_selected_records u f np get t start rows pp0 fp :
  nth_error (partition_pointer t) 0 = Some pp0 ->
  get pp0 = Some fp ->
  scan_db_from u f np get t start = Ok rows ->
  let pml := PageHeader.p_min_len (header fp) in
  exists srcs,
    scan_db_from_sources np get pml start = Ok srcs /\
    mapM (Schema_parse u f (schema t)) (map src_record srcs) = Ok rows /\
    (forall j i s r,
       In (j, i, s, r) srcs <->
       j = file_id start /\ page_id start <= i < np j /\
       exists page l,
         get {| page_id := i; file_id := j |} = Some page /\
         PageHeader.ty (header page) = Data /\
         PageHeader.p_min_len (header page) = pml /\
         local_records_idx page = Ok l /\ In (s, r) l) /\
    StronglySorted src_lt srcs.
Proof.
  intros Hpp Hfp H pml.
  unfold scan_db_from in H.
  change (index (partition_pointer t) 0) with (unwrap (nth_error (partition_pointer t) 0)) in H.
  rewrite Hpp in H. cbn [unwrap pbind] in H. rewrite Hfp in H. cbn [unwrap pbind] in H.
  fold pml in H.
  rewrite (concat_mapM_pmap _ _ src_record _ (select_page_records_sources get pml (file_id start)))
    in H.
  fold (scan_db_from_sources np get pml start) in H. unfold pmap in H.
  destruct (scan_db_from_sources np get pml start) as [srcs|] eqn:Hs; cbn [pbind] in H;
    [|discriminate].
  exists srcs. split; [reflexivity|]. split; [exact H|].
  unfold scan_db_from_sources in Hs. split.
  - intros j i s r. split.
    + intros Hin.
      destruct (proj2 (concat_mapM_in _ _ _ Hs) _ Hin) as [i' [zs [Hi [Hp Hy]]]].
      destruct (scan_page_sources_in _ _ _ _ _ _ Hp Hy)
        as [s' [r' [page [l [E [Hg [Ht [Hm [Hl Hsr]]]]]]]]].
      injection E as -> -> -> ->. apply zrange_in in Hi.
      split; [reflexivity|]. split; [lia|].
      exists page, l. repeat split; assumption.
    + intros [-> [Hi [page [l [Hg [Ht [Hm [Hl Hsr]]]]]]]].
      destruct (proj1 (concat_mapM_in _ _ _ Hs) i (proj2 (zrange_in _ _ _) Hi))
        as [zs [Hp Hsub]].
      destruct (scan_page_sources_complete get pml (file_id start) i page l s r Hg Ht Hm Hl Hsr)
        as [zs' [Hp' Hin]].
      rewrite Hp in Hp'. injection Hp' as <-. apply Hsub. exact Hin.
  - eapply scan_range_sources_sorted. exact Hs.
Qed.

Lemma scan_db_from_selected_records_witness :
  scan_db_from utf16_units ascii_ok ex_num_pages ex_get ex_table {| page_id := 0; file_id := 1 |} =
    Ok (firstn 2 ex_scan_rows) /\
  exists srcs,
    scan_db_from_sources ex_num_pages ex_get 6 {| page_id := 0; file_id := 1 |} = Ok srcs /\
    StronglySorted src_lt srcs.
Proof.
  assert (Hscan : scan_db_from utf16_units ascii_ok ex_num_pages ex_get ex_table
                    {| page_id := 0; file_id := 1 |} = Ok (firstn 2 ex_scan_rows))
    by (vm_compute; reflexivity).
  split; [exact Hscan|].
  destruct (scan_db_from_selected_records utf16_units ascii_ok ex_num_pages ex_get ex_table
              {| page_id := 0; file_id := 1 |} (firstn 2 ex_scan_rows) {| page_id := 0; file_id := 1 |}
              (mk_page 0 1 6 Data [ex_bits_record_bytes; ex_bits_record_bytes'])
              eq_refl eq_refl Hscan)
    as [srcs [Hs [_ [_ Hsorted]]]].
  exists srcs. split; [exact Hs | exact Hsorted].
Defined.

Lemma write_contents_fold (b : LobDataBlocks) acc :
  fold_left (fun acc '(_, d) => acc ++ d) b acc = acc ++ concat (map snd b).
Proof.
  revert acc; induction b as [|[o d] t IH]; intros acc; cbn.
  - rewrite app_nil_r. reflexivity.
  - rewrite IH, app_assoc. reflexivity.
Qed.

Lemma lob_length_acc_ok len (b : LobDataBlocks) :
  0 <= len -> len + Z.of_nat (length (concat (map snd b))) < 2 ^ 64 ->
  lob_length_acc len b = Ok (len + Z.of_nat (length (concat (map snd b)))).
Proof.
  revert len; induction b as [|[o d] t IH]; intros len H0 H; cbn [lob_length_acc].
  - cbn [map concat length Z.of_nat]. rewrite Z.add_0_r. reflexivity.
  - cbn [map concat snd] in *. rewrite length_app, Nat2Z.inj_add in *.
    destruct (2 ^ 64 <=? len + Z.of_nat (length d)) eqn:E.
    + apply Z.leb_le in E. lia.
    + rewrite IH by lia. f_equal. lia.
Qed.

(** X5 ([LobDataBlocks::write_to_file], [LobDataBlocks::length]): the file
    written holds the blocks' bytes concatenated in block order, whatever
    their offsets, and [length] is the size of that content truncated to
    32 bits (as long as the sum fits a 64-bit [usize]). *)
Theorem LobDataBlocks_length_contents (b : LobDataBlocks) :
  Z.of_nat (length (LobDataBlocks_write_contents b)) < 2 ^ 64 ->
  LobDataBlocks_write_contents b = concat (map snd b) /\
  LobDataBlocks_length b = Ok (Z.of_nat (length (LobDataBlocks_write_contents b)) mod 2 ^ 32).
Proof.
  unfold LobDataBlocks_write_contents. rewrite write_contents_fold. cbn [app]. intros H.
  split; [reflexivity|]. unfold LobDataBlocks_length.
  rewrite lob_length_acc_ok by lia. reflexivity.
Qed.

Lemma LobDataBlocks_length_contents_witness :
  Z.of_nat (length (LobDataBlocks_write_contents [(3, [1; 2; 3]); (0, [4])])) < 2 ^ 64 /\
  LobDataBlocks_write_contents [(3, [1; 2; 3]); (0, [4])] = [1; 2; 3; 4] /\
  LobDataBlocks_length [(3, [1; 2; 3]); (0, [4])] = Ok 4.
Proof.
  assert (H : Z.of_nat (length (LobDataBlocks_write_contents [(3, [1; 2; 3]); (0, [4])])) < 2 ^ 64)
    by (vm_compute; reflexivity).
  split; [exact H|].
  exact (LobDataBlocks_length_contents [(3, [1; 2; 3]); (0, [4])] H).
Defined.

Lemma local_loop_fuel p n m i :
  0 <= i -> (Z.to_nat (PageHeader.slot_count (header p) - i) <= n)%nat ->
  (Z.to_nat (PageHeader.slot_count (header p) - i) <= m)%nat ->
  local_loop p n i = local_loop p m i.
Proof.
  revert m i; induction n as [|n IH]; intros m i Hi Hn Hm.
  - destruct m as [|m]; cbn; [reflexivity|].
    rewrite (proj2 (Z.leb_le _ _)) by lia. reflexivity.
  - destruct m as [|m]; cbn.
    + rewrite (proj2 (Z.leb_le _ _)) by lia. reflexivity.
    + destruct (PageHeader.slot_count (header p) <=? i) eqn:E; [reflexivity|].
      apply Z.leb_gt in E.
      destruct (RawPage_record p i) as [[r|]|]; cbn [pbind]; try reflexivity.
      rewrite (IH m (i + 1)) by lia. reflexivity.
Qed.

Lemma RecordIterator_collect_S get local f p i :
  RecordIterator_collect get local (S f) p i =
  match RecordIterator_next get local p i with
  | Panic => Some Panic
  | Ok None => Some (Ok [])
  | Ok (Some (r, p', i')) =>
      match RecordIterator_collect get local f p' i' with
      | None => None
      | Some Panic => Some Panic
      | Some (Ok rs) => Some (Ok (r :: rs))
      end
  end.
Proof. reflexivity. Qed.

Lemma RecordIterator_collect_local get p n i :
  0 <= i -> PageHeader.slot_count (header p) <= 65535 ->
  (Z.to_nat (PageHeader.slot_count (header p) - i) <= n)%nat ->
  RecordIterator_collect get true (S n) p i = Some (pmap (map snd) (local_loop p n i)).
Proof.
  revert i; induction n as [|n IH]; intros i Hi Hs Hn;
    rewrite RecordIterator_collect_S; unfold RecordIterator_next.
  - rewrite (proj2 (Z.leb_le _ _)) by lia. cbn.
    destruct (PageHeader.next_page_ptr (header p)); reflexivity.
  - destruct (PageHeader.slot_count (header p) <=? i) eqn:E.
    + cbn. rewrite E. destruct (PageHeader.next_page_ptr (header p)); reflexivity.
    + apply Z.leb_gt in E. unfold RecordIterator_read. cbn [local_loop].
      rewrite (proj2 (Z.leb_gt _ _) E).
      unfold u16_incr. rewrite (proj2 (Z.ltb_ge _ _)) by lia.
      destruct (RawPage_record p i) as [[r|]|]; cbn [pbind]; try reflexivity.
      rewrite IH by lia. unfold pmap.
      destruct (local_loop p n (i + 1)); reflexivity.
Qed.

(** X6 ([RawPage::local_records], [RecordIterator::next] with
    [local = true]): the local iterator never leaves its page: whatever
    the page provider and the page's [next_page_ptr], pulling it to its
    end takes at most [slot_count + 1] calls and yields [local_records],
    each of whose records is the record of a slot [s] of this page with
    [0 <= s < slot_count]. *)
Theorem local_iterator_stays_on_page get p n :
  PageHeader.slot_count (header p) <= 65535 ->
  (Z.to_nat (PageHeader.slot_count (header p)) <= n)%nat ->
  RecordIterator_collect get true (S n) p 0 = Some (local_records p) /\
  (forall rs r, local_records p = Ok rs -> In r rs ->
     exists s, 0 <= s < PageHeader.slot_count (header p) /\ RawPage_record p s = Ok (Some r)).
Proof.
  intros Hs Hn. split.
  - rewrite RecordIterator_collect_local by (rewrite ?Z.sub_0_r; lia).
    unfold local_records, local_records_idx, pmap.
    rewrite (local_loop_fuel p n (Z.to_nat (PageHeader.slot_count (header p))) 0)
      by (rewrite ?Z.sub_0_r; lia).
    reflexivity.
  - intros rs r Hl Hr. unfold local_records in Hl.
    destruct (local_records_idx p) as [l|] eqn:E; cbn in Hl; [|discriminate].
    injection Hl as <-. apply in_map_iff in Hr as [[s r'] [Hr Hin]]. cbn in Hr. subst r'.
    unfold local_records_idx in E. exists s.
    destruct (local_loop_spec _ _ _ _ E) as [H _]. destruct (H _ _ Hin) as [H1 H2].
    split; [|exact H2]. split; [exact H1|].
    unfold RawPage_record in H2.
    destruct (PageHeader.slot_count (header p) <=? s) eqn:Es; [discriminate|].
    apply Z.leb_gt in Es. exact Es.
Qed.

Lemma local_iterator_stays_on_page_witness :
  (PageHeader.slot_count (header (mk_page 0 1 6 Data [ex_bits_record_bytes; ex_bits_record_bytes']))
     <= 65535 /\
   (Z.to_nat (PageHeader.slot_count
      (header (mk_page 0 1 6 Data [ex_bits_record_bytes; ex_bits_record_bytes']))) <= 2)%nat) /\
  RecordIterator_collect ex_get true 3
    (mk_page 0 1 6 Data [ex_bits_record_bytes; ex_bits_record_bytes']) 0 =
  Some (local_records (mk_page 0 1 6 Data [ex_bits_record_bytes; ex_bits_record_bytes'])).
Proof.
  assert (H1 : PageHeader.slot_count
     (header (mk_page 0 1 6 Data [ex_bits_record_bytes; ex_bits_record_bytes'])) <= 65535)
    by (vm_compute; discriminate).
  assert (H2 : (Z.to_nat (PageHeader.slot_count
      (header (mk_page 0 1 6 Data [ex_bits_record_bytes; ex_bits_record_bytes']))) <= 2)%nat)
    by (vm_compute; lia).
  split; [split; assumption|].
  exact (proj1 (local_iterator_stays_on_page ex_get
    (mk_page 0 1 6 Data [ex_bits_record_bytes; ex_bits_record_bytes']) 2 H1 H2)).
Defined.

(** X7 ([RecordIterator::next] with [local = false], as used by
    [RawPage::records] and [into_records]): once the current page is
    exhausted, iteration ends if the page has no [next_page_ptr] or the
    provider does not have that page; otherwise it moves to slot 0 of the
    next page, so an empty next page ends the whole iteration (pages
    linked after it are not reached), and a non-empty one continues
    exactly as iterating that page from its start. *)
Theorem records_page_transition get p i f :
  PageHeader.slot_count (header p) <= i ->
  (PageHeader.next_page_ptr (header p) = None ->
     RecordIterator_collect get false (S f) p i = Some (Ok [])) /\
  (forall ptr, PageHeader.next_page_ptr (header p) = Some ptr -> get ptr = None ->
     RecordIterator_collect get false (S f) p i = Some (Ok [])) /\
  (forall ptr q, PageHeader.next_page_ptr (header p) = Some ptr -> get ptr = Some q ->
     PageHeader.slot_count (header q) <= 0 ->
     RecordIterator_collect get false (S f) p i = Some (Ok [])) /\
  (forall ptr q, PageHeader.next_page_ptr (header p) = Some ptr -> get ptr = Some q ->
     0 < PageHeader.slot_count (header q) ->
     RecordIterator_collect get false (S f) p i = RecordIterator_collect get false (S f) q 0).
Proof.
  intros Hi. rewrite !RecordIterator_collect_S. unfold RecordIterator_next.
  rewrite (proj2 (Z.leb_le _ _) Hi).
  split; [intros -> ; reflexivity|]. split; [intros ptr -> ->; reflexivity|].
  split.
  - intros ptr q -> -> Hq. cbv beta iota. unfold RecordIterator_read, RawPage_record.
    rewrite (proj2 (Z.leb_le _ _) Hq). reflexivity.
  - intros ptr q -> -> Hq. rewrite (RecordIterator_collect_S get false f q 0).
    unfold RecordIterator_next. cbv beta iota. rewrite (proj2 (Z.leb_gt _ _) Hq). reflexivity.
Qed.

Lemma records_page_transition_witness :
  PageHeader.slot_count (header (with_next (mk_page 0 1 6 Data [ex_bits_record_bytes])
                                   (Some {| page_id := 1; file_id := 1 |}))) <= 1 /\
  RecordIterator_collect ex_chain_get false 1
    (with_next (mk_page 0 1 6 Data [ex_bits_record_bytes]) (Some {| page_id := 1; file_id := 1 |})) 1 =
    Some (Ok []).
Proof.
  assert (H : PageHeader.slot_count (header (with_next (mk_page 0 1 6 Data [ex_bits_record_bytes])
                                   (Some {| page_id := 1; file_id := 1 |}))) <= 1)
    by (vm_compute; discriminate).
  split; [exact H|].
  destruct (records_page_transition ex_chain_get
    (with_next (mk_page 0 1 6 Data [ex_bits_record_bytes]) (Some {| page_id := 1; file_id := 1 |}))
    1 0 H) as [_ [_ [H3 _]]].
  apply (H3 {| page_id := 1; file_id := 1 |}
            (with_next (mk_page 1 1 6 Data []) (Some {| page_id := 2; file_id := 1 |})));
    vm_compute; [reflexivity | reflexivity | discriminate].
Defined.




Lemma read_u16_at_ok bs a :
  0 <= a -> a + 2 <= Z.of_nat (length bs) ->
  read_u16_at bs a = Ok (le_value (firstn 2 (skipn (Z.to_nat a) bs))).
Proof.
  intros H1 H2. unfold read_u16_at, read_u16. rewrite slice_ok by lia. cbn [pbind].
  rewrite read_le_ok by (rewrite length_firstn, length_skipn; lia).
  rewrite firstn_firstn. replace (Init.Nat.min 2 (Z.to_nat (a + 2 - a))) with 2%nat by lia.
  reflexivity.
Qed.

Lemma read_u16_at_oob bs a :
  0 <= a -> Z.of_nat (length bs) < a + 2 -> read_u16_at bs a = Panic.
Proof. intros H1 H2. unfold read_u16_at. rewrite slice_oob by lia. reflexivity. Qed.

Ltac lob_unfold :=
  unfold LobEntry_parse, LobSmallRoot_parse, LobLargeRootYukon_parse, LobData_parse,
    LobInternal_parse, lob_type_checked, LobType_parse, omap,
    read_u16, read_u64.

Lemma LobType_parse_short r :
  (length (fixed_data r) < 10)%nat -> LobEntry_parse r = Panic.
Proof. intros H. lob_unfold. rewrite slice_oob by lia. reflexivity. Qed.

(** X9 ([LobEntry::parse] with [LobType::parse], [LobData::parse],
    [LobLargeRootYukon::parse], [LobInternal::parse]): on a record whose
    fixed data has at least 10 bytes, the u16 type code at offset 8
    selects the entry: 3 gives a [Data] entry holding every byte from
    offset 10 on; 5 and 2 give a [LargeRootYukon] and an [Internal] node
    whose [max_links], [cur_links] and [level] are the u16 at offsets 10,
    12 and 14 (and panic when the fixed data is shorter than 16 bytes);
    8 ([Null]) and unknown codes give [None]. The [blob_id] is the u64 at
    offset 0, and the [assert_eq!] on the type never fails. *)
Theorem LobEntry_parse_nodes r :
  let fd := fixed_data r in
  (10 <= length fd)%nat ->
  (le_at fd 8 2 = 3 ->
     LobEntry_parse r = Ok (Some (LobEntry.Data
       {| LobData.blob_id := le_at fd 0 8; LobData.ty := LobType.Data;
          LobData.data := skipn 10 fd |}))) /\
  (le_at fd 8 2 = 5 -> (16 <= length fd)%nat ->
     LobEntry_parse r = Ok (Some (LobEntry.LargeRootYukon
       {| LobLargeRootYukon.blob_id := le_at fd 0 8;
          LobLargeRootYukon.ty := LobType.LargeRootYukon;
          LobLargeRootYukon.max_links := le_at fd 10 2;
          LobLargeRootYukon.cur_links := le_at fd 12 2;
          LobLargeRootYukon.level := le_at fd 14 2;
          LobLargeRootYukon.record := r |}))) /\
  (le_at fd 8 2 = 2 -> (16 <= length fd)%nat ->
     LobEntry_parse r = Ok (Some (LobEntry.Internal
       {| LobInternal.blob_id := le_at fd 0 8;
          LobInternal.ty := LobType.Internal;
          LobInternal.max_links := le_at fd 10 2;
          LobInternal.cur_links := le_at fd 12 2;
          LobInternal.level := le_at fd 14 2;
          LobInternal.record := r |}))) /\
  ((le_at fd 8 2 = 5 \/ le_at fd 8 2 = 2) -> (length fd < 16)%nat ->
     LobEntry_parse r = Panic) /\
  (~ In (le_at fd 8 2) [0; 2; 3; 5] -> LobEntry_parse r = Ok None).
Proof.
  cbv zeta. intros H10. unfold le_at.
  lob_unfold. rewrite !slice_read by lia. zn.
  split; [|split; [|split; [|split]]].
  - intros Ht. rewrite Ht. cbn [pbind rust_assert LobType.eqb option_map].
    rewrite slice_from_ok by lia. zn. reflexivity.
  - intros Ht H16. rewrite Ht. cbn [pbind rust_assert LobType.eqb option_map].
    rewrite !read_u16_at_ok by lia. zn. reflexivity.
  - intros Ht H16. rewrite Ht. cbn [pbind rust_assert LobType.eqb option_map].
    rewrite !read_u16_at_ok by lia. zn. reflexivity.
  - intros [Ht|Ht] H16; rewrite Ht; cbn [pbind rust_assert LobType.eqb option_map].
    all: destruct (Nat.lt_ge_cases (length (fixed_data r)) 12);
      [rewrite read_u16_at_oob by lia; reflexivity|].
    all: rewrite (read_u16_at_ok _ 10) by lia; cbn [pbind].
    all: destruct (Nat.lt_ge_cases (length (fixed_data r)) 14);
      [rewrite read_u16_at_oob by lia; reflexivity|].
    all: rewrite (read_u16_at_ok _ 12) by lia; cbn [pbind].
    all: rewrite read_u16_at_oob by lia; reflexivity.
  - intros Hn. cbn [In] in Hn.
    destruct (le_value (firstn 2 (skipn 8 (fixed_data r)))) as [|p|p];
      [tauto| |reflexivity].
    do 4 (try destruct p as [p|p|]).
    all: try reflexivity.
    all: exfalso; apply Hn; cbn; tauto.
Qed.

Lemma LobEntry_parse_nodes_witness :
  (10 <= length (fixed_data ex_data_record))%nat /\ le_at (fixed_data ex_data_record) 8 2 = 3 /\
  LobEntry_parse ex_data_record = Ok (Some (LobEntry.Data
    {| LobData.blob_id := 0; LobData.ty := LobType.Data; LobData.data := [7; 8; 9] |})).
Proof.
  assert (H1 : (10 <= length (fixed_data ex_data_record))%nat) by (vm_compute; lia).
  assert (H2 : le_at (fixed_data ex_data_record) 8 2 = 3) by (vm_compute; reflexivity).
  split; [exact H1|]. split; [exact H2|].
  exact (proj1 (LobEntry_parse_nodes ex_data_record H1) H2).
Defined.

(** X10 ([LobEntry::parse] with [LobSmallRoot::parse]): on a record whose
    fixed data has at least 10 bytes and type code 0, the entry is a
    [SmallRoot] whose [length] [L] is the u16 at offset 10 and whose data
    is the [L] bytes from offset 16; it panics when the fixed data has
    fewer than 12 bytes or fewer than [16 + L] bytes. *)
Theorem LobEntry_parse_small_root r :
  let fd := fixed_data r in
  (10 <= length fd)%nat -> le_at fd 8 2 = 0 ->
  ((length fd < 12)%nat -> LobEntry_parse r = Panic) /\
  ((12 <= length fd)%nat -> Z.of_nat (length fd) < 16 + le_at fd 10 2 ->
     LobEntry_parse r = Panic) /\
  (0 <= le_at fd 10 2 -> 16 + le_at fd 10 2 <= Z.of_nat (length fd) ->
     LobEntry_parse r = Ok (Some (LobEntry.SmallRoot
       {| LobSmallRoot.blob_id := le_at fd 0 8; LobSmallRoot.ty := LobType.SmallRoot;
          LobSmallRoot.length := le_at fd 10 2;
          LobSmallRoot.data := firstn (Z.to_nat (le_at fd 10 2)) (skipn 16 fd) |}))).
Proof.
  cbv zeta. intros H10 Ht. unfold le_at in *.
  lob_unfold. rewrite !slice_read by lia. zn. rewrite Ht.
  cbn [pbind rust_assert LobType.eqb option_map].
  split; [|split].
  - intros H. rewrite read_u16_at_oob by lia. reflexivity.
  - intros H H'. rewrite read_u16_at_ok by lia. zn. cbn [pbind].
    rewrite slice_oob by lia. reflexivity.
  - intros H0 H. rewrite read_u16_at_ok by lia. zn. cbn [pbind].
    rewrite slice_ok by lia. zn. rewrite Z.add_simpl_l. reflexivity.
Qed.

Lemma LobEntry_parse_small_root_witness :
  (10 <= length (fixed_data ex_small_root_record))%nat /\
  le_at (fixed_data ex_small_root_record) 8 2 = 0 /\
  LobEntry_parse ex_small_root_record = Ok (Some (LobEntry.SmallRoot
    {| LobSmallRoot.blob_id := 1; LobSmallRoot.ty := LobType.SmallRoot;
       LobSmallRoot.length := 2; LobSmallRoot.data := [7; 8] |})).
Proof.
  assert (H1 : (10 <= length (fixed_data ex_small_root_record))%nat) by (vm_compute; lia).
  assert (H2 : le_at (fixed_data ex_small_root_record) 8 2 = 0) by (vm_compute; reflexivity).
  assert (H3 : 0 <= le_at (fixed_data ex_small_root_record) 10 2) by (vm_compute; discriminate).
  assert (H4 : 16 + le_at (fixed_data ex_small_root_record) 10 2 <=
               Z.of_nat (length (fixed_data ex_small_root_record))) by (vm_compute; discriminate).
  split; [exact H1|]. split; [exact H2|].
  exact (proj2 (proj2 (LobEntry_parse_small_root ex_small_root_record H1 H2)) H3 H4).
Defined.

Lemma index_ok (bs : list Z) i :
  0 <= i < Z.of_nat (length bs) -> index bs i = Ok (nth (Z.to_nat i) bs 0).
Proof.
  intros H. unfold index. rewrite (proj2 (Z.leb_le _ _)) by lia.
  rewrite (nth_error_nth' bs 0) by lia. reflexivity.
Qed.

Lemma PagePointer_parse_slice {B} d a (k : option PagePointer -> Panicky B) :
  0 <= a -> a + 6 <= Z.of_nat (length d) ->
  pbind (slice d a (a + 6)) (fun s => pbind (PagePointer_parse s) k) =
  k (if le_at d (Z.to_nat a + 4) 2 =? 0 then None
     else Some {| page_id := le_at d (Z.to_nat a) 4; file_id := le_at d (Z.to_nat a + 4) 2 |}).
Proof.
  intros H1 H2. rewrite slice_ok by lia. cbn [pbind].
  rewrite PagePointer_parse_spec by (rewrite length_firstn, length_skipn; lia).
  cbv zeta. replace (Z.to_nat (a + 6 - a)) with 6%nat by lia.
  rewrite skipn_firstn_comm, !firstn_firstn, skipn_skipn. cbn [Nat.min Nat.sub].
  unfold le_at. rewrite (Nat.add_comm 4).
  destruct (_ =? 0); reflexivity.
Qed.

(** X11 ([RawPage::parse], [PageHeader::parse], [PageHeader::parse_ptr],
    [PagePointer::parse]): parsing a page panics when the buffer is
    shorter than 8192 bytes, or when the page's own pointer (offset 32)
    has file id 0; otherwise the page keeps the first 8192 bytes and its
    header holds the type byte 1 and level byte 3 and the little-endian
    fields index_id (offset 6), p_min_len (14), slot_count (22),
    object_id (24, u32), the previous and next page pointers (offsets 8
    and 16, [None] when their file id is 0) and the page's own pointer. *)
Theorem RawPage_parse_layout d :
  (Z.of_nat (length d) < 8192 -> RawPage_parse d = Panic) /\
  (8192 <= Z.of_nat (length d) -> le_at d 36 2 = 0 -> RawPage_parse d = Panic) /\
  (8192 <= Z.of_nat (length d) -> le_at d 36 2 <> 0 ->
   RawPage_parse d =
     Ok {| header :=
             {| PageHeader.ptr := {| page_id := le_at d 32 4; file_id := le_at d 36 2 |};
                PageHeader.slot_count := le_at d 22 2;
                PageHeader.level := nth 3 d 0;
                PageHeader.p_min_len := le_at d 14 2;
                PageHeader.ty := PageType_parse (nth 1 d 0);
                PageHeader.object_id := le_at d 24 4;
                PageHeader.index_id := le_at d 6 2;
                PageHeader.prev_page_ptr :=
                  if le_at d 12 2 =? 0 then None
                  else Some {| page_id := le_at d 8 4; file_id := le_at d 12 2 |};
                PageHeader.next_page_ptr :=
                  if le_at d 20 2 =? 0 then None
                  else Some {| page_id := le_at d 16 4; file_id := le_at d 20 2 |} |};
           data := firstn (Z.to_nat 8192) d |}).
Proof.
  unfold RawPage_parse, PageHeader_parse, PageHeader_parse_ptr.
  split; [|split].
  - intros H. destruct (Nat.lt_ge_cases (length d) 38).
    + destruct (Nat.lt_ge_cases (length d) 32).
      * rewrite slice_from_oob by lia. reflexivity.
      * rewrite slice_from_ok by lia. cbn [pbind]. rewrite PagePointer_parse_short
          by (rewrite length_skipn; lia). reflexivity.
    + rewrite slice_from_ok by lia. cbn [pbind].
      rewrite PagePointer_parse_spec by (rewrite length_skipn; lia). cbv zeta. zn.
      rewrite skipn_skipn. cbn [Nat.add].
      destruct (_ =? 0); cbn [pbind unwrap]; [reflexivity|].
      rewrite !index_ok by lia. cbn [pbind]. unfold read_u16, read_u32.
      rewrite !slice_read by lia. rewrite !PagePointer_parse_slice by lia. cbn [pbind].
      rewrite slice_oob by lia. reflexivity.
  - intros H Hz. rewrite slice_from_ok by lia. cbn [pbind].
    rewrite PagePointer_parse_spec by (rewrite length_skipn; lia). cbv zeta. zn.
    rewrite skipn_skipn. cbn [Nat.add]. unfold le_at in Hz. rewrite Hz. reflexivity.
  - intros H Hz. rewrite slice_from_ok by lia. cbn [pbind].
    rewrite PagePointer_parse_spec by (rewrite length_skipn; lia). cbv zeta. zn.
    rewrite skipn_skipn. cbn [Nat.add]. unfold le_at in Hz |- *.
    rewrite (proj2 (Z.eqb_neq _ _) Hz). cbn [pbind unwrap].
    rewrite !index_ok by lia. cbn [pbind]. unfold read_u16, read_u32.
    rewrite !slice_read by lia. rewrite !PagePointer_parse_slice by lia. cbn [pbind].
    rewrite slice_ok by lia. rewrite Z.sub_0_r, skipn_O. cbn [pbind]. unfold le_at. reflexivity.
Qed.

Lemma RawPage_parse_layout_witness :
  (8192 <= Z.of_nat (length ex_page_bytes) /\ le_at ex_page_bytes 36 2 <> 0) /\
  exists p, RawPage_parse ex_page_bytes = Ok p /\
    PageHeader.ptr (header p) = {| page_id := 7; file_id := 1 |} /\
    PageHeader.ty (header p) = Data /\ PageHeader.next_page_ptr (header p) = None.
Proof.
  assert (H1 : 8192 <= Z.of_nat (length ex_page_bytes)) by (vm_compute; discriminate).
  assert (H2 : le_at ex_page_bytes 36 2 <> 0) by (vm_compute; discriminate).
  split; [split; assumption|].
  eexists. split; [exact (proj2 (proj2 (RawPage_parse_layout ex_page_bytes)) H1 H2)|].
  vm_compute. repeat split.
Defined.

Lemma index_inv (bs : list Z) i x :
  index bs i = Ok x -> x = nth (Z.to_nat i) bs 0 /\ 0 <= i < Z.of_nat (length bs).
Proof.
  unfold index. destruct (0 <=? i) eqn:E; [|discriminate]. apply Z.leb_le in E.
  destruct (nth_error bs (Z.to_nat i)) eqn:En; cbn; [|discriminate].
  intros H; injection H as <-. split.
  - symmetry. apply nth_error_nth. exact En.
  - split; [lia|]. assert (Hn : nth_error bs (Z.to_nat i) <> None) by congruence.
    apply nth_error_Some in Hn. lia.
Qed.

Lemma slice_inv bs a b s :
  slice bs a b = Ok s ->
  s = firstn (Z.to_nat (b - a)) (skipn (Z.to_nat a) bs) /\ 0 <= a <= b /\ b <= Z.of_nat (length bs).
Proof.
  unfold slice. destruct (_ && _ && _) eqn:E; [|discriminate].
  apply andb_prop in E as [E E3]. apply andb_prop in E as [E1 E2].
  apply Z.leb_le in E1, E2, E3. intros H; injection H as <-. split; [reflexivity|lia].
Qed.

Lemma slice_from_inv bs a s :
  slice_from bs a = Ok s -> s = skipn (Z.to_nat a) bs /\ 0 <= a <= Z.of_nat (length bs).
Proof.
  unfold slice_from. destruct (_ && _) eqn:E; [|discriminate].
  apply andb_prop in E as [E1 E2]. apply Z.leb_le in E1, E2.
  intros H; injection H as <-. split; [reflexivity|lia].
Qed.

Lemma read_le_inv n s v :
  read_le n s = Ok v -> v = le_value (firstn n s) /\ (n <= length s)%nat.
Proof.
  unfold read_le. destruct (n <=? length s)%nat eqn:E; [|discriminate].
  apply Nat.leb_le in E. intros H; injection H as <-. split; [reflexivity|lia].
Qed.

Lemma pbind_Ok {A B} (x : A) (k : A -> Panicky B) : pbind (Ok x) k = k x.
Proof. reflexivity. Qed.

Lemma Ok_inj {A} (x y : A) : Ok x = Ok y -> x = y.
Proof. intros H; injection H; auto. Qed.

Lemma Some_inj' {A} (x y : A) : Some x = Some y -> x = y.
Proof. intros H; injection H; auto. Qed.

Ltac rp_inv :=
  repeat match goal with
  | H : pbind ?m _ = _ |- _ =>
      let E := fresh "E" in destruct m eqn:E;
      [rewrite pbind_Ok in H; cbv beta in H | discriminate H]
  | H : Ok None = Ok (Some _) |- _ => discriminate H
  | H : None = Some _ |- _ => discriminate H
  | H : Ok _ = Ok _ |- _ => apply Ok_inj in H; subst
  | H : Some _ = Some _ |- _ => apply Some_inj' in H; subst
  | H : Panic = Ok _ |- _ => discriminate H
  | H : (if ?b then _ else _) = _ |- _ =>
      let E := fresh "B" in destruct b eqn:E; try discriminate H
  | H : match ?o with Some _ => _ | None => _ end = _ |- _ =>
      let E := fresh "O" in destruct o eqn:E; cbv beta iota in H; try discriminate H
  | H : (let (_, _) := ?p in _) = _ |- _ => destruct p; cbv beta iota in H
  end.

(** X12 ([Record::parse] on a non-index page): when a record decodes,
    with [offs] the u16 at offset 2 and [cc] the u16 at [offs], the record
    keeps tag_a = byte 0 >> 4, tag_b = bit 0 of byte 1, the fixed data at
    bytes [4 .. offs], column_count [cc]; the null bitmap is present
    exactly when tag_a has [HAS_NULL_BITMAP] and is then the
    [(cc + 7) / 8] bytes after the column count, read LSB first; the
    variable-length columns are present exactly when tag_a has
    [HAS_VAR_LENGTH_COLUMNS], their count is the u16 right after the
    bitmap and their data and base offset start 2 bytes after that
    count. Moreover [offs >= 4] and the count and bitmap fit in the
    buffer. *)
Theorem Record_parse_layout data pml r :
  Record_parse data false pml = Ok (Some r) ->
  let offs := le_at data 2 2 in
  let ta := Z.shiftr (nth 0 data 0) 4 in
  let cc := le_at data (Z.to_nat offs) 2 in
  let nb := if contains ta HAS_NULL_BITMAP then (cc + 7) / 8 else 0 in
  4 <= offs /\ offs + 2 + nb <= Z.of_nat (length data) /\
  tag_a r = ta /\ tag_b r = Z.land (nth 1 data 0) 1 /\
  fixed_data r = firstn (Z.to_nat (offs - 4)) (skipn 4 data) /\
  column_count r = cc /\
  null_bitmap r =
    (if contains ta HAS_NULL_BITMAP
     then Some (bits_lsb0 (firstn (Z.to_nat nb) (skipn (Z.to_nat (offs + 2)) data)))
     else None) /\
  var_length_columns r =
    (if contains ta HAS_VAR_LENGTH_COLUMNS
     then Some {| vl_data := skipn (Z.to_nat (offs + 4 + nb)) data;
                  count := le_at data (Z.to_nat (offs + 2 + nb)) 2;
                  base_offset := offs + 4 + nb |}
     else None).
Proof.
  intros H. unfold Record_parse, read_u16 in H. rp_inv.
  all: repeat match goal with
  | E : index _ _ = Ok _ |- _ => apply index_inv in E as [? ?]; subst
  | E : slice _ _ _ = Ok _ |- _ => apply slice_inv in E as [? ?]; subst
  | E : slice_from _ _ = Ok _ |- _ => apply slice_from_inv in E as [? ?]; subst
  | E : read_le _ _ = Ok _ |- _ => apply read_le_inv in E as [? ?]; subst
  end.
  all: apply Z.ltb_ge in B.
  all: replace (le_value (firstn 2 (firstn (Z.to_nat (4 - 2)) (skipn (Z.to_nat 2) data))))
    with (le_at data 2 2) in * by (unfold le_at; zn; rewrite firstn_firstn; reflexivity).
  all: replace (4 + (le_at data 2 2 - 4)) with (le_at data 2 2) in * by lia.
  all: fold (le_at data (Z.to_nat (le_at data 2 2)) 2) in *.
  all: cbv zeta; cbn [tag_a tag_b fixed_data column_count null_bitmap var_length_columns].
  all: change (Z.to_nat 0) with 0%nat in *; change (Z.to_nat 1) with 1%nat in *;
    change (Z.to_nat 4) with 4%nat in *.
  all: rewrite ?B1, ?B2.
  all: replace (le_at data 2 2 - 4 + 4 - 4) with (le_at data 2 2 - 4) by lia.
  all: rewrite ?length_skipn, ?length_firstn in *.
  all: repeat split; try lia; try reflexivity.
  all: try (rewrite Z.add_simpl_l; reflexivity).
  all: rewrite ?Z.add_0_r.
  all: match goal with
       | |- Some {| vl_data := skipn (Z.to_nat ?x) _ |} =
            Some {| vl_data := skipn (Z.to_nat ?x') _ |} =>
           replace x with x' by lia; reflexivity
       end.
Qed.

Lemma Record_parse_layout_witness :
  Record_parse ex_full_record_bytes false 0 = Ok (Some ex_full_record) /\
  var_length_columns ex_full_record =
    Some {| vl_data := [16; 0; 65; 66]; count := 1; base_offset := 12 |}.
Proof.
  assert (H : Record_parse ex_full_record_bytes false 0 = Ok (Some ex_full_record))
    by (vm_compute; reflexivity).
  split; [exact H|].
  pose proof (Record_parse_layout ex_full_record_bytes 0 ex_full_record H) as L.
  cbv zeta in L. destruct L as [_ [_ [_ [_ [_ [_ [_ L]]]]]]].
  rewrite L. vm_compute. reflexivity.
Defined.

(** X13 ([Record::parse] on an index page): with [p_min_len = 0] the
    length [p_min_len - 1] underflows and parsing always panics; when a
    record decodes, [1 <= p_min_len], [p_min_len + 3] bytes are
    present, tag_b is empty, the fixed data is bytes [4 .. p_min_len + 3]
    and the column count is the u16 at [p_min_len]. *)
Theorem Record_parse_index_mode data pml r :
  Record_parse data true 0 = Panic /\
  (Record_parse data true pml = Ok (Some r) ->
   1 <= pml /\ pml + 3 <= Z.of_nat (length data) /\
   tag_a r = Z.shiftr (nth 0 data 0) 4 /\ tag_b r = 0 /\
   fixed_data r = firstn (Z.to_nat (pml - 1)) (skipn 4 data) /\
   column_count r = le_at data (Z.to_nat pml) 2).
Proof.
  split.
  - unfold Record_parse. destruct (index data 0); [|reflexivity]. rewrite pbind_Ok. cbv beta iota.
    rewrite pbind_Ok. destruct (RecordType_parse _); [|reflexivity]. rewrite pbind_Ok.
    destruct (rust_assert _); reflexivity.
  - intros H. unfold Record_parse, read_u16 in H. rp_inv.
    all: repeat match goal with
    | E : index _ _ = Ok _ |- _ => apply index_inv in E as [? ?]; subst
    | E : slice _ _ _ = Ok _ |- _ => apply slice_inv in E as [? ?]; subst
    | E : slice_from _ _ = Ok _ |- _ => apply slice_from_inv in E as [? ?]; subst
    | E : read_le _ _ = Ok _ |- _ => apply read_le_inv in E as [? ?]; subst
    | E : u16_sub _ _ = Ok _ |- _ => unfold u16_sub in E; rp_inv
    end.
    all: apply Z.ltb_ge in B.
    all: cbn [tag_a tag_b fixed_data column_count].
    all: change (Z.to_nat 4) with 4%nat in *; change (Z.to_nat 0) with 0%nat in *.
    all: rewrite ?length_skipn, ?length_firstn in *.
    all: repeat split; try lia.
    all: try (f_equal; lia).
    all: unfold le_at; reflexivity.
Qed.

Lemma Record_parse_index_mode_witness :
  Record_parse ex_index_record_bytes true 0 = Panic /\
  Record_parse ex_index_record_bytes true 4 = Ok (Some ex_index_record) /\
  fixed_data ex_index_record = firstn (Z.to_nat (4 - 1)) (skipn 4 ex_index_record_bytes) /\
  column_count ex_index_record = le_at ex_index_record_bytes (Z.to_nat 4) 2.
Proof.
  assert (H : Record_parse ex_index_record_bytes true 4 = Ok (Some ex_index_record))
    by (vm_compute; reflexivity).
  pose proof (Record_parse_index_mode ex_index_record_bytes 4 ex_index_record) as [P Q].
  destruct (Q H) as [_ [_ [_ [_ [F C]]]]].
  split; [exact P|]. split; [exact H|]. split; [exact F|exact C].
Defined.

(** X14 ([Record::parse] on a non-index page): it returns [None] only
    when the fixed-data end [offs] (u16 at offset 2) is below 4 or past
    the buffer; conversely, for a buffer of at least 4 bytes of a
    supported record type, such an [offs] gives [None], and an [offs]
    that leaves fewer than 2 bytes for the column count panics. *)
Theorem Record_parse_rejects data pml :
  let offs := le_at data 2 2 in
  (Record_parse data false pml = Ok None ->
   offs < 4 \/ Z.of_nat (length data) < offs) /\
  (forall t, (4 <= length data)%nat ->
   RecordType_parse (Z.shiftr (Z.land (nth 0 data 0) 15) 1) = Ok t ->
   record_type_supported t = true ->
   ((offs < 4 \/ Z.of_nat (length data) < offs) -> Record_parse data false pml = Ok None) /\
   (4 <= offs -> offs <= Z.of_nat (length data) < offs + 2 -> Record_parse data false pml = Panic)).
Proof.
  cbv zeta. split.
  - intros H. unfold Record_parse, read_u16 in H. rp_inv.
    all: repeat match goal with
    | E : index _ _ = Ok _ |- _ => apply index_inv in E as [? ?]; subst
    | E : slice _ _ _ = Ok _ |- _ => apply slice_inv in E as [? ?]; subst
    | E : slice_from _ _ = Ok _ |- _ => apply slice_from_inv in E as [? ?]; subst
    | E : read_le _ _ = Ok _ |- _ => apply read_le_inv in E as [? ?]; subst
    end.
    all: replace (le_value (firstn 2 (firstn (Z.to_nat (4 - 2)) (skipn (Z.to_nat 2) data))))
      with (le_at data 2 2) in * by (unfold le_at; zn; rewrite firstn_firstn; reflexivity).
    all: try match goal with
         | B : (_ <? _) = true |- _ => apply Z.ltb_lt in B; lia
         end.
    all: discriminate.
  - intros t Hl Ht Hs.
    unfold Record_parse.
    rewrite index_ok by lia. rewrite pbind_Ok. cbv beta iota.
    rewrite index_ok by lia. rewrite !pbind_Ok. change (Z.to_nat 0) with 0%nat. rewrite Ht, pbind_Ok.
    unfold rust_assert. rewrite Hs, pbind_Ok.
    unfold read_u16. rewrite slice_read by lia. change (le_value (firstn 2 (skipn (Z.to_nat 2) data))) with (le_at data 2 2).
    split.
    + intros [Ho|Ho].
      * rewrite (proj2 (Z.ltb_lt _ _) Ho). reflexivity.
      * destruct (le_at data 2 2 <? 4); [reflexivity|]. rewrite pbind_Ok.
        replace (4 + (le_at data 2 2 - 4)) with (le_at data 2 2) by lia.
        rewrite (proj2 (Z.ltb_lt _ _) Ho). reflexivity.
    + intros H4 Ho. rewrite (proj2 (Z.ltb_ge _ _)) by lia. rewrite pbind_Ok.
      replace (4 + (le_at data 2 2 - 4)) with (le_at data 2 2) by lia.
      rewrite (proj2 (Z.ltb_ge _ _)) by lia.
      rewrite slice_from_ok by lia. rewrite pbind_Ok.
      rewrite read_le_short; [reflexivity|]. rewrite length_skipn. lia.
Qed.

Lemma Record_parse_rejects_witness :
  Record_parse [0; 0; 2; 0; 170; 1; 9; 0] false 0 = Ok None /\
  Record_parse [0; 0; 6; 0; 170; 1; 9] false 0 = Panic.
Proof.
  split.
  - apply (proj2 (Record_parse_rejects [0; 0; 2; 0; 170; 1; 9; 0] 0) Primary);
      [cbn; lia | reflexivity | reflexivity | left; reflexivity].
  - apply (proj2 (Record_parse_rejects [0; 0; 6; 0; 170; 1; 9] 0) Primary);
      [cbn; lia | reflexivity | reflexivity | vm_compute; discriminate | split; [vm_compute; discriminate | reflexivity]].
Defined.

Lemma cursor_read_inv n c bs c' :
  cursor_read n c = Ok (bs, c') ->
  c' = {| cur_buf := cur_buf c; cur_pos := cur_pos c + n |} /\
  cur_pos c + n <= Z.of_nat (length (cur_buf c)).
Proof.
  unfold cursor_read. destruct (_ <=? _) eqn:E; [|discriminate].
  intros H. apply Ok_inj in H. injection H as _ <-. apply Z.leb_le in E. auto.
Qed.

Lemma cursor_read_le_inv n c v c' :
  cursor_read_le n c = Ok (v, c') ->
  c' = {| cur_buf := cur_buf c; cur_pos := cur_pos c + n |} /\
  cur_pos c + n <= Z.of_nat (length (cur_buf c)).
Proof.
  unfold cursor_read_le. destruct (cursor_read n c) as [[bs c'']|] eqn:E; [|discriminate].
  rewrite pbind_Ok. cbv beta iota. intros H. apply Ok_inj in H. injection H as _ <-.
  apply cursor_read_inv in E. exact E.
Qed.

(** X15 ([SqlType::parse]): a successful fixed-length decode is only
    possible for a fixed-length type; it keeps the cursor's buffer and
    moves the cursor by the type's width ([Bit] by one byte when the bit
    parser has spent its 8 bits, otherwise by none), the bytes read lying
    inside the buffer, and every type but [Bit] leaves the bit parser
    unchanged. *)
Theorem SqlType_parse_consumes u f t bp c v bp' c' :
  SqlType_parse u f t bp c = Ok (v, bp', c') ->
  is_var_length t = false /\ cur_buf c' = cur_buf c /\
  cur_pos c' = cur_pos c +
    (match t with
     | SqlType.Bit => if read_bits bp =? 8 then 1 else 0
     | _ => fixed_width t
     end) /\
  (t <> SqlType.Bit -> bp' = bp /\ cur_pos c' <= Z.of_nat (length (cur_buf c))).
Proof.
  intros H. destruct t; cbn [SqlType_parse] in H;
  try discriminate H;
  repeat match goal with
  | H : pbind ?m _ = _ |- _ =>
      let E := fresh "E" in destruct m as [[[? ?] ?]|] eqn:E;
      [rewrite pbind_Ok in H; cbv beta iota in H | discriminate H]
  | H : pbind ?m _ = _ |- _ =>
      let E := fresh "E" in destruct m as [[? ?]|] eqn:E;
      [rewrite pbind_Ok in H; cbv beta iota in H | discriminate H]
  | H : pbind ?m _ = _ |- _ =>
      let E := fresh "E" in destruct m eqn:E;
      [rewrite pbind_Ok in H; cbv beta iota zeta in H | discriminate H]
  | H : Ok _ = Ok _ |- _ => apply Ok_inj in H; injection H as <- <- <-
  end;
  repeat match goal with
  | E : cursor_read_le _ _ = Ok _ |- _ => apply cursor_read_le_inv in E as [-> ?]
  | E : slice _ _ _ = Ok _ |- _ => apply slice_inv in E as [-> ?]
  end; cbn [cur_buf cur_pos fixed_width is_var_length] in *;
  try (split; [reflexivity|]; split; [reflexivity|]; split; [lia|intros _; split; [reflexivity|lia]]).
  unfold read_bit in E. destruct (read_bits bp =? 8) eqn:B.
  - destruct (cursor_read_le 1 c) as [[? ?]|] eqn:E1; [|discriminate E].
    rewrite !pbind_Ok in E; cbv beta iota in E.
    apply Ok_inj in E. injection E as _ _ <-. apply cursor_read_le_inv in E1 as [-> ?].
    cbn. split; [reflexivity|]; split; [reflexivity|]; split; [lia|]; intros Hb; congruence.
  - rewrite pbind_Ok in E; cbv beta iota in E.
    apply Ok_inj in E. injection E as _ _ <-.
    split; [reflexivity|]; split; [reflexivity|]; split; [lia|]; intros Hb; congruence.
Qed.

Lemma SqlType_parse_consumes_witness :
  SqlType_parse utf16_units ascii_ok SqlType.Int BitParser_new (cursor_new [1; 0; 0; 0; 9]) =
    Ok (SqlValue.Int 1, BitParser_new, {| cur_buf := [1; 0; 0; 0; 9]; cur_pos := 4 |}) /\
  cur_pos {| cur_buf := [1; 0; 0; 0; 9]; cur_pos := 4 |} =
    cur_pos (cursor_new [1; 0; 0; 0; 9]) + fixed_width SqlType.Int.
Proof.
  assert (H : SqlType_parse utf16_units ascii_ok SqlType.Int BitParser_new
                (cursor_new [1; 0; 0; 0; 9]) =
              Ok (SqlValue.Int 1, BitParser_new, {| cur_buf := [1; 0; 0; 0; 9]; cur_pos := 4 |}))
    by (vm_compute; reflexivity).
  split; [exact H|].
  exact (proj1 (proj2 (proj2 (SqlType_parse_consumes _ _ _ _ _ _ _ _ H)))).
Defined.


Lemma to_signed_mod w x :
  0 < w -> - 2 ^ (w - 1) <= x < 2 ^ (w - 1) -> to_signed w (x mod 2 ^ w) = x.
Proof.
  intros Hw Hx. unfold to_signed.
  assert (Hp : 2 ^ w = 2 * 2 ^ (w - 1)).
  { rewrite <- Z.pow_succ_r by lia. f_equal. lia. }
  assert (0 < 2 ^ (w - 1)) by (apply Z.pow_pos_nonneg; lia).
  destruct (Z.ltb_spec x 0).
  - rewrite <- (Z.mod_unique x (2 ^ w) (-1) (x + 2 ^ w)) by lia.
    rewrite (proj2 (Z.ltb_ge _ _)) by lia. lia.
  - rewrite Z.mod_small by lia. rewrite (proj2 (Z.ltb_lt _ _)) by lia. reflexivity.
Qed.


(** X16 ([SqlType::parse] on integers): a [tinyint], [smallint], [int]
    or [bigint] value in its signed range, stored in two's complement
    little-endian at the cursor, decodes to itself and moves the cursor
    by 1, 2, 4 or 8 bytes. *)
Theorem SqlType_parse_int_roundtrip u f bp pre rest x :
  (- 2 ^ 7 <= x < 2 ^ 7 ->
   SqlType_parse u f SqlType.TinyInt bp (cursor_at pre (le_bytes 1 (x mod 2 ^ 8) ++ rest)) =
   Ok (SqlValue.TinyInt x, bp, {| cur_buf := pre ++ le_bytes 1 (x mod 2 ^ 8) ++ rest;
                                 cur_pos := Z.of_nat (length pre) + 1 |})) /\
  (- 2 ^ 15 <= x < 2 ^ 15 ->
   SqlType_parse u f SqlType.SmallInt bp (cursor_at pre (le_bytes 2 (x mod 2 ^ 16) ++ rest)) =
   Ok (SqlValue.SmallInt x, bp, {| cur_buf := pre ++ le_bytes 2 (x mod 2 ^ 16) ++ rest;
                                  cur_pos := Z.of_nat (length pre) + 2 |})) /\
  (- 2 ^ 31 <= x < 2 ^ 31 ->
   SqlType_parse u f SqlType.Int bp (cursor_at pre (le_bytes 4 (x mod 2 ^ 32) ++ rest)) =
   Ok (SqlValue.Int x, bp, {| cur_buf := pre ++ le_bytes 4 (x mod 2 ^ 32) ++ rest;
                             cur_pos := Z.of_nat (length pre) + 4 |})) /\
  (- 2 ^ 63 <= x < 2 ^ 63 ->
   SqlType_parse u f SqlType.BigInt bp (cursor_at pre (le_bytes 8 (x mod 2 ^ 64) ++ rest)) =
   Ok (SqlValue.BigInt x, bp, {| cur_buf := pre ++ le_bytes 8 (x mod 2 ^ 64) ++ rest;
                                cur_pos := Z.of_nat (length pre) + 8 |})).
Proof.
  assert (G : forall (n : nat) w y,
    w = 8 * Z.of_nat n -> (0 < n)%nat ->
    - 2 ^ (w - 1) <= y < 2 ^ (w - 1) ->
    cursor_read_le (Z.of_nat n) (cursor_at pre (le_bytes n (y mod 2 ^ w) ++ rest)) =
    Ok (y mod 2 ^ w, {| cur_buf := pre ++ le_bytes n (y mod 2 ^ w) ++ rest;
                       cur_pos := Z.of_nat (length pre) + Z.of_nat n |}) /\
    to_signed w (y mod 2 ^ w) = y).
  { intros n w y -> Hn Hy. split; [|apply to_signed_mod; lia].
    assert (Hr : 0 <= y mod 2 ^ (8 * Z.of_nat n) < 256 ^ Z.of_nat n).
    { rewrite Z.pow_mul_r by lia. apply Z.mod_pos_bound. apply Z.pow_pos_nonneg; lia. }
    unfold cursor_read_le, cursor_at.
    rewrite (cursor_read_spec (Z.of_nat n) _ (le_bytes n (y mod 2 ^ (8 * Z.of_nat n))) rest);
      cbn [cur_buf cur_pos].
    - rewrite pbind_Ok. cbv beta iota. rewrite le_value_le_bytes by exact Hr. reflexivity.
    - lia.
    - rewrite Nat2Z.id, skipn_app, skipn_all, Nat.sub_diag, skipn_O. reflexivity.
    - rewrite length_le_bytes. reflexivity.
    - lia. }
  repeat split; intros Hx.
  - destruct (G 1%nat 8 x) as [R S]; [reflexivity|lia|exact Hx|].
    cbn [SqlType_parse]. cbn [Z.of_nat Pos.of_succ_nat Pos.succ] in R. rewrite R, pbind_Ok. cbv beta iota. rewrite S. reflexivity.
  - destruct (G 2%nat 16 x) as [R S]; [reflexivity|lia|exact Hx|].
    cbn [SqlType_parse]. cbn [Z.of_nat Pos.of_succ_nat Pos.succ] in R. rewrite R, pbind_Ok. cbv beta iota. rewrite S. reflexivity.
  - destruct (G 4%nat 32 x) as [R S]; [reflexivity|lia|exact Hx|].
    cbn [SqlType_parse]. cbn [Z.of_nat Pos.of_succ_nat Pos.succ] in R. rewrite R, pbind_Ok. cbv beta iota. rewrite S. reflexivity.
  - destruct (G 8%nat 64 x) as [R S]; [reflexivity|lia|exact Hx|].
    cbn [SqlType_parse]. cbn [Z.of_nat Pos.of_succ_nat Pos.succ] in R. rewrite R, pbind_Ok. cbv beta iota. rewrite S. reflexivity.
Qed.

Lemma SqlType_parse_int_roundtrip_witness :
  SqlType_parse utf16_units ascii_ok SqlType.Int BitParser_new
    (cursor_at [9] (le_bytes 4 ((-2) mod 2 ^ 32) ++ [5])) =
  Ok (SqlValue.Int (-2), BitParser_new,
      {| cur_buf := [9] ++ le_bytes 4 ((-2) mod 2 ^ 32) ++ [5]; cur_pos := Z.of_nat (length [9]) + 4 |}).
Proof.
  apply (proj1 (proj2 (proj2 (SqlType_parse_int_roundtrip utf16_units ascii_ok BitParser_new [9] [5] (-2))))).
  split; [vm_compute; discriminate | reflexivity].
Defined.


Lemma length_vl_offsets pos (cols : list (bool * list Z)) : length (vl_offsets pos cols) = (2 * length cols)%nat.
Proof.
  revert pos; induction cols as [|[cx d] t IH]; intros pos; cbn [vl_offsets length]; [reflexivity|].
  rewrite length_app, length_le_bytes, IH. lia.
Qed.

Lemma vl_offsets_entry pos cols (i : nat) :
  (i < length cols)%nat ->
  firstn 2 (skipn (2 * i) (vl_offsets pos cols)) =
  le_bytes 2 (pos + cum_len (S i) cols + (if fst (nth i cols (false, [])) then 32768 else 0)).
Proof.
  unfold cum_len.
  revert pos i; induction cols as [|[cx d] t IH]; intros pos i Hi; cbn [length] in Hi; [lia|].
  destruct i as [|i].
  - change (2 * 0)%nat with 0%nat. rewrite firstn_cons, firstn_O.
    cbn [vl_offsets map concat nth fst snd].
    rewrite skipn_O, app_nil_r, firstn_app, length_le_bytes, Nat.sub_diag, firstn_O, app_nil_r.
    rewrite firstn_all2 by (rewrite length_le_bytes; lia). reflexivity.
  - cbn [vl_offsets]. replace (2 * S i)%nat with (2 + 2 * i)%nat by lia.
    rewrite skipn_app, length_le_bytes, skipn_all2 by (rewrite length_le_bytes; lia).
    replace (2 + 2 * i - 2)%nat with (2 * i)%nat by lia. cbn [app].
    rewrite IH by lia. rewrite (firstn_cons (S i)). cbn [map concat nth fst snd].
    rewrite length_app, Nat2Z.inj_add.
    f_equal. lia.
Qed.

Lemma vl_column_bytes (cols : list (bool * list Z)) (i : nat) :
  (i < length cols)%nat ->
  firstn (length (snd (nth i cols (false, []))))
    (skipn (length (concat (map snd (firstn i cols)))) (concat (map snd cols))) =
  snd (nth i cols (false, [])).
Proof.
  revert i; induction cols as [|[cx d] t IH]; intros i Hi; cbn [length] in Hi; [lia|].
  destruct i as [|i].
  - cbn. rewrite firstn_app, Nat.sub_diag, firstn_O, app_nil_r, firstn_all. reflexivity.
  - cbn [firstn map concat nth snd]. rewrite length_app, skipn_app.
    rewrite skipn_all2 by lia. replace (length d + length (concat (map snd (firstn i t))) - length d)%nat
      with (length (concat (map snd (firstn i t)))) by lia. cbn [app].
    apply IH. lia.
Qed.

Lemma cum_len_S cols (i : nat) :
  (i < length cols)%nat ->
  cum_len (S i) cols = cum_len i cols + Z.of_nat (length (snd (nth i cols (false, [])))).
Proof.
  unfold cum_len. revert i; induction cols as [|[cx d] t IH]; intros i Hi; cbn [length] in Hi; [lia|].
  destruct i as [|i].
  - cbn. rewrite app_nil_r. lia.
  - cbn [firstn map concat nth snd]. rewrite !length_app, !Nat2Z.inj_add.
    cbn [firstn map concat nth snd] in IH. rewrite IH by lia. lia.
Qed.

Lemma cum_len_bound cols (k : nat) :
  cum_len k cols <= Z.of_nat (length (concat (map snd cols))).
Proof.
  unfold cum_len. apply Nat2Z.inj_le.
  rewrite <- (firstn_skipn k cols) at 2. rewrite map_app, concat_app, length_app. lia.
Qed.

Lemma cum_len_nonneg cols k : 0 <= cum_len k cols.
Proof. unfold cum_len. lia. Qed.

Lemma offset_flag (e : Z) (cx : bool) :
  0 <= e < 32768 ->
  let v := e + (if cx then 32768 else 0) in
  Z.land v 32767 = e /\ negb (Z.land v 32768 =? 0) = cx.
Proof.
  intros He v. split.
  - change 32767 with (Z.ones 15). rewrite Z.land_ones by lia. unfold v.
    destruct cx.
    + change (2 ^ 15) with 32768. symmetry. apply (Z.mod_unique (e + 32768) 32768 1 e); lia.
    + rewrite Z.add_0_r. apply Z.mod_small. cbn; lia.
  - assert (Hl : Z.land v 32768 = if Z.testbit v 15 then 32768 else 0).
    { apply Z.bits_inj'. intros m Hm. rewrite Z.land_spec.
      change 32768 with (2 ^ 15). rewrite Z.pow2_bits_eqb by lia.
      destruct (Z.testbit v 15) eqn:T.
      + rewrite Z.pow2_bits_eqb by lia. destruct (Z.eqb_spec 15 m); [subst; rewrite T|]; 
        rewrite ?andb_true_r, ?andb_false_r; reflexivity.
      + rewrite Z.bits_0. destruct (Z.eqb_spec 15 m); [subst; rewrite T|];
        rewrite ?andb_true_r, ?andb_false_r; reflexivity. }
    assert (Ht : Z.b2z (Z.testbit v 15) = v / 2 ^ 15 mod 2) by (apply Z.testbit_spec'; lia).
    assert (Hd : v / 2 ^ 15 = if cx then 1 else 0).
    { unfold v. destruct cx; [|rewrite Z.add_0_r; apply Z.div_small; change (2 ^ 15) with 32768; lia].
      change (2 ^ 15) with 32768. symmetry. apply (Z.div_unique (e + 32768) 32768 1 e); lia. }
    rewrite Hd in Ht. rewrite Hl.
    destruct cx, (Z.testbit v 15); cbn in Ht; try discriminate; reflexivity.
Qed.

(** X17 ([VarLengthColumns::get]): for a variable-length block laid out
    as an array of absolute u16 end offsets (bit 15 the complex flag)
    followed by the column bytes, with all offsets below 32768, [get i]
    returns column [i] with its complex flag for [i < count], and
    [(false, [])] for [i >= count]. *)
Theorem VarLengthColumns_get_roundtrip base cols (i : Z) :
  0 <= base ->
  base + 2 * Z.of_nat (length cols) + Z.of_nat (length (concat (map snd cols))) < 32768 ->
  0 <= i ->
  VarLengthColumns_get (vl_encode base cols) i =
    Ok (if i <? Z.of_nat (length cols) then nth (Z.to_nat i) cols (false, []) else (false, [])).
Proof.
  intros Hb Hmax Hi.
  set (n := Z.of_nat (length cols)).
  assert (Hn : n = Z.of_nat (length cols)) by reflexivity.
  set (offs := vl_offsets (base + 2 * n) cols).
  assert (Hlo : Z.of_nat (length offs) = 2 * n) by (unfold offs, n; rewrite length_vl_offsets; lia).
  unfold VarLengthColumns_get, vl_encode. fold n offs. cbn [count vl_data base_offset].
  destruct (Z.ltb_spec i n) as [Hin|Hin].
  2: { rewrite (proj2 (Z.leb_le _ _) Hin). reflexivity. }
  rewrite (proj2 (Z.leb_gt _ _) Hin).
  (* the end offset entry [k] *)
  assert (Hent : forall k : nat, (k < length cols)%nat ->
    pbind (slice (offs ++ concat (map snd cols)) (2 * Z.of_nat k) (2 * (Z.of_nat k + 1)))
      VarLengthColumnOffset_parse =
    Ok (base + 2 * n + cum_len (S k) cols, fst (nth k cols (false, [])))).
  { intros k Hk. rewrite slice_ok by (rewrite ?length_app; lia).
    cbn [pbind]. replace (Z.to_nat (2 * (Z.of_nat k + 1) - 2 * Z.of_nat k)) with 2%nat by lia.
    replace (Z.to_nat (2 * Z.of_nat k)) with (2 * k)%nat by lia.
    rewrite skipn_app, firstn_app.
    assert (Hk2 : (2 * k + 2 <= length offs)%nat) by lia.
    replace (2 - length (skipn (2 * k) offs))%nat with 0%nat by (rewrite length_skipn; lia).
    rewrite firstn_O, app_nil_r. unfold offs. rewrite vl_offsets_entry by lia.
    pose proof (cum_len_bound cols (S k)). pose proof (cum_len_nonneg cols (S k)).
    destruct (offset_flag (base + 2 * n + cum_len (S k) cols) (fst (nth k cols (false, []))))
      as [F1 F2]; [lia|].
    unfold VarLengthColumnOffset_parse, read_u16.
    rewrite slice_read by (rewrite ?length_le_bytes; lia). zn.
    rewrite skipn_O, firstn_all2 by (rewrite length_le_bytes; lia).
    rewrite le_value_le_bytes.
    - rewrite F1, F2. reflexivity.
    - change (256 ^ Z.of_nat 2) with 65536. destruct (fst _); lia. }
  assert (Hki : (Z.to_nat i < length cols)%nat) by lia.
  assert (Hstart : pbind (if i =? 0 then Ok (2 * n)
      else let prev_idx := i - 1 in
           s <- slice (offs ++ concat (map snd cols)) (2 * prev_idx) (2 * (prev_idx + 1)) ;;
           '(e, _) <- VarLengthColumnOffset_parse s ;; usize_sub e base)
      (fun start => Ok start) = Ok (2 * n + cum_len (Z.to_nat i) cols)).
  { destruct (Z.eqb_spec i 0) as [->|Hi0].
    - unfold cum_len. cbn [firstn map concat length Z.of_nat pbind]. rewrite Z.add_0_r. reflexivity.
    - cbv zeta. pose proof (Hent (Z.to_nat (i - 1)) ltac:(lia)) as E.
      rewrite Z2Nat.id in E by lia.
      destruct (slice (offs ++ concat (map snd cols)) (2 * (i - 1)) (2 * (i - 1 + 1))) as [s|]; [|discriminate E].
      cbn [pbind] in E |- *. rewrite E, pbind_Ok. cbv beta iota. unfold usize_sub.
      pose proof (cum_len_nonneg cols (S (Z.to_nat (i - 1)))).
      rewrite (proj2 (Z.ltb_ge _ _)) by lia. cbn [pbind].
      replace (S (Z.to_nat (i - 1))) with (Z.to_nat i) by lia. f_equal. lia. }
  destruct (if i =? 0 then _ else _) as [start|] eqn:ES; cbn [pbind] in Hstart; [|discriminate].
  apply Ok_inj in Hstart. subst start. rewrite pbind_Ok.
  pose proof (Hent (Z.to_nat i) Hki) as E. rewrite Z2Nat.id in E by lia.
  destruct (slice (offs ++ concat (map snd cols)) (2 * i) (2 * (i + 1))) as [s|]; [|discriminate E].
  cbn [pbind] in E |- *. rewrite E, pbind_Ok. cbv beta iota. unfold usize_sub.
  pose proof (cum_len_nonneg cols (S (Z.to_nat i))).
  rewrite (proj2 (Z.ltb_ge _ _)) by lia. cbn [pbind].
  replace (base + 2 * n + cum_len (S (Z.to_nat i)) cols - base)
    with (2 * n + cum_len (S (Z.to_nat i)) cols) by lia.
  pose proof (cum_len_S cols (Z.to_nat i) Hki) as HS.
  pose proof (cum_len_bound cols (S (Z.to_nat i))). pose proof (cum_len_nonneg cols (Z.to_nat i)).
  rewrite slice_ok by (rewrite ?length_app; lia). cbn [pbind].
  replace (Z.to_nat (2 * n + cum_len (S (Z.to_nat i)) cols - (2 * n + cum_len (Z.to_nat i) cols)))
    with (length (snd (nth (Z.to_nat i) cols (false, [])))) by lia.
  replace (Z.to_nat (2 * n + cum_len (Z.to_nat i) cols))
    with (length offs + length (concat (map snd (firstn (Z.to_nat i) cols))))%nat
    by (unfold cum_len in *; lia).
  rewrite skipn_app, skipn_all2 by lia. cbn [app].
  replace (length offs + length (concat (map snd (firstn (Z.to_nat i) cols))) - length offs)%nat
    with (length (concat (map snd (firstn (Z.to_nat i) cols)))) by lia.
  rewrite vl_column_bytes by exact Hki.
  destruct (nth (Z.to_nat i) cols (false, [])). reflexivity.
Qed.

Lemma VarLengthColumns_get_roundtrip_witness :
  VarLengthColumns_get (vl_encode 12 ex_vl_cols) 1 = Ok (true, [1; 2; 3]) /\
  VarLengthColumns_get (vl_encode 12 ex_vl_cols) 2 = Ok (false, []).
Proof.
  split.
  - rewrite (VarLengthColumns_get_roundtrip 12 ex_vl_cols 1);
      [reflexivity | discriminate | vm_compute; reflexivity | discriminate].
  - rewrite (VarLengthColumns_get_roundtrip 12 ex_vl_cols 2);
      [reflexivity | discriminate | vm_compute; reflexivity | discriminate].
Defined.


Lemma insert_by_idx_sorted c l :
  Sorted (fun a b => idx a <= idx b) l ->
  Sorted (fun a b => idx a <= idx b) (insert_by_idx c l).
Proof.
  induction 1 as [|d t Ht IH Hd]; cbn [insert_by_idx].
  - repeat constructor.
  - destruct (Z.leb_spec (idx c) (idx d)).
    + constructor; [constructor; assumption|constructor; assumption].
    + constructor; [exact IH|].
      destruct t as [|e t]; cbn [insert_by_idx]; [constructor; lia|].
      inversion Hd; subst. destruct (Z.leb_spec (idx c) (idx e)); constructor; lia.
Qed.

Lemma sort_by_idx_sorted l : Sorted (fun a b => idx a <= idx b) (sort_by_idx l).
Proof. induction l; cbn [sort_by_idx]; [constructor|apply insert_by_idx_sorted; assumption]. Qed.

Lemma insert_by_idx_filter c l k :
  filter (fun d => idx d =? k) (insert_by_idx c l) =
  if idx c =? k then c :: filter (fun d => idx d =? k) l else filter (fun d => idx d =? k) l.
Proof.
  induction l as [|d t IH]; cbn [insert_by_idx filter]; [reflexivity|].
  destruct (Z.leb_spec (idx c) (idx d)).
  - reflexivity.
  - cbn [filter]. rewrite IH.
    destruct (Z.eqb_spec (idx c) k), (Z.eqb_spec (idx d) k); try lia; reflexivity.
Qed.

Lemma sort_by_idx_filter l k :
  filter (fun d => idx d =? k) (sort_by_idx l) = filter (fun d => idx d =? k) l.
Proof.
  induction l as [|c t IH]; cbn [sort_by_idx filter]; [reflexivity|].
  rewrite insert_by_idx_filter, IH. reflexivity.
Qed.

Lemma mapM_panic {A B} (f : A -> Panicky B) l x :
  In x l -> f x = Panic -> mapM f l = Panic.
Proof.
  induction l as [|y t IH]; intros Hx Hf; [destruct Hx|].
  cbn [mapM]. destruct Hx as [<-|Hx].
  - rewrite Hf. reflexivity.
  - destruct (f y); [|reflexivity]. rewrite pbind_Ok, IH by assumption. reflexivity.
Qed.

(** X18 ([Schema::from_col_par]): the columns come out sorted by [idx]
    (the catalog [col_id]), and the columns with any one [idx] keep
    their catalog order, so the result is exactly the stable sort of the
    built columns; a catalog row flagged SPARSE, FILESTREAM or
    XML_DOCUMENT makes it panic. *)
Theorem Schema_from_col_par_sorted ci :
  (forall s, Schema_from_col_par ci = Ok s ->
   exists cols,
     mapM (fun '(col, t) => column_of_col_par col t) ci = Ok cols /\
     Sorted (fun a b => idx a <= idx b) (columns s) /\
     forall k, filter (fun c => idx c =? k) (columns s) = filter (fun c => idx c =? k) cols) /\
  ((exists col t, In (col, t) ci /\
     (contains (SysColPar.status col) ColParStatus.SPARSE
      || contains (SysColPar.status col) ColParStatus.FILESTREAM
      || contains (SysColPar.status col) ColParStatus.XML_DOCUMENT)%bool = true) ->
   Schema_from_col_par ci = Panic).
Proof.
  split.
  - intros s H. unfold Schema_from_col_par in H.
    destruct (mapM _ ci) as [cols|] eqn:E; [|discriminate H].
    rewrite pbind_Ok in H. apply Ok_inj in H. subst s. exists cols.
    split; [reflexivity|]. cbn [columns]. split.
    + apply sort_by_idx_sorted.
    + intros k. apply sort_by_idx_filter.
  - intros (col & t & Hin & Hst). unfold Schema_from_col_par.
    rewrite (mapM_panic _ ci (col, t) Hin); [reflexivity|].
    unfold column_of_col_par, rust_assert.
    destruct (contains _ ColParStatus.SPARSE); [reflexivity|].
    destruct (contains _ ColParStatus.FILESTREAM); [reflexivity|].
    destruct (contains _ ColParStatus.XML_DOCUMENT); [reflexivity|]. discriminate Hst.
Qed.

Lemma Schema_from_col_par_sorted_witness :
  Schema_from_col_par [(ex_col_par_id 3, ex_int_type); (ex_col_par_id 1, ex_int_type)] =
    Ok {| columns := [int_column 1; int_column 3] |} /\
  Sorted (fun a b => idx a <= idx b) [int_column 1; int_column 3] /\
  Schema_from_col_par [(ex_col_par_id 1, ex_int_type); (ex_col_par 16777216, ex_int_type)] = Panic.
Proof.
  assert (H : Schema_from_col_par [(ex_col_par_id 3, ex_int_type); (ex_col_par_id 1, ex_int_type)] =
              Ok {| columns := [int_column 1; int_column 3] |}) by (vm_compute; reflexivity).
  split; [exact H|]. split.
  - destruct (proj1 (Schema_from_col_par_sorted _) _ H) as (cols & _ & S & _). exact S.
  - apply (proj2 (Schema_from_col_par_sorted _)).
    exists (ex_col_par 16777216), ex_int_type. split; [right; left; reflexivity | reflexivity].
Defined.


Lemma vec_set_other {A} (l : list A) i v l' k :
  vec_set l i v = Ok l' -> k <> i -> nth_error l' k = nth_error l k.
Proof.
  revert i k l'; induction l as [|x t IH]; intros [|i] k l' H Hk; cbn in H; try discriminate.
  - injection H as <-. destruct k; [lia|reflexivity].
  - inv_ok. destruct k; [reflexivity|]. cbn. apply (IH i); [assumption|lia].
Qed.

Lemma parse_column_other u f r c i st vs st' vs' k :
  parse_column u f r c i st vs = Ok (st', vs') -> k <> i -> nth_error vs' k = nth_error vs k.
Proof.
  unfold parse_column; intros H Hk.
  destruct (column_count r <=? null_bit_idx st); [congruence|].
  inv_ok. destruct a; [congruence|].
  destruct (is_var_length (data_type c)).
  - destruct (var_length_columns r); inv_ok.
    + destruct a; inv_ok. eapply vec_set_other; eauto.
    + eapply vec_set_other; eauto.
  - inv_ok. destruct a as [[v bp] cur]. inv_ok. eapply vec_set_other; eauto.
Qed.

Lemma parse_columns_keep u f r cols i st vs vs' k :
  parse_columns u f r cols i st vs = Ok vs' ->
  ((k < i)%nat \/ exists j c, k = (i + j)%nat /\ nth_error cols j = Some c /\ computed c = true) ->
  nth_error vs' k = nth_error vs k.
Proof.
  revert i st vs; induction cols as [|c rest IH]; intros i st vs H Hk; cbn in H.
  - congruence.
  - destruct (computed c) eqn:Hc.
    + apply (IH (S i) st vs H).
      destruct Hk as [Hk|(j & c' & -> & Hj & Hc')]; [left; lia|].
      destruct j as [|j]; [left; lia|]. right. exists j, c'. split; [lia|split; assumption].
    + inv_ok. destruct a as [st1 vs1].
      rewrite (IH (S i) _ vs1 H).
      * eapply parse_column_other; [eassumption|].
        destruct Hk as [Hk|(j & c' & -> & Hj & Hc')]; [lia|].
        destruct j as [|j]; [cbn in Hj; congruence|lia].
      * destruct Hk as [Hk|(j & c' & -> & Hj & Hc')]; [left; lia|].
        destruct j as [|j]; [cbn in Hj; congruence|]. right. exists j, c'.
        split; [lia|split; assumption].
Qed.

Lemma parse_columns_past_count u f r cols i st vs :
  column_count r <= null_bit_idx st -> parse_columns u f r cols i st vs = Ok vs.
Proof.
  revert i st; induction cols as [|c rest IH]; intros i st Hst; cbn [parse_columns]; [reflexivity|].
  destruct (computed c); [apply IH; exact Hst|].
  unfold parse_column. rewrite (proj2 (Z.leb_le _ _) Hst). rewrite pbind_Ok. cbv beta iota.
  apply IH. cbn. lia.
Qed.

(** X19 ([Schema::parse]): a record with [column_count = 0] decodes,
    without panicking, to a row of [None]s, one per schema column; and in
    every decoded row the value of a computed column is [None]. *)
Theorem Schema_parse_empty_columns u f s r :
  (column_count r = 0 ->
   Schema_parse u f s r = Ok {| values := repeat None (length (columns s)) |}) /\
  (forall row i c, Schema_parse u f s r = Ok row ->
   nth_error (columns s) i = Some c -> computed c = true ->
   nth_error (values row) i = Some None).
Proof.
  split.
  - intros H0. unfold Schema_parse. rewrite parse_columns_past_count by (cbn; lia).
    reflexivity.
  - intros row i c H Hi Hc. unfold Schema_parse in H. inv_ok. cbn [values].
    rewrite (parse_columns_keep _ _ _ _ _ _ _ _ i Heqp).
    + apply nth_error_repeat. apply nth_error_Some. congruence.
    + right. exists i, c. split; [reflexivity|split; assumption].
Qed.

Lemma Schema_parse_empty_columns_witness :
  Schema_parse utf16_units ascii_ok ex_computed_schema ex_empty_record =
    Ok {| values := [None; None; None] |} /\
  Schema_parse utf16_units ascii_ok ex_computed_schema ex_bits_record =
    Ok {| values := [Some (SqlValue.Bit false); None; Some (SqlValue.Bit true)] |} /\
  nth_error (values {| values := [Some (SqlValue.Bit false); None; Some (SqlValue.Bit true)] |}) 1 =
    Some None.
Proof.
  assert (H : Schema_parse utf16_units ascii_ok ex_computed_schema ex_bits_record =
    Ok {| values := [Some (SqlValue.Bit false); None; Some (SqlValue.Bit true)] |})
    by (vm_compute; reflexivity).
  split; [exact (proj1 (Schema_parse_empty_columns utf16_units ascii_ok ex_computed_schema ex_empty_record) eq_refl)|].
  split; [exact H|].
  exact (proj2 (Schema_parse_empty_columns utf16_units ascii_ok _ _) _ 1%nat
           {| idx := 2; data_type := SqlType.Int; name := "v"%string;
              nullable := true; computed := true |} H eq_refl eq_refl).
Defined.


Lemma skipn_nth_error {A} (l : list A) n c :
  nth_error l n = Some c -> skipn n l = c :: skipn (S n) l.
Proof.
  revert n; induction l as [|x t IH]; intros [|n] H; cbn in H; try discriminate.
  - injection H as <-. reflexivity.
  - cbn [skipn]. apply IH. exact H.
Qed.

Lemma skipn_length_all {A} (l : list A) : skipn (length l) l = [].
Proof. apply skipn_all2. lia. Qed.

Section TwoLevel.
Variable get_record : RecordPointer -> Panicky (option Record_).
Variable root : LobLargeRootYukon.t.
Variable children : list (Z * LobData.t).
Hypothesis Hcur : LobLargeRootYukon.cur_links root = Z.of_nat (length children).
Hypothesis Hread : forall i c, nth_error children i = Some c ->
  LobLargeRootYukon_read get_record root (Z.of_nat i) =
  Ok (Some (fst c, Some (LobEntry.Data (snd c)))).

Lemma walk_children_data (k : nat) fuel i blocks :
  Z.of_nat k + i = Z.of_nat (length children) -> 0 <= i -> (k < fuel)%nat ->
  walk_children get_record (LobEntry.LargeRootYukon root) fuel i blocks [] =
  if Z.of_nat (length children) <? 65535
  then Ok (Some (blocks ++ map (fun c => (fst c, LobData.data (snd c)))
                              (skipn (Z.to_nat i) children), []))
  else Panic.
Proof.
  revert fuel i blocks; induction k as [|k IH]; intros [|fuel] i blocks Hk Hi Hf; try lia.
  - cbn [walk_children entry_read]. unfold LobLargeRootYukon_read at 1.
    rewrite Hcur, (proj2 (Z.leb_le _ _)) by lia. rewrite pbind_Ok. unfold u16_incr.
    destruct (Z.ltb_spec (Z.of_nat (length children)) 65535).
    + rewrite (proj2 (Z.ltb_ge _ _)) by lia. rewrite pbind_Ok.
      replace (Z.to_nat i) with (length children) by lia.
      rewrite skipn_length_all, app_nil_r. reflexivity.
    + rewrite (proj2 (Z.ltb_lt _ _)) by lia. reflexivity.
  - assert (Hn : (Z.to_nat i < length children)%nat) by lia.
    destruct (nth_error children (Z.to_nat i)) as [c|] eqn:Hc.
    2: { apply nth_error_None in Hc. lia. }
    pose proof (Hread _ _ Hc) as R. rewrite Z2Nat.id in R by lia.
    cbn [walk_children entry_read]. rewrite R, pbind_Ok. unfold u16_incr.
    destruct (Z.ltb_spec 65535 (i + 1)).
    + rewrite (proj2 (Z.ltb_ge _ _)) by lia. reflexivity.
    + rewrite pbind_Ok. destruct c as [sz d]. cbn [fst snd].
      rewrite (IH fuel (i + 1)) by lia.
      rewrite (skipn_nth_error _ _ _ Hc).
      replace (Z.to_nat (i + 1)) with (S (Z.to_nat i)) by lia.
      rewrite <- app_assoc. reflexivity.
Qed.

End TwoLevel.

(** X20 ([LobPointer::read] over a [LargeRootYukon] root): when every one
    of the root's [cur_links] entries resolves to a [Data] leaf, the read
    returns one block per entry, in entry order, holding the entry's size
    and the leaf's data; with [cur_links = 65535] the iterator's
    [idx += 1] overflows after the last entry and the read panics. *)
Theorem LobPointer_read_two_level get_record lp r root children n :
  get_record (ptr lp) = Ok (Some r) ->
  LobEntry_parse r = Ok (Some (LobEntry.LargeRootYukon root)) ->
  LobLargeRootYukon.cur_links root = Z.of_nat (length children) ->
  (forall i c, nth_error children i = Some c ->
     LobLargeRootYukon_read get_record root (Z.of_nat i) =
     Ok (Some (fst c, Some (LobEntry.Data (snd c))))) ->
  LobPointer_read get_record (S n) lp =
  Some (if Z.of_nat (length children) <? 65535
        then Ok (Some (map (fun c => (fst c, LobData.data (snd c))) children))
        else Panic).
Proof.
  intros Hg Hp Hcur Hread. unfold LobPointer_read. rewrite Hg, Hp.
  cbn [lob_loop walk_entries entry_cur_links]. rewrite Hcur.
  rewrite (walk_children_data get_record root children Hcur Hread (Z.to_nat (Z.of_nat (length children))))
    by lia.
  destruct (_ <? 65535); [|reflexivity].
  rewrite pbind_Ok. cbn [walk_entries app]. change (Z.to_nat 0) with 0%nat. rewrite skipn_O.
  destruct n; reflexivity.
Qed.

Lemma LobPointer_read_two_level_witness :
  LobPointer_read ex_get_record_full 1 ex_lob_pointer =
  Some (Ok (Some [(3, [7; 8; 9]); (5, [10; 11])])).
Proof.
  rewrite (LobPointer_read_two_level ex_get_record_full ex_lob_pointer
             (LobLargeRootYukon.record ex_root) ex_root ex_root_children 0).
  - reflexivity.
  - vm_compute; reflexivity.
  - vm_compute; reflexivity.
  - reflexivity.
  - intros [|[|i]] c Hc.
    + injection Hc as <-. vm_compute; reflexivity.
    + injection Hc as <-. vm_compute; reflexivity.
    + destruct i; discriminate Hc.
Defined.


(** X21 ([LobPointer::read]): an unresolved root pointer or a root record
    that is not a LOB node gives [None]; a [SmallRoot] or [Data] root
    gives a single block whose offset is the length of its data. *)
Theorem LobPointer_read_single_block get_record lp n :
  (get_record (ptr lp) = Ok None -> LobPointer_read get_record n lp = Some (Ok None)) /\
  (forall r, get_record (ptr lp) = Ok (Some r) -> LobEntry_parse r = Ok None ->
   LobPointer_read get_record n lp = Some (Ok None)) /\
  (forall r x, get_record (ptr lp) = Ok (Some r) ->
   LobEntry_parse r = Ok (Some (LobEntry.SmallRoot x)) ->
   LobPointer_read get_record (S n) lp =
   Some (Ok (Some [(Z.of_nat (length (LobSmallRoot.data x)), LobSmallRoot.data x)]))) /\
  (forall r x, get_record (ptr lp) = Ok (Some r) ->
   LobEntry_parse r = Ok (Some (LobEntry.Data x)) ->
   LobPointer_read get_record (S n) lp =
   Some (Ok (Some [(Z.of_nat (length (LobData.data x)), LobData.data x)]))).
Proof.
  unfold LobPointer_read. split; [|split; [|split]].
  - intros H. rewrite H. reflexivity.
  - intros r H Hp. rewrite H, Hp. reflexivity.
  - intros r x H Hp. rewrite H, Hp. destruct n; reflexivity.
  - intros r x H Hp. rewrite H, Hp. destruct n; reflexivity.
Qed.

Lemma LobPointer_read_single_block_witness :
  LobPointer_read (fun _ => Ok (Some ex_small_root_record)) 1 ex_lob_pointer =
  Some (Ok (Some [(2, [7; 8])])).
Proof.
  apply (proj1 (proj2 (proj2 (LobPointer_read_single_block
           (fun _ => Ok (Some ex_small_root_record)) ex_lob_pointer 0)))
           ex_small_root_record
           {| LobSmallRoot.blob_id := 1; LobSmallRoot.ty := LobType.SmallRoot;
              LobSmallRoot.length := 2; LobSmallRoot.data := [7; 8] |}).
  - reflexivity.
  - vm_compute; reflexivity.
Defined.

